(** * Simulation core of pythongame: gauges, stuns, buffs, levelling,
      the bucket index and the movement resolver

    A shallow embedding of [pythongame/core/game_state.py] and of
    [handle_buffs] from [pythongame/core/game_engine.py], with the properties
    of the specification that concern them.

    Conventions of the embedding.
    - Python [int] is [Z].  [Millis] is an [int].
    - Python [float] is a rational [Q].  Every floating operation of the
      source is written [fl (exact result)], where [fl : Q -> Q] is the
      rounding of the machine; [fl] is a parameter, and [fl := fun q => q]
      gives exact arithmetic.
    - [a // b] is [Z.div], [int(x)] on a float is truncation toward zero,
      [math.floor] is [Qfloor], [min] and [max] are [Qmin], [Qmax], [Z.min]
      and [Z.max].
    - An [Observable] is the list of the payloads it was notified with,
      oldest first (or their number, where the payload is the notifier).
    - A raised exception is [Raise e]; the state it leaves behind is dropped,
      as no caller in the source catches one.
    - Objects that the source shares by reference (buffs, world entities)
      live in a store indexed by references; lists hold references. *)

From Stdlib Require Import ZArith QArith Qround Qminmax Qabs Lqa Lia.
From stdpp Require Import base decidable option list functions strings pretty gmap.

#[local] Open Scope Z_scope.

(** ** Exceptions *)

Inductive exn :=
| TypeError
| ValueError
| KeyError
| ZeroDivisionError
| Exception (message : string).

Inductive result (A : Type) :=
| Ok (a : A)
| Raise (e : exn).
Arguments Ok {A} a.
Arguments Raise {A} e.

Definition rbind {A B} (m : result A) (k : A -> result B) : result B :=
  match m with
  | Ok a => k a
  | Raise e => Raise e
  end.

Notation "x <- m ;;; k" := (rbind m (fun x => k))
  (at level 100, m at next level, right associativity, only parsing).

Definition is_ok {A} (m : result A) : bool :=
  match m with Ok _ => true | Raise _ => false end.

(** [int(x)] of a float [x]: truncation toward zero. *)
Definition py_int (x : Q) : Z := Z.quot (Qnum x) (Z.pos (Qden x)).

(** [range(lo, hi)]. *)
Definition py_range (lo hi : Z) : list Z := seqZ lo (hi - lo).

(** [l.remove(x)]: drops the first element equal to [x], [ValueError] when
    there is none. *)
Fixpoint list_remove {A} `{EqDecision A} (x : A) (l : list A) : result (list A) :=
  match l with
  | [] => Raise ValueError
  | y :: l' =>
      if decide (y = x) then Ok l'
      else l'' <- list_remove x l' ;;; Ok (y :: l'')
  end.

(** A [for] loop (or comprehension) over [l] whose body may raise. *)
Fixpoint mapM_result {A B} (f : A -> result B) (l : list A) : result (list B) :=
  match l with
  | [] => Ok []
  | a :: l' => b <- f a ;;; bs <- mapM_result f l' ;;; Ok (b :: bs)
  end.

(** ** HealthOrManaResource *)

Module Gauge.
Section WithRounding.
Variable fl : Q -> Q.

Record HealthOrManaResource := {
  _value_float : Q;
  value : Z;
  max_value : Z;
  base_regen : Q;
  regen_bonus : Q;
  value_was_updated : list (Z * Z)
}.

(** [HealthOrManaResource(max_value, regen)] *)
Definition new (max_value0 : Z) (regen : Q) : HealthOrManaResource :=
  {| _value_float := inject_Z max_value0;
     value := max_value0;
     max_value := max_value0;
     base_regen := regen;
     regen_bonus := 0;
     value_was_updated := [] |}.

Definition set_value (vf : Q) (v : Z) (g : HealthOrManaResource) :=
  {| _value_float := vf;
     value := v;
     max_value := max_value g;
     base_regen := base_regen g;
     regen_bonus := regen_bonus g;
     value_was_updated := value_was_updated g |}.

Definition set_max_value (m : Z) (g : HealthOrManaResource) :=
  {| _value_float := _value_float g;
     value := value g;
     max_value := m;
     base_regen := base_regen g;
     regen_bonus := regen_bonus g;
     value_was_updated := value_was_updated g |}.

Definition _notify_observers (g : HealthOrManaResource) :=
  {| _value_float := _value_float g;
     value := value g;
     max_value := max_value g;
     base_regen := base_regen g;
     regen_bonus := regen_bonus g;
     value_was_updated := value_was_updated g ++ [(value g, max_value g)] |}.

(** Each mutator returns the new gauge and the value the method returns. *)
Definition gain (amount : Q) (g : HealthOrManaResource) : HealthOrManaResource * Z :=
  let value_before := value g in
  let vf := Qmin (fl (_value_float g + amount)) (inject_Z (max_value g)) in
  let g1 := set_value vf (Qfloor vf) g in
  let amount_gained := value g1 - value_before in
  (_notify_observers g1, amount_gained).

Definition lose (amount : Q) (g : HealthOrManaResource) : HealthOrManaResource * Z :=
  let value_before := value g in
  let vf := Qmin (fl (_value_float g - amount)) (inject_Z (max_value g)) in
  let g1 := set_value vf (Qfloor vf) g in
  let amount_lost := value_before - value g1 in
  (_notify_observers g1, amount_lost).

Definition set_zero (g : HealthOrManaResource) : HealthOrManaResource :=
  _notify_observers (set_value 0 0 g).

Definition gain_to_max (g : HealthOrManaResource) : HealthOrManaResource * Z :=
  let value_before := value g in
  let g1 := set_value (inject_Z (max_value g)) (max_value g) g in
  let amount_gained := value g1 - value_before in
  (_notify_observers g1, amount_gained).

Definition set_to_partial_of_max (partial : Q) (g : HealthOrManaResource) :=
  let vf := fl (partial * inject_Z (max_value g)) in
  _notify_observers (set_value vf (Qfloor vf) g).

Definition get_effective_regen (g : HealthOrManaResource) : Q :=
  fl (base_regen g + regen_bonus g).

Definition regenerate (time_passed : Z) (g : HealthOrManaResource) :=
  fst (gain (fl (fl (get_effective_regen g / 1000) * inject_Z time_passed)) g).

Definition is_at_max (g : HealthOrManaResource) : bool :=
  bool_decide (value g = max_value g).

Definition is_at_or_below_zero (g : HealthOrManaResource) : bool :=
  bool_decide (value g <= 0).

Definition increase_max (amount : Z) (g : HealthOrManaResource) :=
  set_max_value (max_value g + amount) g.

Definition decrease_max (amount : Z) (g : HealthOrManaResource) :=
  let g1 := set_max_value (max_value g - amount) g in
  if bool_decide (value g1 > max_value g1) then
    let vf := inject_Z (max_value g1) in
    _notify_observers (set_value vf (Qfloor vf) g1)
  else g1.

(** A call of one of the four mutators the invariant of the gauge is
    about, and a sequence of them performed in order. *)
Inductive call :=
| Gain (amount : Q)
| Lose (amount : Q)
| IncreaseMax (amount : Z)
| DecreaseMax (amount : Z).

Definition perform (g : HealthOrManaResource) (c : call) : HealthOrManaResource :=
  match c with
  | Gain a => fst (gain a g)
  | Lose a => fst (lose a g)
  | IncreaseMax a => increase_max a g
  | DecreaseMax a => decrease_max a g
  end.

Definition perform_all (calls : list call) (g : HealthOrManaResource) :=
  fold_left perform calls g.

(** [modify_stat] only ever calls [increase_max] with [stat_delta >= 0]. *)
Definition grows (c : call) : Prop :=
  match c with
  | IncreaseMax a => 0 <= a
  | _ => True
  end.

(** No call of the sequence takes the accumulator or the maximum below
    zero: nothing is lost (or negatively gained) beyond what is there. *)
Fixpoint within_means (calls : list call) (g : HealthOrManaResource) : bool :=
  match calls with
  | [] => true
  | c :: calls' =>
      match c with
      | Gain a => Qle_bool 0 (fl (_value_float g + a))
      | Lose a => Qle_bool 0 (fl (_value_float g - a))
      | IncreaseMax a => bool_decide (0 <= a)
      | DecreaseMax a => bool_decide (a <= max_value g)
      end && within_means calls' (perform g c)
  end.

(** The rounding of one floating operation is off by at most one half. *)
Definition within_half (q : Q) : Prop :=
  (q - (1 # 2) <= fl q <= q + (1 # 2))%Q.

Definition gains_or_loses (c : call) : Prop :=
  match c with
  | Gain _ | Lose _ => True
  | _ => False
  end.
End WithRounding.
End Gauge.

(** ** StunStatus *)

Module Stun.
Record StunStatus := { _number_of_active_stuns : Z }.

Definition new : StunStatus := {| _number_of_active_stuns := 0 |}.

Definition add_one (s : StunStatus) : StunStatus :=
  {| _number_of_active_stuns := _number_of_active_stuns s + 1 |}.

Definition remove_one (s : StunStatus) : result StunStatus :=
  let n := _number_of_active_stuns s - 1 in
  if bool_decide (n < 0)
  then Raise (Exception "Number of active stuns went below 0")
  else Ok {| _number_of_active_stuns := n |}.

Definition is_stunned (s : StunStatus) : bool :=
  bool_decide (_number_of_active_stuns s > 0).

(** [n] calls of [add_one], resp. of [remove_one], in a row. *)
Definition add_many (n : nat) (s : StunStatus) : StunStatus :=
  Nat.iter n add_one s.

Fixpoint remove_many (n : nat) (s : StunStatus) : result StunStatus :=
  match n with
  | O => Ok s
  | S n' => s' <- remove_one s ;;; remove_many n' s'
  end.

(** Any sequence of [add_one] and [remove_one] calls, as buffs starting and
    ending make them, performed in order. *)
Inductive call := AddOne | RemoveOne.

Definition perform (s : StunStatus) (c : call) : result StunStatus :=
  match c with
  | AddOne => Ok (add_one s)
  | RemoveOne => remove_one s
  end.

Fixpoint perform_all (calls : list call) (s : StunStatus) : result StunStatus :=
  match calls with
  | [] => Ok s
  | c :: calls' => s' <- perform s c ;;; perform_all calls' s'
  end.

(** The adds minus the removes of a sequence. *)
Fixpoint balance (calls : list call) : Z :=
  match calls with
  | [] => 0
  | AddOne :: calls' => 1 + balance calls'
  | RemoveOne :: calls' => -1 + balance calls'
  end.
End Stun.

(** ** BuffWithDuration and the buff lifecycle engine *)

Module Buffs.
Section WithEffects.
(** [BuffType] is an enumeration of [pythongame.core.common]; a buff effect
    is a pluggable strategy of which the core only asks [get_buff_type]. *)
Context {BuffType : Type} `{EqDecision BuffType}.
Context {BuffEffect : Type} (get_buff_type : BuffEffect -> BuffType).

Record BuffWithDuration := {
  buff_effect : BuffEffect;
  _time_until_expiration : option Z;
  has_been_force_cancelled : bool;
  _total_duration : option Z;
  has_applied_start_effect : bool
}.

(** [BuffWithDuration(buff_effect, duration)] *)
Definition new (effect : BuffEffect) (duration : option Z) : BuffWithDuration :=
  {| buff_effect := effect;
     _time_until_expiration := duration;
     has_been_force_cancelled := false;
     _total_duration := duration;
     has_applied_start_effect := false |}.

Definition set_time (t : option Z) (b : BuffWithDuration) : BuffWithDuration :=
  {| buff_effect := buff_effect b;
     _time_until_expiration := t;
     has_been_force_cancelled := has_been_force_cancelled b;
     _total_duration := _total_duration b;
     has_applied_start_effect := has_applied_start_effect b |}.

Definition set_started (b : BuffWithDuration) : BuffWithDuration :=
  {| buff_effect := buff_effect b;
     _time_until_expiration := _time_until_expiration b;
     has_been_force_cancelled := has_been_force_cancelled b;
     _total_duration := _total_duration b;
     has_applied_start_effect := true |}.

Definition force_cancel (b : BuffWithDuration) : BuffWithDuration :=
  {| buff_effect := buff_effect b;
     _time_until_expiration := Some 0;
     has_been_force_cancelled := true;
     _total_duration := _total_duration b;
     has_applied_start_effect := has_applied_start_effect b |}.

(** [self._time_until_expiration -= time]: [None - int] is a [TypeError]. *)
Definition notify_time_passed (time : Z) (b : BuffWithDuration) : result BuffWithDuration :=
  match _time_until_expiration b with
  | Some t => Ok (set_time (Some (t - time)) b)
  | None => Raise TypeError
  end.

(** [self._time_until_expiration <= 0]: [None <= 0] is a [TypeError]. *)
Definition has_expired (b : BuffWithDuration) : result bool :=
  match _time_until_expiration b with
  | Some t => Ok (bool_decide (t <= 0))
  | None => Raise TypeError
  end.

Definition change_remaining_duration (delta : Z) (b : BuffWithDuration) : result BuffWithDuration :=
  match _time_until_expiration b, _total_duration b with
  | Some t, Some total => Ok (set_time (Some (Z.min (t + delta) total)) b)
  | _, _ => Raise TypeError
  end.

Definition set_remaining_duration (time : Z) (b : BuffWithDuration) : BuffWithDuration :=
  set_time (Some time) b.

(** Buff objects are shared between the list of their owner, the copy
    [handle_buffs] iterates over and the lists it returns: they live in a
    store, and the lists hold references.  [next_ref] is the first reference
    never allocated. *)
Definition ref := nat.

Record store := {
  objects : ref -> BuffWithDuration;
  next_ref : ref
}.

Definition update (r : ref) (b : BuffWithDuration) (s : store) : store :=
  {| objects := <[r := b]> (objects s); next_ref := next_ref s |}.

Definition alloc (b : BuffWithDuration) (s : store) : ref * store :=
  (next_ref s, {| objects := <[next_ref s := b]> (objects s); next_ref := S (next_ref s) |}).

(** [gain_buff_effect] of [NonPlayerCharacter] and of [PlayerState], on the
    list [active_buffs] of the owner; the player's version then notifies
    its buff observers. *)
Definition gain_buff_effect (buff : BuffEffect) (duration : Z)
    (s : store) (active_buffs : list ref) : store * list ref :=
  let existing_buffs_with_this_type :=
    filter (fun b => get_buff_type (buff_effect (objects s b)) = get_buff_type buff) active_buffs in
  match existing_buffs_with_this_type with
  | b0 :: _ => (update b0 (set_remaining_duration duration (objects s b0)) s, active_buffs)
  | [] =>
      let '(r, s') := alloc (new buff (Some duration)) s in
      (s', active_buffs ++ [r])
  end.

Record AgentBuffsUpdate := {
  buffs_that_started : list ref;
  buffs_that_were_active : list ref;
  buffs_that_ended : list ref
}.

(** The variables of the loop of [handle_buffs]. *)
Record loop_state := {
  the_store : store;
  the_active_buffs : list ref;
  started : list ref;
  were_active : list ref;
  ended : list ref
}.

(** One iteration of [for buff in copied_buffs_list]. *)
Definition handle_buff (time_passed : Z) (st : loop_state) (buff : ref) : result loop_state :=
  b <- notify_time_passed time_passed (objects (the_store st) buff) ;;;
  let s1 := update buff b (the_store st) in
  let were_active1 :=
    if negb (has_been_force_cancelled b) then were_active st ++ [buff] else were_active st in
  if negb (has_applied_start_effect b) then
    Ok {| the_store := update buff (set_started b) s1;
          the_active_buffs := the_active_buffs st;
          started := started st ++ [buff];
          were_active := were_active1;
          ended := ended st |}
  else
    expired <- has_expired b ;;;
    if (expired : bool) then
      active1 <- list_remove buff (the_active_buffs st) ;;;
      Ok {| the_store := s1;
            the_active_buffs := active1;
            started := started st;
            were_active := were_active1;
            ended := ended st ++ [buff] |}
    else
      Ok {| the_store := s1;
            the_active_buffs := the_active_buffs st;
            started := started st;
            were_active := were_active1;
            ended := ended st |}.

Fixpoint handle_each (time_passed : Z) (copied_buffs_list : list ref) (st : loop_state)
    : result loop_state :=
  match copied_buffs_list with
  | [] => Ok st
  | buff :: rest => st' <- handle_buff time_passed st buff ;;; handle_each time_passed rest st'
  end.

(** [handle_buffs(active_buffs, time_passed)] of the engine: the store and
    the list after the call, and the [AgentBuffsUpdate] returned. *)
Definition handle_buffs (s : store) (active_buffs : list ref) (time_passed : Z)
    : result (store * list ref * AgentBuffsUpdate) :=
  let copied_buffs_list := active_buffs in
  st <- handle_each time_passed copied_buffs_list
          {| the_store := s; the_active_buffs := active_buffs;
             started := []; were_active := []; ended := [] |} ;;;
  Ok (the_store st, the_active_buffs st,
      {| buffs_that_started := started st;
         buffs_that_were_active := were_active st;
         buffs_that_ended := ended st |}).

(** Successive frames: one call of [handle_buffs] per time delta, with
    nothing else touching the buffs in between. *)
Fixpoint handle_buffs_each_frame (s : store) (active_buffs : list ref) (deltas : list Z)
    : result (store * list ref * list AgentBuffsUpdate) :=
  match deltas with
  | [] => Ok (s, active_buffs, [])
  | time_passed :: deltas' =>
      r <- handle_buffs s active_buffs time_passed ;;;
      let '(s1, active1, u) := r in
      r' <- handle_buffs_each_frame s1 active1 deltas' ;;;
      let '(s2, active2, us) := r' in
      Ok (s2, active2, u :: us)
  end.

(** How many times a buff is listed, i.e. how many times the hook that the
    caller runs over the list fires for it. *)
Definition occurrences (b : ref) (l : list ref) : nat :=
  length (filter (fun r => r = b) l).

(** What one call of [handle_buffs] does to a buff of the list. *)
Definition ticked (time_passed : Z) (b : BuffWithDuration) : BuffWithDuration :=
  {| buff_effect := buff_effect b;
     _time_until_expiration := (fun t => t - time_passed) <$> _time_until_expiration b;
     has_been_force_cancelled := has_been_force_cancelled b;
     _total_duration := _total_duration b;
     has_applied_start_effect := true |}.

Definition starts (b : BuffWithDuration) : bool := negb (has_applied_start_effect b).

Definition is_active (b : BuffWithDuration) : bool := negb (has_been_force_cancelled b).

Definition ends (time_passed : Z) (b : BuffWithDuration) : bool :=
  has_applied_start_effect b &&
  match _time_until_expiration b with
  | Some t => bool_decide (t - time_passed <= 0)
  | None => false
  end.

Definition timed (b : BuffWithDuration) : Prop := _time_until_expiration b <> None.

(** No buff is in both lists. *)
Definition disjoint_lists (l1 l2 : list ref) : Prop :=
  forall r, r ∈ l1 -> r ∉ l2.

(** The three lists of one call are pairwise disjoint. *)
Definition pairwise_disjoint (u : AgentBuffsUpdate) : Prop :=
  disjoint_lists (buffs_that_started u) (buffs_that_were_active u) /\
  disjoint_lists (buffs_that_started u) (buffs_that_ended u) /\
  disjoint_lists (buffs_that_were_active u) (buffs_that_ended u).

(** A buff type is among the active buffs of an owner. *)
Definition has_buff_of_type (s : store) (active_buffs : list ref) (buff : BuffEffect) : Prop :=
  exists r, r ∈ active_buffs /\
    get_buff_type (buff_effect (objects s r)) = get_buff_type buff.

(** [b'] is [b] with its remaining duration set to [duration] and nothing
    else changed. *)
Definition same_but_duration (duration : Z) (b b' : BuffWithDuration) : Prop :=
  _time_until_expiration b' = Some duration /\
  buff_effect b' = buff_effect b /\
  has_been_force_cancelled b' = has_been_force_cancelled b /\
  _total_duration b' = _total_duration b /\
  has_applied_start_effect b' = has_applied_start_effect b.

(** The store [s'] is [s] with the remaining duration of one buff of the
    list, of the type of [buff], set to [duration]. *)
Definition refreshed (buff : BuffEffect) (duration : Z) (active_buffs : list ref)
    (s s' : store) : Prop :=
  exists r, r ∈ active_buffs /\
    get_buff_type (buff_effect (objects s r)) = get_buff_type buff /\
    same_but_duration duration (objects s r) (objects s' r) /\
    (forall x, x <> r -> objects s' x = objects s x) /\
    next_ref s' = next_ref s.

(** The time that a sequence of frames takes. *)
Definition total (deltas : list Z) : Z := foldr Z.add 0 deltas.
End WithEffects.
Arguments BuffWithDuration : clear implicits.
Arguments store : clear implicits.
Arguments loop_state : clear implicits.
End Buffs.

(** ** PlayerState: experience and levels *)

Module Player.
Section WithContent.
Variable fl : Q -> Q.
(** [AbilityType] is an enumeration of [pythongame.core.common]; of
    [TalentsState] ([pythongame.core.talents]) the player only uses
    [has_tier_for_level] and [unlock_tier]. *)
Context {AbilityType : Type} `{Countable AbilityType}.
Context {TalentsState : Type}.
Variable has_tier_for_level : TalentsState -> Z -> bool.
Variable unlock_tier : TalentsState -> Z -> TalentsState.
Context {BuffType : Type} `{EqDecision BuffType}.
Context {BuffEffect : Type} (get_buff_type : BuffEffect -> BuffType).

Record PlayerLevelBonus := {
  health : Z;
  mana : Z;
  armor : Q
}.

Inductive GainExpEvent :=
| PlayerLeveledUp
| PlayerLearnedNewAbility (ability_type : AbilityType)
| PlayerUnlockedNewTalent.

Definition is_level_up (e : GainExpEvent) : bool :=
  match e with PlayerLeveledUp => true | _ => false end.

(** The number of [PlayerLeveledUp] among the events returned. *)
Definition level_ups (events : list GainExpEvent) : nat :=
  length (filter (fun e => is_level_up e) events).

(** The fields of [PlayerState] that levelling and buffs read or write;
    inventories, money and the item bonuses are left out.  The observables
    whose payload is the player or one of its mutable members count their
    notifications. *)
Record PlayerState := {
  health_resource : Gauge.HealthOrManaResource;
  mana_resource : Gauge.HealthOrManaResource;
  abilities : list AbilityType;
  ability_cooldowns_remaining : gmap AbilityType Z;
  active_buffs : list Buffs.ref;
  stun_status : Stun.StunStatus;
  exp : Z;
  level : Z;
  max_exp_in_this_level : Z;
  new_level_abilities : gmap Z AbilityType;
  base_physical_damage_modifier : Q;
  base_magic_damage_modifier : Q;
  base_armor : Q;
  level_bonus : PlayerLevelBonus;
  _talents_state : TalentsState;
  talents_were_updated : nat;
  stats_were_updated : nat;
  exp_was_updated : list (Z * Q);
  cooldowns_were_updated : nat;
  buffs_were_updated : list (list Buffs.ref)
}.

(** [PlayerState(...)]: a player of level 1 with no experience. *)
Definition new (health_resource0 mana_resource0 : Gauge.HealthOrManaResource)
    (abilities0 : list AbilityType) (new_level_abilities0 : gmap Z AbilityType)
    (armor0 : Q) (level_bonus0 : PlayerLevelBonus) (talents : TalentsState) : PlayerState :=
  {| health_resource := health_resource0;
     mana_resource := mana_resource0;
     abilities := abilities0;
     ability_cooldowns_remaining := list_to_map ((fun a => (a, 0)) <$> abilities0);
     active_buffs := [];
     stun_status := Stun.new;
     exp := 0;
     level := 1;
     max_exp_in_this_level := 50;
     new_level_abilities := new_level_abilities0;
     base_physical_damage_modifier := 1;
     base_magic_damage_modifier := 1;
     base_armor := armor0;
     level_bonus := level_bonus0;
     _talents_state := talents;
     talents_were_updated := 0%nat;
     stats_were_updated := 0%nat;
     exp_was_updated := [];
     cooldowns_were_updated := 0%nat;
     buffs_were_updated := [] |}.

Definition set_exp_level (exp' level' : Z) (p : PlayerState) : PlayerState :=
  {| health_resource := health_resource p;
     mana_resource := mana_resource p;
     abilities := abilities p;
     ability_cooldowns_remaining := ability_cooldowns_remaining p;
     active_buffs := active_buffs p;
     stun_status := stun_status p;
     exp := exp';
     level := level';
     max_exp_in_this_level := max_exp_in_this_level p;
     new_level_abilities := new_level_abilities p;
     base_physical_damage_modifier := base_physical_damage_modifier p;
     base_magic_damage_modifier := base_magic_damage_modifier p;
     base_armor := base_armor p;
     level_bonus := level_bonus p;
     _talents_state := _talents_state p;
     talents_were_updated := talents_were_updated p;
     stats_were_updated := stats_were_updated p;
     exp_was_updated := exp_was_updated p;
     cooldowns_were_updated := cooldowns_were_updated p;
     buffs_were_updated := buffs_were_updated p |}.

(** [int(self.max_exp_in_this_level * 1.6)], the literal [1.6] taken as
    the rational 16/10. *)
Definition next_max_exp (max_exp : Z) : Z :=
  py_int (fl (inject_Z max_exp * (16 # 10))).

Definition _update_stats_for_new_level (p : PlayerState) : PlayerState :=
  {| health_resource :=
       fst (Gauge.gain_to_max (Gauge.increase_max (health (level_bonus p)) (health_resource p)));
     mana_resource :=
       fst (Gauge.gain_to_max (Gauge.increase_max (mana (level_bonus p)) (mana_resource p)));
     abilities := abilities p;
     ability_cooldowns_remaining := ability_cooldowns_remaining p;
     active_buffs := active_buffs p;
     stun_status := stun_status p;
     exp := exp p;
     level := level p;
     max_exp_in_this_level := next_max_exp (max_exp_in_this_level p);
     new_level_abilities := new_level_abilities p;
     base_physical_damage_modifier := fl (base_physical_damage_modifier p * (11 # 10));
     base_magic_damage_modifier := fl (base_magic_damage_modifier p * (11 # 10));
     base_armor := fl (base_armor p + armor (level_bonus p));
     level_bonus := level_bonus p;
     _talents_state := _talents_state p;
     talents_were_updated := talents_were_updated p;
     stats_were_updated := S (stats_were_updated p);
     exp_was_updated := exp_was_updated p;
     cooldowns_were_updated := cooldowns_were_updated p;
     buffs_were_updated := buffs_were_updated p |}.

Definition gain_ability (ability_type : AbilityType) (p : PlayerState) : PlayerState :=
  {| health_resource := health_resource p;
     mana_resource := mana_resource p;
     abilities := abilities p ++ [ability_type];
     ability_cooldowns_remaining := <[ability_type := 0]> (ability_cooldowns_remaining p);
     active_buffs := active_buffs p;
     stun_status := stun_status p;
     exp := exp p;
     level := level p;
     max_exp_in_this_level := max_exp_in_this_level p;
     new_level_abilities := new_level_abilities p;
     base_physical_damage_modifier := base_physical_damage_modifier p;
     base_magic_damage_modifier := base_magic_damage_modifier p;
     base_armor := base_armor p;
     level_bonus := level_bonus p;
     _talents_state := _talents_state p;
     talents_were_updated := talents_were_updated p;
     stats_were_updated := stats_were_updated p;
     exp_was_updated := exp_was_updated p;
     cooldowns_were_updated := S (cooldowns_were_updated p);
     buffs_were_updated := buffs_were_updated p |}.

(** [self._talents_state.unlock_tier(self.level)] followed by
    [self.notify_talent_observers()]. *)
Definition unlock_talent_tier (p : PlayerState) : PlayerState :=
  {| health_resource := health_resource p;
     mana_resource := mana_resource p;
     abilities := abilities p;
     ability_cooldowns_remaining := ability_cooldowns_remaining p;
     active_buffs := active_buffs p;
     stun_status := stun_status p;
     exp := exp p;
     level := level p;
     max_exp_in_this_level := max_exp_in_this_level p;
     new_level_abilities := new_level_abilities p;
     base_physical_damage_modifier := base_physical_damage_modifier p;
     base_magic_damage_modifier := base_magic_damage_modifier p;
     base_armor := base_armor p;
     level_bonus := level_bonus p;
     _talents_state := unlock_tier (_talents_state p) (level p);
     talents_were_updated := S (talents_were_updated p);
     stats_were_updated := stats_were_updated p;
     exp_was_updated := exp_was_updated p;
     cooldowns_were_updated := cooldowns_were_updated p;
     buffs_were_updated := buffs_were_updated p |}.

(** [self.exp_was_updated.notify((self.level, self.exp / self.max_exp_in_this_level))] *)
Definition notify_exp_observers (p : PlayerState) : result PlayerState :=
  if bool_decide (max_exp_in_this_level p = 0) then Raise ZeroDivisionError
  else
    let ratio := fl (inject_Z (exp p) / inject_Z (max_exp_in_this_level p)) in
    Ok {| health_resource := health_resource p;
          mana_resource := mana_resource p;
          abilities := abilities p;
          ability_cooldowns_remaining := ability_cooldowns_remaining p;
          active_buffs := active_buffs p;
          stun_status := stun_status p;
          exp := exp p;
          level := level p;
          max_exp_in_this_level := max_exp_in_this_level p;
          new_level_abilities := new_level_abilities p;
          base_physical_damage_modifier := base_physical_damage_modifier p;
          base_magic_damage_modifier := base_magic_damage_modifier p;
          base_armor := base_armor p;
          level_bonus := level_bonus p;
          _talents_state := _talents_state p;
          talents_were_updated := talents_were_updated p;
          stats_were_updated := stats_were_updated p;
          exp_was_updated := exp_was_updated p ++ [(level p, ratio)];
          cooldowns_were_updated := cooldowns_were_updated p;
          buffs_were_updated := buffs_were_updated p |}.

(** One pass through the body of [while self.exp >= self.max_exp_in_this_level]. *)
Definition level_up_once (p : PlayerState) (events : list GainExpEvent)
    : PlayerState * list GainExpEvent :=
  let p1 := set_exp_level (exp p - max_exp_in_this_level p) (level p + 1) p in
  let p2 := _update_stats_for_new_level p1 in
  let '(p3, events3) :=
    match new_level_abilities p2 !! level p2 with
    | Some new_ability => (gain_ability new_ability p2, events ++ [PlayerLearnedNewAbility new_ability])
    | None => (p2, events)
    end in
  if has_tier_for_level (_talents_state p3) (level p3)
  then (unlock_talent_tier p3, events3 ++ [PlayerUnlockedNewTalent])
  else (p3, events3).

(** The [while] loop; [None] when [fuel] passes do not bring the
    experience below the threshold. *)
Fixpoint level_up_loop (fuel : nat) (p : PlayerState) (events : list GainExpEvent)
    : option (PlayerState * list GainExpEvent) :=
  if bool_decide (exp p >= max_exp_in_this_level p) then
    match fuel with
    | O => None
    | S fuel' => let '(p', events') := level_up_once p events in level_up_loop fuel' p' events'
    end
  else Some (p, events).

Definition gain_exp (fuel : nat) (amount : Z) (p : PlayerState)
    : option (result (PlayerState * list GainExpEvent)) :=
  let events := [] in
  let p1 := set_exp_level (exp p + amount) (level p) p in
  let events1 :=
    if bool_decide (exp p1 >= max_exp_in_this_level p1) then events ++ [PlayerLeveledUp] else events in
  match level_up_loop fuel p1 events1 with
  | None => None
  | Some (p2, events2) => Some (p3 <- notify_exp_observers p2 ;;; Ok (p3, events2))
  end.

Definition set_active_buffs (active_buffs' : list Buffs.ref) (p : PlayerState) : PlayerState :=
  {| health_resource := health_resource p;
     mana_resource := mana_resource p;
     abilities := abilities p;
     ability_cooldowns_remaining := ability_cooldowns_remaining p;
     active_buffs := active_buffs';
     stun_status := stun_status p;
     exp := exp p;
     level := level p;
     max_exp_in_this_level := max_exp_in_this_level p;
     new_level_abilities := new_level_abilities p;
     base_physical_damage_modifier := base_physical_damage_modifier p;
     base_magic_damage_modifier := base_magic_damage_modifier p;
     base_armor := base_armor p;
     level_bonus := level_bonus p;
     _talents_state := _talents_state p;
     talents_were_updated := talents_were_updated p;
     stats_were_updated := stats_were_updated p;
     exp_was_updated := exp_was_updated p;
     cooldowns_were_updated := cooldowns_were_updated p;
     buffs_were_updated := buffs_were_updated p |}.

(** [self.buffs_were_updated.notify(self.active_buffs)] *)
Definition notify_buff_observers (p : PlayerState) : PlayerState :=
  {| health_resource := health_resource p;
     mana_resource := mana_resource p;
     abilities := abilities p;
     ability_cooldowns_remaining := ability_cooldowns_remaining p;
     active_buffs := active_buffs p;
     stun_status := stun_status p;
     exp := exp p;
     level := level p;
     max_exp_in_this_level := max_exp_in_this_level p;
     new_level_abilities := new_level_abilities p;
     base_physical_damage_modifier := base_physical_damage_modifier p;
     base_magic_damage_modifier := base_magic_damage_modifier p;
     base_armor := base_armor p;
     level_bonus := level_bonus p;
     _talents_state := _talents_state p;
     talents_were_updated := talents_were_updated p;
     stats_were_updated := stats_were_updated p;
     exp_was_updated := exp_was_updated p;
     cooldowns_were_updated := cooldowns_were_updated p;
     buffs_were_updated := buffs_were_updated p ++ [active_buffs p] |}.

(** [PlayerState.gain_buff_effect]: the body of the NPC's method on the
    player's own list, then [notify_buff_observers]. *)
Definition gain_buff_effect (buff : BuffEffect) (duration : Z)
    (s : Buffs.store BuffEffect) (p : PlayerState) : Buffs.store BuffEffect * PlayerState :=
  let '(s', active_buffs') :=
    Buffs.gain_buff_effect get_buff_type buff duration s (active_buffs p) in
  (s', notify_buff_observers (set_active_buffs active_buffs' p)).

(** [PlayerState.handle_buffs]: line for line the loop of the engine's
    [handle_buffs], on the player's own list, then [notify_buff_observers]. *)
Definition handle_buffs (s : Buffs.store BuffEffect) (time_passed : Z) (p : PlayerState)
    : result (Buffs.store BuffEffect * PlayerState * Buffs.AgentBuffsUpdate) :=
  r <- Buffs.handle_buffs s (active_buffs p) time_passed ;;;
  let '(s', active_buffs', u) := r in
  Ok (s', notify_buff_observers (set_active_buffs active_buffs' p), u).

(** [has_active_buff(buff_type)] *)
Definition has_active_buff (buff_type : BuffType) (s : Buffs.store BuffEffect)
    (p : PlayerState) : bool :=
  bool_decide
    (0 < length (filter (fun b => get_buff_type (Buffs.buff_effect (Buffs.objects s b))
                                  = buff_type)
                        (active_buffs p)))%nat.

(** [force_cancel_all_buffs] *)
Definition force_cancel_all_buffs (s : Buffs.store BuffEffect) (p : PlayerState)
    : Buffs.store BuffEffect * PlayerState :=
  (foldl (fun s' b => Buffs.update b (Buffs.force_cancel (Buffs.objects s' b)) s') s
         (active_buffs p),
   notify_buff_observers p).

(** The dictionary of the cooldowns replaced, and the cooldown observers
    notified [notifications] times more. *)
Definition set_cooldowns (cooldowns : gmap AbilityType Z) (notifications : nat)
    (p : PlayerState) : PlayerState :=
  {| health_resource := health_resource p;
     mana_resource := mana_resource p;
     abilities := abilities p;
     ability_cooldowns_remaining := cooldowns;
     active_buffs := active_buffs p;
     stun_status := stun_status p;
     exp := exp p;
     level := level p;
     max_exp_in_this_level := max_exp_in_this_level p;
     new_level_abilities := new_level_abilities p;
     base_physical_damage_modifier := base_physical_damage_modifier p;
     base_magic_damage_modifier := base_magic_damage_modifier p;
     base_armor := base_armor p;
     level_bonus := level_bonus p;
     _talents_state := _talents_state p;
     talents_were_updated := talents_were_updated p;
     stats_were_updated := stats_were_updated p;
     exp_was_updated := exp_was_updated p;
     cooldowns_were_updated := (cooldowns_were_updated p + notifications)%nat;
     buffs_were_updated := buffs_were_updated p |}.

(** [recharge_ability_cooldowns]: the loop changes the values of the
    dictionary it iterates over, not its keys. *)
Definition recharge_ability_cooldowns (time_passed : Z) (p : PlayerState) : PlayerState :=
  let did_update :=
    existsb (fun entry => bool_decide (snd entry > 0))
            (map_to_list (ability_cooldowns_remaining p)) in
  let cooldowns :=
    (fun remaining => if bool_decide (remaining > 0) then remaining - time_passed else remaining)
      <$> ability_cooldowns_remaining p in
  set_cooldowns cooldowns (if did_update then 1 else 0) p.

(** [self.ability_cooldowns_remaining[ability_type] += amount] is a
    [KeyError] for an ability that has no entry. *)
Definition add_to_ability_cooldown (ability_type : AbilityType) (amount : Z)
    (p : PlayerState) : result PlayerState :=
  match ability_cooldowns_remaining p !! ability_type with
  | Some remaining =>
      Ok (set_cooldowns (<[ability_type := remaining + amount]> (ability_cooldowns_remaining p))
            1 p)
  | None => Raise KeyError
  end.

(** [lose_exp_from_death] *)
Definition lose_exp_from_death (p : PlayerState) : result PlayerState :=
  let partial_exp_loss := 1 # 2 in
  let lost := py_int (fl (inject_Z (max_exp_in_this_level p) * partial_exp_loss)) in
  notify_exp_observers (set_exp_level (Z.max 0 (exp p - lost)) (level p) p).

(** The loop of [gain_exp_worth_n_levels], [n] passes of it. *)
Fixpoint gain_exp_repeatedly (fuel n : nat) (p : PlayerState) (events : list GainExpEvent)
    : option (result (PlayerState * list GainExpEvent)) :=
  match n with
  | O => Some (Ok (p, events))
  | S n' =>
      let amount := max_exp_in_this_level p - exp p in
      match gain_exp fuel amount p with
      | None => None
      | Some (Raise e) => Some (Raise e)
      | Some (Ok (p', events')) => gain_exp_repeatedly fuel n' p' (events ++ events')
      end
  end.

(** [gain_exp_worth_n_levels(num_levels)], each call of [gain_exp] with
    [fuel] passes of its loop at most. *)
Definition gain_exp_worth_n_levels (fuel : nat) (num_levels : Z) (p : PlayerState)
    : option (result (PlayerState * list GainExpEvent)) :=
  gain_exp_repeatedly fuel (Z.to_nat num_levels) p [].
End WithContent.
Arguments PlayerState : clear implicits.
Arguments PlayerState AbilityType {_ _} TalentsState.
Arguments GainExpEvent : clear implicits.
End Player.

(** ** pygame.Rect *)

Module Pygame.
(** A [pygame.Rect] holds integers. *)
Record Rect := {
  x : Z;
  y : Z;
  w : Z;
  h : Z
}.

Definition topleft (r : Rect) : Z * Z := (x r, y r).
Definition bottomright (r : Rect) : Z * Z := (x r + w r, y r + h r).
End Pygame.

(** ** Buckets: the uniform grid over the world area *)

Module Buckets.
Section WithEntities.
(** The entities stored ([Any] in the source) and their [get_position()]. *)
Context {E : Type} `{EqDecision E}.
Variable get_position : E -> Z * Z.

Definition _BUCKET_WIDTH : Z := 100.
Definition _BUCKET_HEIGHT : Z := 100.

Record Buckets := {
  _buckets : gmap Z (gmap Z (list E));
  entire_world_area : Pygame.Rect
}.

Definition set_buckets (m : gmap Z (gmap Z (list E))) (b : Buckets) : Buckets :=
  {| _buckets := m; entire_world_area := entire_world_area b |}.

Definition _bucket_index_for_world_position (b : Buckets) (world_position : Z * Z) : Z * Z :=
  let x_bucket := (fst world_position - Pygame.x (entire_world_area b)) / _BUCKET_WIDTH in
  let y_bucket := (snd world_position - Pygame.y (entire_world_area b)) / _BUCKET_HEIGHT in
  (x_bucket, y_bucket).

(** [self._buckets[x_bucket][y_bucket]] *)
Definition bucket_at (b : Buckets) (x_bucket y_bucket : Z) : result (list E) :=
  match _buckets b !! x_bucket with
  | None => Raise KeyError
  | Some column =>
      match column !! y_bucket with
      | None => Raise KeyError
      | Some bucket => Ok bucket
      end
  end.

Definition _bucket_for_world_position (b : Buckets) (world_position : Z * Z) : result (list E) :=
  let '(x_bucket, y_bucket) := _bucket_index_for_world_position b world_position in
  bucket_at b x_bucket y_bucket.

(** The bucket is a list object held by the dictionary: changing it in
    place changes the entry it is stored under. *)
Definition store_bucket (b : Buckets) (world_position : Z * Z) (bucket : list E) : Buckets :=
  let '(x_bucket, y_bucket) := _bucket_index_for_world_position b world_position in
  set_buckets (alter (fun column => <[y_bucket := bucket]> column) x_bucket (_buckets b)) b.

Definition add_entity (entity : E) (b : Buckets) : result Buckets :=
  bucket <- _bucket_for_world_position b (get_position entity) ;;;
  Ok (store_bucket b (get_position entity) (bucket ++ [entity])).

Definition remove_entity (entity : E) (b : Buckets) : result Buckets :=
  bucket <- _bucket_for_world_position b (get_position entity) ;;;
  bucket' <- list_remove entity bucket ;;;
  Ok (store_bucket b (get_position entity) bucket').

Fixpoint add_entities (entities : list E) (b : Buckets) : result Buckets :=
  match entities with
  | [] => Ok b
  | entity :: rest => b' <- add_entity entity b ;;; add_entities rest b'
  end.

(** [Buckets(entities, entire_world_area)] *)
Definition new (entities : list E) (area : Pygame.Rect) : result Buckets :=
  let column :=
    foldl (fun col y_bucket => <[y_bucket := []]> col) (∅ : gmap Z (list E))
          (py_range 0 (Pygame.h area / _BUCKET_HEIGHT + 1)) in
  let buckets :=
    foldl (fun bs x_bucket => <[x_bucket := column]> bs) (∅ : gmap Z (gmap Z (list E)))
          (py_range 0 (Pygame.w area / _BUCKET_WIDTH + 1)) in
  add_entities entities {| _buckets := buckets; entire_world_area := area |}.

(** The inner [for y_bucket in range(...)] of [_buckets_between_indices],
    for one [x_bucket]. *)
Definition buckets_of_column (b : Buckets) (x_bucket y0 y1 : Z) : result (list (list E)) :=
  match _buckets b !! x_bucket with
  | None => Raise KeyError
  | Some column =>
      mapM_result (bucket_at b x_bucket)
        (py_range (Z.max 0 y0) (Z.min (y1 + 1) (Z.of_nat (size column) - 1)))
  end.

(** The generator [_buckets_between_indices], as the list it yields. *)
Definition _buckets_between_indices (b : Buckets) (x0 x1 y0 y1 : Z) : result (list (list E)) :=
  columns <- mapM_result (fun x_bucket => buckets_of_column b x_bucket y0 y1)
               (py_range (Z.max 0 x0) (Z.min (x1 + 1) (Z.of_nat (size (_buckets b)) - 1))) ;;;
  Ok (concat columns).

Definition get_entitites_close_to_world_area (b : Buckets) (world_area : Pygame.Rect)
    : result (list E) :=
  let '(x0_bucket, y0_bucket) := _bucket_index_for_world_position b (Pygame.topleft world_area) in
  let '(x1_bucket, y1_bucket) := _bucket_index_for_world_position b (Pygame.bottomright world_area) in
  buckets <- _buckets_between_indices b (x0_bucket - 1) (x1_bucket + 1) (y0_bucket - 1) (y1_bucket + 1) ;;;
  Ok (concat buckets).

Definition get_entities_close_to_position (b : Buckets) (position : Z * Z) : result (list E) :=
  let '(x_bucket, y_bucket) := _bucket_index_for_world_position b position in
  buckets <- _buckets_between_indices b (x_bucket - 1) (x_bucket + 1) (y_bucket - 1) (y_bucket + 1) ;;;
  Ok (concat buckets).

(** The cell of the grid an entity is stored in, and the cells a query of
    a rectangle is meant to reach: the range covering the rectangle, one
    more cell in each direction, within the grid. *)
Definition columns_of (area : Pygame.Rect) : Z := Pygame.w area / _BUCKET_WIDTH + 1.
Definition rows_of (area : Pygame.Rect) : Z := Pygame.h area / _BUCKET_HEIGHT + 1.

Definition cell_in_grid (area : Pygame.Rect) (cell : Z * Z) : bool :=
  bool_decide (0 <= fst cell < columns_of area) && bool_decide (0 <= snd cell < rows_of area).

Definition cell_in_reach (b : Buckets) (world_area : Pygame.Rect) (cell : Z * Z) : bool :=
  let '(x0_bucket, y0_bucket) := _bucket_index_for_world_position b (Pygame.topleft world_area) in
  let '(x1_bucket, y1_bucket) := _bucket_index_for_world_position b (Pygame.bottomright world_area) in
  bool_decide (x0_bucket - 1 <= fst cell <= x1_bucket + 1) &&
  bool_decide (y0_bucket - 1 <= snd cell <= y1_bucket + 1).

Definition cell_of (b : Buckets) (entity : E) : Z * Z :=
  _bucket_index_for_world_position b (get_position entity).

(** The dictionary as the constructor lays it out: a column for every
    index of the grid and no other, each with a bucket for every row and
    no other. *)
Definition grid_ok (b : Buckets) : Prop :=
  Z.of_nat (size (_buckets b)) = columns_of (entire_world_area b) /\
  forall x_bucket, 0 <= x_bucket < columns_of (entire_world_area b) ->
    exists column,
      _buckets b !! x_bucket = Some column /\
      Z.of_nat (size column) = rows_of (entire_world_area b) /\
      forall y_bucket, 0 <= y_bucket < rows_of (entire_world_area b) ->
        is_Some (column !! y_bucket).

(** Every entity is in the bucket of the cell of its position. *)
Definition in_own_cell (b : Buckets) : Prop :=
  forall x_bucket y_bucket bucket entity,
    bucket_at b x_bucket y_bucket = Ok bucket -> entity ∈ bucket ->
    cell_of b entity = (x_bucket, y_bucket).
End WithEntities.
Arguments Buckets : clear implicits.
End Buckets.

(** ** World entities, the game state and the movement resolver *)

Module World.
Section WithPygame.
Variable fl : Q -> Q.
(** pygame and [pythongame.core.math] are not part of this file: the
    conversion [Rect(x, y, w, h)] of float coordinates, the two collision
    tests of a [Rect] and [translate_in_direction] are parameters. *)
Variable Rect_of : Q -> Q -> Z -> Z -> Pygame.Rect.
Variable colliderect : Pygame.Rect -> Pygame.Rect -> bool.
Variable collidepoint : Pygame.Rect -> Q -> Q -> bool.

Inductive Direction := LEFT | RIGHT | UP | DOWN.

Variable translate_in_direction : Q * Q -> Direction -> Q -> Q * Q.
Variable is_x_and_y_within_distance : Z * Z -> Q * Q -> Z -> bool.

Record WorldEntity := {
  x : Q;
  y : Q;
  w : Z;
  h : Z;
  direction : Direction;
  _speed : Q;
  _speed_multiplier : Q;
  _effective_speed : Q;
  _is_moving : bool;
  pygame_collision_rect : Pygame.Rect;
  movement_animation_progress : Q;
  visible : bool;
  view_z : Z
}.

(** [WorldEntity(pos, size, sprite, direction, speed)] *)
Definition new (pos : Q * Q) (size : Z * Z) (direction0 : Direction) (speed : Q) : WorldEntity :=
  {| x := fst pos;
     y := snd pos;
     w := fst size;
     h := snd size;
     direction := direction0;
     _speed := speed;
     _speed_multiplier := 1;
     _effective_speed := speed;
     _is_moving := true;
     pygame_collision_rect := Rect_of (fst pos) (snd pos) (fst size) (snd size);
     movement_animation_progress := 0;
     visible := true;
     view_z := 0 |}.

Definition get_new_position_according_to_dir_and_speed (time_passed : Z) (e : WorldEntity)
    : option (Q * Q) :=
  let distance := fl (_effective_speed e * inject_Z time_passed) in
  if _is_moving e then Some (translate_in_direction (x e, y e) (direction e) distance)
  else None.

Definition get_position (e : WorldEntity) : Z * Z := (py_int (x e), py_int (y e)).

Definition rect (e : WorldEntity) : Pygame.Rect := pygame_collision_rect e.

Definition set_position (new_position : Q * Q) (e : WorldEntity) : WorldEntity :=
  {| x := fst new_position;
     y := snd new_position;
     w := w e;
     h := h e;
     direction := direction e;
     _speed := _speed e;
     _speed_multiplier := _speed_multiplier e;
     _effective_speed := _effective_speed e;
     _is_moving := _is_moving e;
     pygame_collision_rect := Rect_of (fst new_position) (snd new_position) (w e) (h e);
     movement_animation_progress := movement_animation_progress e;
     visible := visible e;
     view_z := view_z e |}.

(** World entities are shared by reference between the collections of the
    game state ([entity is not other] compares references). *)
Definition ref := nat.

Inductive NpcCategory := ENEMY | NEUTRAL | PLAYER_SUMMON.

Record NonPlayerCharacter := {
  world_entity : ref;
  health_resource : Gauge.HealthOrManaResource;
  active_buffs : list Buffs.ref;
  invulnerable : bool;
  stun_status : Stun.StunStatus;
  npc_category : NpcCategory;
  start_position : Z * Z;
  max_distance_allowed_from_start_position : option Z
}.

Definition set_active_buffs (active_buffs' : list Buffs.ref) (npc : NonPlayerCharacter) :=
  {| world_entity := world_entity npc;
     health_resource := health_resource npc;
     active_buffs := active_buffs';
     invulnerable := invulnerable npc;
     stun_status := stun_status npc;
     npc_category := npc_category npc;
     start_position := start_position npc;
     max_distance_allowed_from_start_position := max_distance_allowed_from_start_position npc |}.

(** [NonPlayerCharacter.gain_buff_effect] *)
Definition gain_buff_effect {BuffType : Type} `{EqDecision BuffType} {BuffEffect : Type}
    (get_buff_type : BuffEffect -> BuffType) (buff : BuffEffect) (duration : Z)
    (s : Buffs.store BuffEffect) (npc : NonPlayerCharacter)
    : Buffs.store BuffEffect * NonPlayerCharacter :=
  let '(s', active_buffs') :=
    Buffs.gain_buff_effect get_buff_type buff duration s (active_buffs npc) in
  (s', set_active_buffs active_buffs' npc).

(** Portals, warp points and chests stand in the way with their world
    entity; walls are indexed by the buckets of [WallsState]. *)
Record Portal := { portal_entity : ref; is_enabled : bool }.
Record WarpPoint := { warp_point_entity : ref }.
Record Chest := { chest_entity : ref; has_been_opened : bool }.

Record GameState := {
  entities : ref -> WorldEntity;
  player_entity : ref;
  non_player_characters : list NonPlayerCharacter;
  entire_world_area : Pygame.Rect;
  walls_buckets : Buckets.Buckets ref;
  portals : list Portal;
  warp_points : list WarpPoint;
  chests : list Chest
}.

Definition set_entity (r : ref) (e : WorldEntity) (gs : GameState) : GameState :=
  {| entities := <[r := e]> (entities gs);
     player_entity := player_entity gs;
     non_player_characters := non_player_characters gs;
     entire_world_area := entire_world_area gs;
     walls_buckets := walls_buckets gs;
     portals := portals gs;
     warp_points := warp_points gs;
     chests := chests gs |}.

(** [entity.set_position(new_position)] on the entity behind a reference. *)
Definition move_entity (entity : ref) (new_position : Q * Q) (gs : GameState) : GameState :=
  set_entity entity (set_position new_position (entities gs entity)) gs.

Definition get_within_world (gs : GameState) (pos : Q * Q) (size : Z * Z) : Q * Q :=
  let area := entire_world_area gs in
  let x' := Qmax (inject_Z (Pygame.x area))
                 (Qmin (inject_Z (Pygame.x area + Pygame.w area - fst size)) (fst pos)) in
  let y' := Qmax (inject_Z (Pygame.y area))
                 (Qmin (inject_Z (Pygame.y area + Pygame.h area - snd size)) (snd pos)) in
  (x', y').

Definition is_position_within_game_world (gs : GameState) (position : Q * Q) : bool :=
  collidepoint (entire_world_area gs) (fst position) (snd position).

Definition _entities_collide (a b : WorldEntity) : bool :=
  colliderect (pygame_collision_rect a) (pygame_collision_rect b).

(** [WallsState.get_walls_close_to_position] *)
Definition get_walls_close_to_position (gs : GameState) (position : Z * Z) : result (list ref) :=
  Buckets.get_entities_close_to_position (walls_buckets gs) position.

(** The list [other_entities] of [would_entity_collide_if_new_pos]. *)
Definition other_entities_of (gs : GameState) (walls : list ref) : list ref :=
  (world_entity <$> non_player_characters gs) ++ [player_entity gs] ++ walls ++
  (portal_entity <$> portals gs) ++ (warp_point_entity <$> warp_points gs) ++
  (chest_entity <$> chests gs).

(** The game state after the call (the entity is moved, then moved back)
    and the value returned.  The message of the exception is given up to
    the rendering of the position. *)
Definition would_entity_collide_if_new_pos (gs : GameState) (entity : ref)
    (new_pos_within_world : Q * Q) : result (GameState * bool) :=
  if negb (is_position_within_game_world gs new_pos_within_world)
  then Raise (Exception "not within game-world: ")
  else
    let old_pos := (x (entities gs entity), y (entities gs entity)) in
    let gs1 := move_entity entity new_pos_within_world gs in
    walls <- get_walls_close_to_position gs1 (get_position (entities gs1 entity)) ;;;
    let other_entities := other_entities_of gs1 walls in
    let colliding :=
      filter (fun other => _entities_collide (entities gs1 entity) (entities gs1 other) = true
                           /\ entity <> other) other_entities in
    let collision := match colliding with [] => false | _ :: _ => true end in
    let gs2 := move_entity entity old_pos gs1 in
    Ok (gs2, collision).

Definition update_world_entity_position_within_game_world (gs : GameState) (entity : ref)
    (time_passed : Z) : result GameState :=
  let e := entities gs entity in
  match get_new_position_according_to_dir_and_speed time_passed e with
  | Some new_position =>
      let new_pos_within_world := get_within_world gs new_position (w e, h e) in
      r <- would_entity_collide_if_new_pos gs entity new_pos_within_world ;;;
      let '(gs', collide) := r in
      if negb collide then Ok (move_entity entity new_pos_within_world gs') else Ok gs'
  | None => Ok gs
  end.

(** The entity is where it was, and so is every other entity. *)
Definition position_kept (gs gs' : GameState) (entity : ref) : Prop :=
  x (entities gs' entity) = x (entities gs entity) /\
  y (entities gs' entity) = y (entities gs entity) /\
  forall r, r <> entity -> entities gs' r = entities gs r.

(** [if npc.max_distance_allowed_from_start_position:] holds for a
    distance that is neither [None] nor zero. *)
Definition update_npc_position_within_game_world (gs : GameState) (npc : NonPlayerCharacter)
    (time_passed : Z) : result GameState :=
  let entity := world_entity npc in
  let e := entities gs entity in
  match get_new_position_according_to_dir_and_speed time_passed e with
  | Some new_position =>
      let too_far :=
        match max_distance_allowed_from_start_position npc with
        | Some distance =>
            if bool_decide (distance = 0) then false
            else
              let is_close_to_start_position :=
                is_x_and_y_within_distance (start_position npc) new_position distance in
              negb is_close_to_start_position
        | None => false
        end in
      if too_far then Ok gs
      else
        let new_pos_within_world := get_within_world gs new_position (w e, h e) in
        r <- would_entity_collide_if_new_pos gs entity new_pos_within_world ;;;
        let '(gs', collide) := r in
        if negb collide then Ok (move_entity entity new_pos_within_world gs') else Ok gs'
  | None => Ok gs
  end.

(** [dirs[self.direction]] on the dictionary of [rotate_right], resp. of
    [rotate_left]. *)
Definition set_direction (d : Direction) (e : WorldEntity) : WorldEntity :=
  {| x := x e;
     y := y e;
     w := w e;
     h := h e;
     direction := d;
     _speed := _speed e;
     _speed_multiplier := _speed_multiplier e;
     _effective_speed := _effective_speed e;
     _is_moving := _is_moving e;
     pygame_collision_rect := pygame_collision_rect e;
     movement_animation_progress := movement_animation_progress e;
     visible := visible e;
     view_z := view_z e |}.

Definition rotate_right (e : WorldEntity) : WorldEntity :=
  set_direction
    match direction e with
    | DOWN => LEFT
    | LEFT => UP
    | UP => RIGHT
    | RIGHT => DOWN
    end e.

Definition rotate_left (e : WorldEntity) : WorldEntity :=
  set_direction
    match direction e with
    | DOWN => RIGHT
    | RIGHT => UP
    | UP => LEFT
    | LEFT => DOWN
    end e.


Definition set_non_player_characters (npcs : list NonPlayerCharacter) (gs : GameState) :=
  {| entities := entities gs;
     player_entity := player_entity gs;
     non_player_characters := npcs;
     entire_world_area := entire_world_area gs;
     walls_buckets := walls_buckets gs;
     portals := portals gs;
     warp_points := warp_points gs;
     chests := chests gs |}.

Definition add_non_player_character (npc : NonPlayerCharacter) (gs : GameState) : GameState :=
  set_non_player_characters (non_player_characters gs ++ [npc]) gs.



Definition is_summon (npc : NonPlayerCharacter) : bool :=
  match npc_category npc with PLAYER_SUMMON => true | _ => false end.

Definition remove_all_player_summons (gs : GameState) : GameState :=
  set_non_player_characters
    (filter (fun npc => negb (is_summon npc)) (non_player_characters gs)) gs.

Definition remove_opened_chests (gs : GameState) : GameState :=
  {| entities := entities gs;
     player_entity := player_entity gs;
     non_player_characters := non_player_characters gs;
     entire_world_area := entire_world_area gs;
     walls_buckets := walls_buckets gs;
     portals := portals gs;
     warp_points := warp_points gs;
     chests := filter (fun c => negb (has_been_opened c)) (chests gs) |}.
End WithPygame.
End World.

(** ** Content to run the core on *)

Module Samples.
(** Exact arithmetic. *)
Definition exact (q : Q) : Q := q.

(** The buff types and abilities that the sources under [game_data]
    mention; a buff effect is one per type. *)
Inductive BuffType :=
| HEALING_OVER_TIME
| DAMAGE_OVER_TIME
| INCREASED_MOVE_SPEED
| INVISIBILITY
| RECOVERING_AFTER_ABILITY.

#[global] Instance BuffType_eq_dec : EqDecision BuffType.
Proof. solve_decision. Defined.

Definition get_buff_type (effect : BuffType) : BuffType := effect.

Inductive AbilityType := SWORD_SLASH | CHARGE | BLOOD_LUST | STOMP.

#[global] Instance AbilityType_eq_dec : EqDecision AbilityType.
Proof. solve_decision. Defined.

Definition AbilityType_code (a : AbilityType) : nat :=
  match a with SWORD_SLASH => 0 | CHARGE => 1 | BLOOD_LUST => 2 | STOMP => 3 end.

Definition AbilityType_of_code (n : nat) : option AbilityType :=
  match n with
  | 0 => Some SWORD_SLASH | 1 => Some CHARGE | 2 => Some BLOOD_LUST | 3 => Some STOMP
  | _ => None
  end%nat.

#[global] Instance AbilityType_countable : Countable AbilityType.
Proof.
  apply (inj_countable AbilityType_code AbilityType_of_code).
  intros []; reflexivity.
Defined.

(** Talents: the levels that have a tier, and the tiers unlocked so far. *)
Record TalentsState := {
  tier_levels : list Z;
  unlocked : list Z
}.

Definition has_tier_for_level (t : TalentsState) (level : Z) : bool :=
  bool_decide (level ∈ tier_levels t).

Definition unlock_tier (t : TalentsState) (level : Z) : TalentsState :=
  {| tier_levels := tier_levels t; unlocked := unlocked t ++ [level] |}.

(** The warrior of [hero_warrior.py]: 60 health, 30 mana with a regen of
    2, armor 3, and per level 15 health, 5 mana and 1.5 armor. *)
Definition warrior : Player.PlayerState AbilityType TalentsState :=
  Player.new (Gauge.new 60 0) (Gauge.new 30 2) [SWORD_SLASH]
    (<[2 := CHARGE]> (<[5 := BLOOD_LUST]> (<[7 := STOMP]> ∅)))
    3 {| Player.health := 15; Player.mana := 5; Player.armor := 3 # 2 |}
    {| tier_levels := [3; 4; 5; 6; 7]; unlocked := [] |}.

(** A store whose objects are all fresh buffs of one effect and duration. *)
Definition store_of (effect : BuffType) (duration : option Z) (n : nat) : Buffs.store BuffType :=
  {| Buffs.objects := fun _ => Buffs.new effect duration; Buffs.next_ref := n |}.

(** Decorations of a world of 250 by 250 units, by reference: the first
    stands at (220, 220), the others at (120, 130). *)
Definition small_world : Pygame.Rect :=
  {| Pygame.x := 0; Pygame.y := 0; Pygame.w := 250; Pygame.h := 250 |}.

Definition decoration_position (r : nat) : Z * Z :=
  match r with
  | O => (220, 220)
  | _ => (120, 130)
  end.

(** The buckets of a world without walls. *)
Definition no_walls : Buckets.Buckets nat :=
  match Buckets.new decoration_position [] small_world with
  | Ok b => b
  | Raise _ => {| Buckets._buckets := ∅; Buckets.entire_world_area := small_world |}
  end.

(** pygame on integer-valued coordinates: [Rect] truncates, and the
    collision tests are those of half-open rectangles. *)
Definition Rect_of (x y : Q) (w h : Z) : Pygame.Rect :=
  {| Pygame.x := py_int x; Pygame.y := py_int y; Pygame.w := w; Pygame.h := h |}.

Definition colliderect (a b : Pygame.Rect) : bool :=
  bool_decide (Pygame.x a < Pygame.x b + Pygame.w b) &&
  bool_decide (Pygame.x b < Pygame.x a + Pygame.w a) &&
  bool_decide (Pygame.y a < Pygame.y b + Pygame.h b) &&
  bool_decide (Pygame.y b < Pygame.y a + Pygame.h a).

Definition collidepoint (r : Pygame.Rect) (px py : Q) : bool :=
  Qle_bool (inject_Z (Pygame.x r)) px &&
  negb (Qle_bool (inject_Z (Pygame.x r + Pygame.w r)) px) &&
  Qle_bool (inject_Z (Pygame.y r)) py &&
  negb (Qle_bool (inject_Z (Pygame.y r + Pygame.h r)) py).

(** Movement along the axes. *)
Definition translate_in_direction (pos : Q * Q) (d : World.Direction) (distance : Q) : Q * Q :=
  match d with
  | World.LEFT => (fst pos - distance, snd pos)
  | World.RIGHT => (fst pos + distance, snd pos)
  | World.UP => (fst pos, snd pos - distance)
  | World.DOWN => (fst pos, snd pos + distance)
  end%Q.

(** Both coordinates are within the distance. *)
Definition is_x_and_y_within_distance (a : Z * Z) (b : Q * Q) (distance : Z) : bool :=
  Qle_bool (Qabs (inject_Z (fst a) - fst b)) (inject_Z distance) &&
  Qle_bool (Qabs (inject_Z (snd a) - snd b)) (inject_Z distance).

(** A player of 20 by 20 units at (10, 10) walking to the right at one
    unit per millisecond, and an enemy of the same size standing at
    (30, 10), in a world without walls. *)
Definition walker : World.WorldEntity :=
  World.new Rect_of (10, 10)%Q (20, 20) World.RIGHT 1.

Definition bystander : World.WorldEntity :=
  World.set_position Rect_of (30, 10)%Q
    {| World.x := 30; World.y := 10; World.w := 20; World.h := 20;
       World.direction := World.LEFT; World._speed := 0; World._speed_multiplier := 1;
       World._effective_speed := 0; World._is_moving := false;
       World.pygame_collision_rect := Rect_of 30 10 20 20;
       World.movement_animation_progress := 0; World.visible := true; World.view_z := 0 |}.

Definition two_in_a_room : World.GameState :=
  {| World.entities := fun r => match r with O => walker | _ => bystander end;
     World.player_entity := 0%nat;
     World.non_player_characters :=
       [{| World.world_entity := 1%nat;
           World.health_resource := Gauge.new 10 0;
           World.active_buffs := [];
           World.invulnerable := false;
           World.stun_status := Stun.new;
           World.npc_category := World.ENEMY;
           World.start_position := (30, 10);
           World.max_distance_allowed_from_start_position := None |}];
     World.entire_world_area := small_world;
     World.walls_buckets := no_walls;
     World.portals := [];
     World.warp_points := [];
     World.chests := [] |}.

(** The same room with the enemy out of the way, at (200, 200), and the
    walker seen as an NPC on a leash of 3 units from (10, 10). *)
Definition open_room : World.GameState :=
  {| World.entities :=
       fun r => match r with
                | O => walker
                | _ => World.set_position Rect_of (200, 200)%Q bystander
                end;
     World.player_entity := 0%nat;
     World.non_player_characters := World.non_player_characters two_in_a_room;
     World.entire_world_area := small_world;
     World.walls_buckets := no_walls;
     World.portals := [];
     World.warp_points := [];
     World.chests := [] |}.

(** A room with one wall of 25 by 25 units at ([wall_x], 10), indexed by
    the buckets as [WallsState] does, and a player of 20 by 20 units at
    ([player_x], 10) walking to the right at one unit per millisecond. *)
Definition room_with_wall (player_x wall_x : Q) : World.GameState :=
  let entities := fun r : nat =>
    match r with
    | O => World.new Rect_of (player_x, 10)%Q (20, 20) World.RIGHT 1
    | _ => World.new Rect_of (wall_x, 10)%Q (25, 25) World.LEFT 0
    end in
  {| World.entities := entities;
     World.player_entity := 0%nat;
     World.non_player_characters := [];
     World.entire_world_area := small_world;
     World.walls_buckets :=
       match Buckets.new (fun r => World.get_position (entities r)) [1%nat] small_world with
       | Ok b => b
       | Raise _ => no_walls
       end;
     World.portals := [];
     World.warp_points := [];
     World.chests := [] |}.

(** The buckets of the two decorations of the world. *)
Definition decorated : Buckets.Buckets nat :=
  match Buckets.new decoration_position [0%nat; 1%nat] small_world with
  | Ok b => b
  | Raise _ => no_walls
  end.

Definition leashed_walker : World.NonPlayerCharacter :=
  {| World.world_entity := 0%nat;
     World.health_resource := Gauge.new 10 0;
     World.active_buffs := [];
     World.invulnerable := false;
     World.stun_status := Stun.new;
     World.npc_category := World.NEUTRAL;
     World.start_position := (10, 10);
     World.max_distance_allowed_from_start_position := Some 3 |}.
End Samples.

(** * Properties *)

(** ** Facts on [Qfloor] *)

Lemma floor_above (k : Z) (q : Q) : (inject_Z k <= q)%Q -> k <= Qfloor q.
Proof.
  intros Hk. rewrite <- (Qfloor_Z k). now apply Qfloor_resp_le.
Qed.

Lemma floor_below (k : Z) (q : Q) : (q < inject_Z k)%Q -> Qfloor q < k.
Proof.
  intros Hk. rewrite Zlt_Qlt.
  eapply Qle_lt_trans; [apply Qfloor_le | exact Hk].
Qed.

Lemma floor_unique (k : Z) (q : Q) :
  (inject_Z k <= q)%Q -> (q < inject_Z k + 1)%Q -> Qfloor q = k.
Proof.
  intros Hlo Hhi.
  assert (k <= Qfloor q) by now apply floor_above.
  assert (Qfloor q < k + 1); [|lia].
  apply floor_below. now rewrite inject_Z_plus.
Qed.

Lemma floor_near_above (k : Z) (q : Q) : (inject_Z k - 1 <= q)%Q -> k - 1 <= Qfloor q.
Proof.
  intros Hk. apply floor_above. unfold Z.sub. rewrite inject_Z_plus.
  change (inject_Z (- (1))) with (- (1))%Q. lra.
Qed.

Lemma floor_near_below (k : Z) (q : Q) : (q < inject_Z k + 2)%Q -> Qfloor q <= k + 1.
Proof.
  intros Hk. assert (Qfloor q < k + 2); [|lia].
  apply floor_below. rewrite inject_Z_plus. exact Hk.
Qed.

Lemma floor_min_le (q : Q) (m : Z) : Qfloor (Qmin q (inject_Z m)) <= m.
Proof.
  rewrite <- (Qfloor_Z m) at 2. apply Qfloor_resp_le, Q.le_min_r.
Qed.

(** ** The gauge *)

Module GaugeProps.
Import Gauge.

Section WithRounding.
Variable fl : Q -> Q.

Lemma perform_keeps_below_max (c : call) (g : HealthOrManaResource) :
  grows c -> value g <= max_value g ->
  value (perform fl g c) <= max_value (perform fl g c).
Proof.
  destruct c as [a|a|a|a]; simpl; intros Hc Hg.
  - apply floor_min_le.
  - apply floor_min_le.
  - lia.
  - unfold decrease_max. case_bool_decide as Hd; cbn in *.
    + rewrite Z.div_1_r. lia.
    + lia.
Qed.

Lemma perform_keeps_above_zero (c : call) (calls : list call) (g : HealthOrManaResource) :
  within_means fl (c :: calls) g = true ->
  0 <= value g -> 0 <= max_value g ->
  0 <= value (perform fl g c) /\ 0 <= max_value (perform fl g c).
Proof.
  simpl. intros [Hc _]%andb_prop Hv Hm.
  assert (Hmin : forall q, Qle_bool 0 q = true ->
            0 <= Qfloor (Qmin q (inject_Z (max_value g)))).
  { intros q Hq%Qle_bool_iff. apply floor_above.
    apply Q.min_glb; [exact Hq|]. now rewrite <- Zle_Qle. }
  destruct c as [a|a|a|a]; simpl.
  - split; [now apply Hmin | exact Hm].
  - split; [now apply Hmin | exact Hm].
  - apply bool_decide_eq_true in Hc. lia.
  - apply bool_decide_eq_true in Hc.
    unfold decrease_max. case_bool_decide as Hd; cbn in *.
    + rewrite Z.div_1_r. lia.
    + lia.
Qed.
End WithRounding.

(** C1, as the code has it.  After any sequence of [gain], [lose],
    [increase_max] and [decrease_max] calls, whatever the amounts and the
    rounding, provided [increase_max] is only given amounts that are not
    negative, the integer snapshot is at most the maximum.  It is not
    negative either as long as no call of the sequence takes the
    accumulator or the maximum below zero; the gauge itself never clamps
    at zero. *)
Theorem value_at_most_max (fl : Q -> Q) (calls : list call) (g : HealthOrManaResource) :
  value g <= max_value g ->
  Forall grows calls ->
  value (perform_all fl calls g) <= max_value (perform_all fl calls g) /\
  (0 <= value g -> 0 <= max_value g -> within_means fl calls g = true ->
   0 <= value (perform_all fl calls g)).
Proof.
  revert g. induction calls as [|c calls IH]; intros g Hg Hcalls.
  - simpl. split; [exact Hg | auto].
  - apply Forall_cons in Hcalls as [Hc Hcalls].
    pose proof (perform_keeps_below_max fl c g Hc Hg) as Hg'.
    destruct (IH (perform fl g c) Hg' Hcalls) as [IHmax IHzero].
    split; [exact IHmax|].
    intros Hv Hm Hw.
    destruct (perform_keeps_above_zero fl c calls g Hw Hv Hm) as [Hv' Hm'].
    apply IHzero; [exact Hv' | exact Hm' |].
    simpl in Hw. now apply andb_prop in Hw as [_ Hw].
Qed.

Lemma value_at_most_max_witness :
  let calls := [Lose 3; Gain (1 # 2); IncreaseMax 5; DecreaseMax 12; Gain 20] in
  let g := perform_all (fun q => q) calls (new 10 0) in
  value g <= max_value g /\ 0 <= value g.
Proof.
  intros calls g.
  destruct (value_at_most_max (fun q => q) calls (new 10 0)) as [Hmax Hzero].
  - simpl. lia.
  - repeat constructor; simpl; lia.
  - split; [exact Hmax|]. apply Hzero; [simpl; lia | simpl; lia | reflexivity].
Defined.

(** C1 as stated fails: losing more than the gauge holds leaves a negative
    value. *)
Lemma lose_goes_below_zero :
  let g := perform_all (fun q => q) [Lose 20] (new 10 0) in
  value g = -10 /\ ~ (0 <= value g <= max_value g).
Proof.
  split; [reflexivity|]. vm_compute. intros [H _]. now apply H.
Qed.


(** The snapshot of a gauge stays the floor of its accumulator: the two
    conditions on the gauge below hold of every gauge that the constructor
    and the four mutators produce. *)
Lemma perform_keeps_floor (fl : Q -> Q) (c : call) (g : HealthOrManaResource) :
  value g = Qfloor (_value_float g) ->
  value (perform fl g c) = Qfloor (_value_float (perform fl g c)).
Proof.
  intros Hg. destruct c as [a|a|a|a]; try reflexivity; try exact Hg.
  unfold perform, decrease_max. case_bool_decide; [reflexivity | exact Hg].
Qed.
Lemma lose_then_gain_bounds (fl : Q -> Q) (g : HealthOrManaResource) (amount : Q) :
  let m := inject_Z (max_value g) in
  let f1 := fl (_value_float g - amount)%Q in
  let f2 := fl (Qmin f1 m + amount)%Q in
  _value_float (fst (gain fl amount (fst (lose fl amount g)))) = Qmin f2 m /\
  value (fst (gain fl amount (fst (lose fl amount g)))) = Qfloor (Qmin f2 m).
Proof. split; reflexivity. Qed.

(** C7.  On a gauge whose snapshot is the floor of its accumulator and at
    most its maximum, [lose(amount)] then [gain(amount)] with an amount
    that is not negative (however it compares to the headroom) brings the
    snapshot back to within one unit of its prior value when each of the
    two floating operations is rounded by at most one half, and exactly to
    its prior value when the two operations are exact. *)
Theorem lose_then_gain_restores_value (fl : Q -> Q) (g : HealthOrManaResource) (amount : Q) :
  value g = Qfloor (_value_float g) ->
  value g <= max_value g ->
  (0 <= amount)%Q ->
  let g1 := fst (lose fl amount g) in
  let g2 := fst (gain fl amount g1) in
  (within_half fl (_value_float g - amount)%Q ->
   within_half fl (_value_float g1 + amount)%Q ->
   -1 <= value g2 - value g <= 1) /\
  (fl (_value_float g - amount) == _value_float g - amount ->
   fl (_value_float g1 + amount) == _value_float g1 + amount ->
   value g2 = value g)%Q.
Proof.
  intros Hfloor Hmax Ha g1 g2.
  destruct (lose_then_gain_bounds fl g amount) as [_ Hv2].
  fold g1 g2 in Hv2. rewrite Hv2, Hfloor. clear Hv2.
  assert (Hvf1 : _value_float g1 =
                 Qmin (fl (_value_float g - amount)%Q) (inject_Z (max_value g))) by reflexivity.
  rewrite Hvf1. clear Hvf1 g1 g2. unfold within_half.
  set (vf := _value_float g) in *.
  set (m := inject_Z (max_value g)).
  assert (Hlo : (inject_Z (Qfloor vf) <= vf)%Q) by apply Qfloor_le.
  assert (Hhi : (vf < inject_Z (Qfloor vf) + 1)%Q).
  { rewrite <- (inject_Z_plus _ 1). apply Qlt_floor. }
  assert (Hm : (inject_Z (Qfloor vf) <= m)%Q).
  { unfold m. rewrite <- Zle_Qle. lia. }
  clearbody m vf. clear Hfloor Hmax.
  set (v := Qfloor vf) in *. clearbody v.
  set (f1 := fl (vf - amount)%Q) in *. clearbody f1.
  destruct (Q.min_spec f1 m) as [[H1 E1]|[H1 E1]];
    set (vf1 := Qmin f1 m) in *; clearbody vf1;
    set (f2 := fl (vf1 + amount)%Q) in *; clearbody f2;
    destruct (Q.min_spec f2 m) as [[H2 E2]|[H2 E2]];
    set (vf2 := Qmin f2 m) in *; clearbody vf2.
  all: split; [intros [W1 W1'] [W2 W2'] | intros X1 X2].
  all: try (apply floor_unique; lra).
  all: assert (v - 1 <= Qfloor vf2) by (apply floor_near_above; lra).
  all: assert (Qfloor vf2 <= v + 1) by (apply floor_near_below; lra).
  all: lia.
Qed.

Lemma lose_then_gain_restores_value_witness :
  let g := fst (lose (fun q => q) (7 # 2) (new 10 0)) in
  value (fst (gain (fun q => q) (9 # 4) (fst (lose (fun q => q) (9 # 4) g)))) = value g.
Proof.
  intros g.
  apply (lose_then_gain_restores_value (fun q => q) g (9 # 4)).
  - reflexivity.
  - vm_compute. discriminate.
  - vm_compute. discriminate.
  - reflexivity.
  - reflexivity.
Defined.

(** C7 as stated fails: an amount below zero is no greater than the
    headroom of any gauge, and on a full gauge of 10 [lose(-5)] is cut off
    at the maximum, so that [gain(-5)] then leaves 5, with exact
    operations. *)
Lemma negative_amount_is_not_restored :
  let g := new 10 0 in
  let amount := (-5 # 1)%Q in
  let g2 := fst (gain (fun q => q) amount (fst (lose (fun q => q) amount g))) in
  (amount <= inject_Z (max_value g - value g))%Q /\
  value g = 10 /\
  value g2 = 5 /\
  ~ (-1 <= value g2 - value g <= 1).
Proof.
  cbv zeta. split; [vm_compute; discriminate|].
  split; [reflexivity|]. split; [reflexivity|].
  vm_compute. intros [Hlow _]. now apply Hlow.
Qed.
End GaugeProps.

(** ** The stun counter *)

Module StunProps.
Import Stun.

Lemma add_many_counts (n : nat) (s : StunStatus) :
  _number_of_active_stuns (add_many n s) = _number_of_active_stuns s + Z.of_nat n.
Proof.
  unfold add_many. induction n as [|n IH].
  - simpl. lia.
  - rewrite Nat.iter_succ. unfold add_one at 1. simpl _number_of_active_stuns.
    rewrite IH. lia.
Qed.

Lemma remove_many_counts (n : nat) (s : StunStatus) :
  Z.of_nat n <= _number_of_active_stuns s ->
  remove_many n s = Ok {| _number_of_active_stuns := _number_of_active_stuns s - Z.of_nat n |}.
Proof.
  revert s. induction n as [|n IH]; intros [c] Hn; simpl in *.
  - do 2 f_equal. lia.
  - unfold remove_one. simpl. rewrite bool_decide_eq_false_2 by lia. simpl.
    rewrite IH by (simpl; lia). simpl. do 2 f_equal. lia.
Qed.

(** C9.  For every [N], a fresh [StunStatus] that receives [N] calls of
    [add_one] and then [N] calls of [remove_one] goes through all of them
    without an exception and reports [is_stunned() = False]; one more
    [remove_one] raises. *)
Theorem adds_then_removes (N : nat) :
  exists s : StunStatus,
    remove_many N (add_many N new) = Ok s /\
    is_stunned s = false /\
    exists message, remove_one s = Raise (Exception message).
Proof.
  exists {| _number_of_active_stuns := 0 |}. split; [|split].
  - rewrite remove_many_counts; rewrite add_many_counts; simpl; [|lia].
    do 2 f_equal. lia.
  - reflexivity.
  - eexists. reflexivity.
Qed.

(** The exception is the only way the counter meets a negative number:
    whenever [remove_one] returns, the counter it leaves is not negative. *)
Lemma remove_one_never_negative (s s' : StunStatus) :
  remove_one s = Ok s' -> 0 <= _number_of_active_stuns s'.
Proof.
  unfold remove_one. case_bool_decide; [discriminate|].
  intros [= <-]. simpl. lia.
Qed.
End StunProps.

(** ** Facts on [list_remove] and [filter] *)

Lemma list_remove_elem {A} `{EqDecision A} (x : A) (l : list A) :
  x ∈ l -> exists l', list_remove x l = Ok l'.
Proof.
  induction l as [|y l IH]; intros Hx.
  - now apply not_elem_of_nil in Hx.
  - simpl. destruct (decide (y = x)) as [->|Hne]; [now eexists|].
    apply elem_of_cons in Hx as [->|Hx]; [congruence|].
    destruct (IH Hx) as [l' ->]. now eexists.
Qed.

Lemma list_remove_perm {A} `{EqDecision A} (x : A) (l l' : list A) :
  list_remove x l = Ok l' -> l ≡ₚ x :: l'.
Proof.
  revert l'. induction l as [|y l IH]; intros l'; simpl; [discriminate|].
  destruct (decide (y = x)) as [->|Hne]; [now intros [= ->]|].
  destruct (list_remove x l) as [l''|e]; simpl; [|discriminate].
  intros [= <-]. rewrite (IH l'' eq_refl). apply Permutation_swap.
Qed.

Lemma filter_other_absent {A} `{EqDecision A} (x : A) (l : list A) :
  x ∉ l -> filter (fun y => y <> x) l = l.
Proof.
  induction l as [|z l IH]; intros Hx; [reflexivity|].
  apply not_elem_of_cons in Hx as [Hz Hx].
  rewrite filter_cons_True by congruence. f_equal. now apply IH.
Qed.

Lemma list_remove_NoDup {A} `{EqDecision A} (x : A) (l : list A) :
  NoDup l -> x ∈ l -> list_remove x l = Ok (filter (fun y => y <> x) l).
Proof.
  induction l as [|y l IH]; intros Hl Hx.
  - now apply not_elem_of_nil in Hx.
  - apply NoDup_cons in Hl as [Hy Hl]. simpl.
    destruct (decide (y = x)) as [->|Hne].
    + rewrite filter_cons_False by tauto. f_equal.
      symmetry. now apply filter_other_absent.
    + apply elem_of_cons in Hx as [->|Hx]; [congruence|].
      rewrite (IH Hl Hx). simpl. now rewrite filter_cons_True.
Qed.

Lemma filter_all {A} (P : A -> Prop) `{forall x, Decision (P x)} (l : list A) :
  (forall x, x ∈ l -> P x) -> filter P l = l.
Proof.
  induction l as [|y l IH]; intros Hp; [reflexivity|].
  rewrite filter_cons_True by (apply Hp; left).
  f_equal. apply IH. intros x Hx. apply Hp. now right.
Qed.

Lemma filter_ext_elem {A} (P Q : A -> Prop) `{forall x, Decision (P x)}
    `{forall x, Decision (Q x)} (l : list A) :
  (forall x, x ∈ l -> P x <-> Q x) -> filter P l = filter Q l.
Proof.
  induction l as [|y l IH]; intros Hpq; [reflexivity|].
  rewrite !filter_cons.
  rewrite IH by (intros x Hx; apply Hpq; now right).
  destruct (decide (P y)) as [Hp|Hp], (decide (Q y)) as [Hq|Hq]; try reflexivity.
  - exfalso. apply Hq, (Hpq y); [left|exact Hp].
  - exfalso. apply Hp, (Hpq y); [left|exact Hq].
Qed.

(** ** The buff lifecycle engine *)

Module BuffProps.
Import Buffs.

Section WithEffects.
Context {BuffEffect : Type}.
Implicit Types (b : BuffWithDuration BuffEffect) (s : store BuffEffect).
Implicit Types (st : loop_state BuffEffect) (r : ref).

Lemma ticked_started (time_passed t : Z) b :
  _time_until_expiration b = Some t ->
  has_applied_start_effect b = true ->
  set_time (Some (t - time_passed)) b = ticked time_passed b.
Proof.
  destruct b as [e tm c tot st0]. simpl. intros -> ->. reflexivity.
Qed.

Lemma ticked_timed (time_passed : Z) b : timed b -> timed (ticked time_passed b).
Proof.
  unfold timed. destruct b as [e [t|] c tot st0]; simpl; congruence.
Qed.

(** One iteration on a buff with a duration that is still in the list. *)
Lemma handle_buff_timed (time_passed : Z) st r :
  timed (objects (the_store st) r) ->
  r ∈ the_active_buffs st ->
  let b := objects (the_store st) r in
  exists st1,
    handle_buff time_passed st r = Ok st1 /\
    (forall x, objects (the_store st1) x =
               if decide (x = r) then ticked time_passed b else objects (the_store st) x) /\
    next_ref (the_store st1) = next_ref (the_store st) /\
    (if ends time_passed b
     then list_remove r (the_active_buffs st) = Ok (the_active_buffs st1)
     else the_active_buffs st1 = the_active_buffs st) /\
    started st1 = started st ++ (if starts b then [r] else []) /\
    were_active st1 = were_active st ++ (if is_active b then [r] else []) /\
    ended st1 = ended st ++ (if ends time_passed b then [r] else []).
Proof.
  intros Ht Hr b. unfold timed in Ht. fold b in Ht.
  destruct (_time_until_expiration b) as [t|] eqn:Et; [clear Ht|congruence].
  destruct (list_remove_elem r _ Hr) as [active1 Hrm].
  unfold handle_buff, notify_time_passed. fold b. rewrite Et. simpl.
  unfold ends, starts, is_active. rewrite Et.
  destruct (has_applied_start_effect b) eqn:Es; simpl.
  - case_bool_decide as Hexp; simpl.
    + rewrite Hrm. simpl. eexists. split; [reflexivity|]. simpl.
      repeat split.
      * intros x. unfold insert, fn_insert. destruct (decide (r = x)) as [->|Hne].
        -- rewrite decide_True by reflexivity. now apply ticked_started.
        -- rewrite decide_False by congruence. reflexivity.
      * rewrite app_nil_r. reflexivity.
      * destruct (has_been_force_cancelled b); simpl; [now rewrite app_nil_r | reflexivity].
    + eexists. split; [reflexivity|]. simpl.
      repeat split.
      * intros x. unfold insert, fn_insert. destruct (decide (r = x)) as [->|Hne].
        -- rewrite decide_True by reflexivity. now apply ticked_started.
        -- rewrite decide_False by congruence. reflexivity.
      * rewrite app_nil_r. reflexivity.
      * destruct (has_been_force_cancelled b); simpl; [now rewrite app_nil_r | reflexivity].
      * rewrite app_nil_r. reflexivity.
  - eexists. split; [reflexivity|]. simpl.
    repeat split.
    + intros x. unfold insert, fn_insert. destruct (decide (r = x)) as [->|Hne].
      * rewrite decide_True by reflexivity.
        destruct b as [e tm c tot st0]. simpl in *. subst. reflexivity.
      * rewrite decide_False by congruence. reflexivity.
    + destruct (has_been_force_cancelled b); simpl; [now rewrite app_nil_r | reflexivity].
    + rewrite app_nil_r. reflexivity.
Qed.

(** A buff whose remaining duration is [None] stops the loop at once. *)
Lemma handle_buff_untimed (time_passed : Z) st r :
  ~ timed (objects (the_store st) r) ->
  handle_buff time_passed st r = Raise TypeError.
Proof.
  unfold timed, handle_buff, notify_time_passed.
  destruct (_time_until_expiration (objects (the_store st) r)); [|reflexivity].
  intros Hn. exfalso. apply Hn. discriminate.
Qed.

(** The copied list is, at every iteration, a sub-multiset of the list
    [remove] acts on: [remove] always finds the buff it is given. *)
Lemma handle_buff_keeps_rest (time_passed : Z) st st1 r (rest : list ref) :
  handle_buff time_passed st r = Ok st1 ->
  timed (objects (the_store st) r) ->
  r :: rest ⊆+ the_active_buffs st ->
  rest ⊆+ the_active_buffs st1.
Proof.
  intros Hst1 Ht Hsub.
  assert (Hr : r ∈ the_active_buffs st).
  { eapply elem_of_submseteq; [left | exact Hsub]. }
  destruct (handle_buff_timed time_passed st r Ht Hr) as (st1' & Heq & _ & _ & Hact & _).
  rewrite Hst1 in Heq. injection Heq as <-.
  destruct (ends time_passed (objects (the_store st) r)).
  - apply list_remove_perm in Hact. rewrite Hact in Hsub.
    now apply (submseteq_app_inv_l _ _ [r]).
  - rewrite Hact. transitivity (r :: rest); [|exact Hsub].
    apply submseteq_cons. reflexivity.
Qed.

Lemma handle_each_ok (time_passed : Z) (todo : list ref) st :
  todo ⊆+ the_active_buffs st ->
  (forall r, r ∈ todo -> timed (objects (the_store st) r)) ->
  exists st', handle_each time_passed todo st = Ok st'.
Proof.
  revert st. induction todo as [|r rest IH]; intros st Hsub Ht; simpl.
  - now eexists.
  - assert (Hr : r ∈ the_active_buffs st).
    { eapply elem_of_submseteq; [left | exact Hsub]. }
    assert (Htr : timed (objects (the_store st) r)) by (apply Ht; left).
    destruct (handle_buff_timed time_passed st r Htr Hr) as (st1 & Heq & Hobj & _).
    rewrite Heq. simpl. apply IH.
    + eapply handle_buff_keeps_rest; eauto.
    + intros x Hx. rewrite Hobj. case_decide as Hxr.
      * now apply ticked_timed.
      * apply Ht. now right.
Qed.

Lemma handle_each_type_error (time_passed : Z) (todo : list ref) st r :
  todo ⊆+ the_active_buffs st ->
  r ∈ todo -> ~ timed (objects (the_store st) r) ->
  handle_each time_passed todo st = Raise TypeError.
Proof.
  revert st. induction todo as [|r0 rest IH]; intros st Hsub Hr Hn; simpl.
  - now apply not_elem_of_nil in Hr.
  - destruct (decide (timed (objects (the_store st) r0))) as [Ht0|Hn0].
    + assert (Hr0 : r0 ∈ the_active_buffs st).
      { eapply elem_of_submseteq; [left | exact Hsub]. }
      destruct (handle_buff_timed time_passed st r0 Ht0 Hr0) as (st1 & Heq & Hobj & _).
      rewrite Heq. simpl.
      assert (Hne : r <> r0) by (intros ->; contradiction).
      apply IH.
      * eapply handle_buff_keeps_rest; eauto.
      * apply elem_of_cons in Hr as [?|Hr]; [contradiction | exact Hr].
      * rewrite Hobj. now rewrite decide_False.
    + now rewrite handle_buff_untimed.
Qed.
Lemma filter_cons_bool (f : ref -> bool) (r : ref) (l : list ref) :
  filter (fun x => f x) (r :: l) = (if f r then [r] else []) ++ filter (fun x => f x) l.
Proof.
  rewrite filter_cons. destruct (f r); simpl; reflexivity.
Qed.

(** The loop over a list without repetition, in closed form: every buff
    is ticked once, and is listed according to its state before the call. *)
Lemma handle_each_spec (time_passed : Z) (todo : list ref) st :
  NoDup todo ->
  NoDup (the_active_buffs st) ->
  (forall r, r ∈ todo -> r ∈ the_active_buffs st) ->
  (forall r, r ∈ todo -> timed (objects (the_store st) r)) ->
  exists st',
    handle_each time_passed todo st = Ok st' /\
    (forall x, objects (the_store st') x =
               if decide (x ∈ todo) then ticked time_passed (objects (the_store st) x)
               else objects (the_store st) x) /\
    next_ref (the_store st') = next_ref (the_store st) /\
    the_active_buffs st' =
      filter (fun x => ~ (x ∈ todo /\ ends time_passed (objects (the_store st) x)))
             (the_active_buffs st) /\
    started st' = started st ++ filter (fun x => starts (objects (the_store st) x)) todo /\
    were_active st' = were_active st ++ filter (fun x => is_active (objects (the_store st) x)) todo /\
    ended st' = ended st ++ filter (fun x => ends time_passed (objects (the_store st) x)) todo.
Proof.
  revert st. induction todo as [|r rest IH]; intros st Hnd Hact Hin Ht.
  - eexists. split; [reflexivity|]. split; [|split; [|split; [|split; [|split]]]].
    + intros x. rewrite decide_False by apply not_elem_of_nil. reflexivity.
    + reflexivity.
    + symmetry. apply filter_all. intros x _ [Hx _]. now apply not_elem_of_nil in Hx.
    + rewrite filter_nil. now rewrite app_nil_r.
    + rewrite filter_nil. now rewrite app_nil_r.
    + rewrite filter_nil. now rewrite app_nil_r.
  - apply NoDup_cons in Hnd as [Hr Hnd].
    assert (Hract : r ∈ the_active_buffs st) by (apply Hin; left).
    assert (Htr : timed (objects (the_store st) r)) by (apply Ht; left).
    destruct (handle_buff_timed time_passed st r Htr Hract)
      as (st1 & Heq & Hobj1 & Hnext1 & Hact1 & Hs1 & Hw1 & He1).
    cbn [handle_each]. rewrite Heq. cbn [rbind].
    assert (Hsame : forall x, x ∈ rest -> objects (the_store st1) x = objects (the_store st) x).
    { intros x Hx. rewrite Hobj1. rewrite decide_False; [reflexivity|]. now intros ->. }
    assert (Hact1' : the_active_buffs st1 =
              filter (fun x => ~ (x = r /\ ends time_passed (objects (the_store st) r)))
                     (the_active_buffs st)).
    { destruct (ends time_passed (objects (the_store st) r)).
      - rewrite (list_remove_NoDup r _ Hact Hract) in Hact1. injection Hact1 as <-.
        apply filter_ext_elem. intros x _. simpl. tauto.
      - rewrite Hact1. symmetry. apply filter_all. intros x _ [_ Hx]. exact Hx. }
    destruct (IH st1) as (st' & Heq' & Hobj' & Hnext' & Hact' & Hs' & Hw' & He').
    + exact Hnd.
    + rewrite Hact1'. now apply NoDup_filter.
    + intros x Hx. rewrite Hact1'. apply list_elem_of_filter. split.
      * intros [-> _]. contradiction.
      * apply Hin. now right.
    + intros x Hx. rewrite (Hsame x Hx). apply Ht. now right.
    + exists st'. split; [exact Heq'|]. split; [|split; [|split; [|split; [|split]]]].
      * intros x. rewrite Hobj', Hobj1.
        destruct (decide (x = r)) as [->|Hne].
        -- rewrite decide_False by exact Hr. rewrite decide_True by left. reflexivity.
        -- destruct (decide (x ∈ rest)) as [Hx|Hx].
           ++ rewrite decide_True by now right. reflexivity.
           ++ rewrite decide_False; [reflexivity|].
              intros [?|?]%elem_of_cons; contradiction.
      * congruence.
      * rewrite Hact', Hact1', list_filter_filter.
        apply filter_ext_elem. intros x Hx.
        destruct (decide (x = r)) as [->|Hne].
        -- rewrite elem_of_cons. rewrite Hobj1, decide_True by reflexivity. tauto.
        -- rewrite elem_of_cons. rewrite Hobj1, decide_False by exact Hne. tauto.
      * rewrite Hs', Hs1, filter_cons_bool, <- app_assoc. do 2 f_equal.
        apply filter_ext_elem. intros x Hx. now rewrite (Hsame x Hx).
      * rewrite Hw', Hw1, filter_cons_bool, <- app_assoc. do 2 f_equal.
        apply filter_ext_elem. intros x Hx. now rewrite (Hsame x Hx).
      * rewrite He', He1, filter_cons_bool, <- app_assoc. do 2 f_equal.
        apply filter_ext_elem. intros x Hx. now rewrite (Hsame x Hx).
Qed.
Lemma handle_buffs_spec (time_passed : Z) s (active_buffs : list ref) :
  NoDup active_buffs ->
  (forall r, r ∈ active_buffs -> timed (objects s r)) ->
  exists s',
    handle_buffs s active_buffs time_passed =
      Ok (s', filter (fun x => ~ ends time_passed (objects s x)) active_buffs,
          {| buffs_that_started := filter (fun x => starts (objects s x)) active_buffs;
             buffs_that_were_active := filter (fun x => is_active (objects s x)) active_buffs;
             buffs_that_ended := filter (fun x => ends time_passed (objects s x)) active_buffs |}) /\
    (forall x, objects s' x =
               if decide (x ∈ active_buffs) then ticked time_passed (objects s x)
               else objects s x) /\
    next_ref s' = next_ref s.
Proof.
  intros Hnd Ht. unfold handle_buffs.
  destruct (handle_each_spec time_passed active_buffs
              {| the_store := s; the_active_buffs := active_buffs;
                 started := []; were_active := []; ended := [] |})
    as (st' & Heq & Hobj & Hnext & Hact & Hs & Hw & He); try assumption; [auto|].
  simpl in *. rewrite Heq. cbn [rbind].
  exists (the_store st'). split; [|split; assumption].
  rewrite Hact, Hs, Hw, He. do 3 f_equal.
  apply filter_ext_elem. intros x Hx. tauto.
Qed.

Lemma occurrences_filter (f : ref -> bool) (b : ref) (l : list ref) :
  NoDup l -> b ∈ l ->
  occurrences b (filter (fun x => f x) l) = if f b then 1%nat else 0%nat.
Proof.
  unfold occurrences. intros Hnd Hb. rewrite list_filter_filter.
  induction l as [|y l IH]; [now apply not_elem_of_nil in Hb|].
  apply NoDup_cons in Hnd as [Hy Hnd].
  destruct (decide (y = b)) as [->|Hne].
  - assert (Hnone : filter (fun x => x = b /\ f x) l = []).
    { clear -Hy. induction l as [|z l IHl]; [reflexivity|].
      apply not_elem_of_cons in Hy as [Hz Hy].
      rewrite filter_cons_False; [now apply IHl|]. intros [-> _]. congruence. }
    rewrite filter_cons, Hnone.
    destruct (f b); simpl; case_decide as Hd; simpl; try reflexivity.
    + exfalso. apply Hd. split; [reflexivity | exact I].
    + destruct Hd as [_ []].
  - rewrite filter_cons_False by (intros [? _]; contradiction).
    apply IH; [exact Hnd|].
    apply elem_of_cons in Hb as [->|Hb]; [congruence | exact Hb].
Qed.
End WithEffects.
(** C10.  A [BuffWithDuration] built with duration [None] raises a
    [TypeError] at its first [notify_time_passed]; so does [handle_buffs]
    on any list that holds such a buff; and [handle_buffs] returns without
    an exception exactly when every buff of the list has a remaining
    duration that is not [None]. *)
Theorem none_duration_raises {BuffEffect : Type} (effect : BuffEffect) (time_passed : Z)
    (s : store BuffEffect) (active_buffs : list ref) :
  notify_time_passed time_passed (new effect None) = Raise TypeError /\
  (forall r, r ∈ active_buffs -> objects s r = new effect None ->
     handle_buffs s active_buffs time_passed = Raise TypeError) /\
  (is_ok (handle_buffs s active_buffs time_passed) = true <->
   forall r, r ∈ active_buffs -> timed (objects s r)).
Proof.
  split; [reflexivity|]. split.
  - intros r Hr Hnone. unfold handle_buffs.
    rewrite (handle_each_type_error time_passed active_buffs _ r); [reflexivity| |exact Hr|].
    + reflexivity.
    + simpl. rewrite Hnone. unfold timed. simpl. tauto.
  - split.
    + intros Hok r Hr.
      destruct (decide (timed (objects s r))) as [Ht|Hn]; [exact Ht|].
      exfalso. unfold handle_buffs in Hok.
      rewrite (handle_each_type_error time_passed active_buffs _ r) in Hok;
        [discriminate|reflexivity|exact Hr|exact Hn].
    + intros Ht. unfold handle_buffs.
      destruct (handle_each_ok time_passed active_buffs
                  {| the_store := s; the_active_buffs := active_buffs;
                     started := []; were_active := []; ended := [] |}) as [st' ->];
        [reflexivity | exact Ht | reflexivity].
Qed.

Lemma none_duration_raises_witness :
  handle_buffs (Samples.store_of Samples.INVISIBILITY None 1) [0%nat] 16 = Raise TypeError.
Proof.
  apply (none_duration_raises Samples.INVISIBILITY 16
           (Samples.store_of Samples.INVISIBILITY None 1) [0%nat]) with (r := 0%nat).
  - left.
  - reflexivity.
Defined.

(** C3, as the code has it.  On a list without repetition whose buffs all
    have a remaining duration, [handle_buffs] (the engine's, and the
    player's on the player's own list) returns lists of which [started] and
    [ended] are disjoint; the list of the active ones is not disjoint from
    them: it holds every buff that is not force-cancelled, the ones that
    start or end in this call included. *)
Theorem started_and_ended_disjoint {BuffEffect AbilityType TalentsState : Type}
    `{Countable AbilityType} (time_passed : Z) (s : store BuffEffect)
    (p : Player.PlayerState AbilityType TalentsState) :
  NoDup (Player.active_buffs p) ->
  (forall r, r ∈ Player.active_buffs p -> timed (objects s r)) ->
  exists s' active_buffs' u,
    handle_buffs s (Player.active_buffs p) time_passed = Ok (s', active_buffs', u) /\
    (exists p', Player.handle_buffs s time_passed p = Ok (s', p', u) /\
                Player.active_buffs p' = active_buffs') /\
    disjoint_lists (buffs_that_started u) (buffs_that_ended u) /\
    (forall r, r ∈ Player.active_buffs p ->
       has_been_force_cancelled (objects s r) = false -> r ∈ buffs_that_were_active u).
Proof.
  intros Hnd Ht.
  destruct (handle_buffs_spec time_passed s _ Hnd Ht) as (s' & Heq & _).
  do 3 eexists. split; [exact Heq|]. split; [|split].
  - unfold Player.handle_buffs. rewrite Heq. cbn [rbind].
    eexists. split; reflexivity.
  - simpl. intros r [Hs _]%list_elem_of_filter [He _]%list_elem_of_filter.
    unfold starts, ends in *.
    destruct (has_applied_start_effect (objects s r)); simpl in *; tauto.
  - simpl. intros r Hr Hc. apply list_elem_of_filter. split; [|exact Hr].
    unfold is_active. now rewrite Hc.
Qed.

Lemma started_and_ended_disjoint_witness :
  let s := update 0%nat (set_started (set_time (Some 10) (new Samples.INVISIBILITY (Some 1000))))
             (Samples.store_of Samples.INVISIBILITY (Some 1000) 2) in
  exists s' p' u,
    Player.handle_buffs s 16 (Player.set_active_buffs [0%nat; 1%nat] Samples.warrior)
      = Ok (s', p', u) /\
    buffs_that_started u = [1%nat] /\
    buffs_that_ended u = [0%nat] /\
    Player.active_buffs p' = [1%nat] /\
    disjoint_lists (buffs_that_started u) (buffs_that_ended u).
Proof.
  intros s.
  destruct (started_and_ended_disjoint 16 s
              (Player.set_active_buffs [0%nat; 1%nat] Samples.warrior))
    as (s' & active' & u & Heq & (p' & Hp & Hactive) & Hd & _).
  - exact (bool_decide_unpack (NoDup [0%nat; 1%nat]) I).
  - intros r Hr. cbn in Hr.
    repeat (apply elem_of_cons in Hr as [->|Hr]; [discriminate|]).
    now apply not_elem_of_nil in Hr.
  - exists s', p', u. split; [exact Hp|].
    vm_compute in Heq. injection Heq as <- <- <-.
    repeat split; [exact Hactive | exact Hd].
Defined.

(** C3 as stated fails: a buff that is neither started nor cancelled is
    listed both as started and as active by its first call. *)
Lemma started_buff_is_also_active :
  exists s' active_buffs' u,
    handle_buffs (Samples.store_of Samples.INVISIBILITY (Some 1000) 1) [0%nat] 16
      = Ok (s', active_buffs', u) /\
    buffs_that_started u = [0%nat] /\
    buffs_that_were_active u = [0%nat] /\
    ~ pairwise_disjoint u.
Proof.
  do 3 eexists. split; [reflexivity|]. simpl. split; [reflexivity|]. split; [reflexivity|].
  intros [Hd _]. apply (Hd 0%nat); left.
Qed.
(** A buff that has started, is not cancelled and has [T] left, ticked
    by positive deltas of total [T]: it is active in every call, never
    started again, and ended by the last call and by no other. *)
Lemma running_buff_ends_once {BuffEffect : Type} (deltas : list Z) :
  forall (s : store BuffEffect) (active_buffs : list ref) (b : ref) (T : Z),
  NoDup active_buffs ->
  (forall r, r ∈ active_buffs -> timed (objects s r)) ->
  b ∈ active_buffs ->
  _time_until_expiration (objects s b) = Some T ->
  has_applied_start_effect (objects s b) = true ->
  has_been_force_cancelled (objects s b) = false ->
  Forall (fun d => 0 < d) deltas -> deltas <> [] -> total deltas = T ->
  exists s' active_buffs' us,
    handle_buffs_each_frame s active_buffs deltas = Ok (s', active_buffs', us) /\
    (fun u => occurrences b (buffs_that_started u)) <$> us = replicate (length deltas) 0%nat /\
    (fun u => occurrences b (buffs_that_ended u)) <$> us
      = replicate (pred (length deltas)) 0%nat ++ [1%nat] /\
    (fun u => occurrences b (buffs_that_were_active u)) <$> us
      = replicate (length deltas) 1%nat /\
    b ∉ active_buffs'.
Proof.
  induction deltas as [|d rest IH]; intros s active_buffs b T Hnd Ht Hb HT Hs Hc Hpos Hne Hsum;
    [congruence|].
  apply Forall_cons in Hpos as [Hd Hpos].
  destruct (handle_buffs_spec d s active_buffs Hnd Ht) as (s1 & Heq & Hobj & _).
  cbn [handle_buffs_each_frame]. rewrite Heq. cbn [rbind].
  assert (Hrest : 0 <= total rest).
  { clear -Hpos. induction Hpos; simpl; lia. }
  simpl in Hsum.
  assert (Hst : occurrences b (filter (fun x => starts (objects s x)) active_buffs) = 0%nat).
  { rewrite occurrences_filter by assumption. unfold starts. now rewrite Hs. }
  assert (Hac : occurrences b (filter (fun x => is_active (objects s x)) active_buffs) = 1%nat).
  { rewrite occurrences_filter by assumption. unfold is_active. now rewrite Hc. }
  destruct rest as [|d' rest'].
  - simpl in Hsum.
    assert (He : ends d (objects s b) = true).
    { unfold ends. rewrite Hs, HT. simpl. apply bool_decide_eq_true. lia. }
    cbn [handle_buffs_each_frame rbind]. do 3 eexists. split; [reflexivity|].
    cbn [fmap list_fmap length replicate pred app buffs_that_started buffs_that_ended
         buffs_that_were_active].
    rewrite Hst, Hac, occurrences_filter, He by assumption.
    repeat split. intros [Hn _]%list_elem_of_filter. apply Hn. now rewrite He.
  - assert (Hd'pos : 0 < total (d' :: rest')).
    { apply Forall_cons in Hpos as [Hd' Hpos']. simpl.
      assert (0 <= total rest'); [|lia].
      clear -Hpos'. induction Hpos'; simpl; lia. }
    assert (He : ends d (objects s b) = false).
    { unfold ends. rewrite Hs, HT. simpl. apply bool_decide_eq_false. lia. }
    set (active1 := filter (fun x => ~ ends d (objects s x)) active_buffs) in *.
    destruct (IH s1 active1 b (T - d)) as (s2 & active2 & us & Heq2 & Hs2 & He2 & Hw2 & Hb2).
    + now apply NoDup_filter.
    + intros r [_ Hr]%list_elem_of_filter. rewrite Hobj, decide_True by exact Hr.
      now apply ticked_timed, Ht.
    + apply list_elem_of_filter. split; [now rewrite He | exact Hb].
    + rewrite Hobj, decide_True by exact Hb. simpl. now rewrite HT.
    + rewrite Hobj, decide_True by exact Hb. reflexivity.
    + rewrite Hobj, decide_True by exact Hb. exact Hc.
    + exact Hpos.
    + discriminate.
    + lia.
    + rewrite Heq2. cbn [rbind]. do 3 eexists. split; [reflexivity|].
      rewrite !fmap_cons, Hs2, He2, Hw2.
      cbn [buffs_that_started buffs_that_ended buffs_that_were_active].
      rewrite Hst, Hac, occurrences_filter, He by assumption.
      repeat split. exact Hb2.
Qed.

(** C4, as the code has it.  A fresh buff of duration [D] in a list without
    repetition whose buffs all have a remaining duration, ticked by at
    least two calls of [handle_buffs] with positive deltas of total [D]:
    it is listed as started once, by the first call; as ended once, by the
    last call, which removes it from the list; and as active once by every
    call, the first and the last included. *)
Theorem buff_lifecycle {BuffEffect : Type} (s : store BuffEffect) (active_buffs : list ref)
    (b : ref) (effect : BuffEffect) (D delta : Z) (deltas : list Z) :
  NoDup active_buffs ->
  (forall r, r ∈ active_buffs -> timed (objects s r)) ->
  b ∈ active_buffs ->
  objects s b = new effect (Some D) ->
  Forall (fun d => 0 < d) (delta :: deltas) ->
  deltas <> [] ->
  total (delta :: deltas) = D ->
  exists s' active_buffs' us,
    handle_buffs_each_frame s active_buffs (delta :: deltas) = Ok (s', active_buffs', us) /\
    (fun u => occurrences b (buffs_that_started u)) <$> us
      = 1%nat :: replicate (length deltas) 0%nat /\
    (fun u => occurrences b (buffs_that_ended u)) <$> us
      = replicate (length deltas) 0%nat ++ [1%nat] /\
    (fun u => occurrences b (buffs_that_were_active u)) <$> us
      = replicate (S (length deltas)) 1%nat /\
    b ∉ active_buffs'.
Proof.
  intros Hnd Ht Hb Hnew Hpos Hne Hsum.
  apply Forall_cons in Hpos as [Hd Hpos].
  destruct (handle_buffs_spec delta s active_buffs Hnd Ht) as (s1 & Heq & Hobj & _).
  cbn [handle_buffs_each_frame]. rewrite Heq. cbn [rbind].
  set (active1 := filter (fun x => ~ ends delta (objects s x)) active_buffs) in *.
  assert (He : ends delta (objects s b) = false) by now rewrite Hnew.
  simpl in Hsum.
  destruct (running_buff_ends_once deltas s1 active1 b (D - delta))
    as (s2 & active2 & us & Heq2 & Hs2 & He2 & Hw2 & Hb2).
  - now apply NoDup_filter.
  - intros r [_ Hr]%list_elem_of_filter. rewrite Hobj, decide_True by exact Hr.
    now apply ticked_timed, Ht.
  - apply list_elem_of_filter. split; [now rewrite He | exact Hb].
  - rewrite Hobj, decide_True by exact Hb. now rewrite Hnew.
  - rewrite Hobj, decide_True by exact Hb. reflexivity.
  - rewrite Hobj, decide_True by exact Hb. now rewrite Hnew.
  - exact Hpos.
  - exact Hne.
  - lia.
  - rewrite Heq2. cbn [rbind]. do 3 eexists. split; [reflexivity|].
    rewrite !fmap_cons, Hs2, He2, Hw2.
    cbn [buffs_that_started buffs_that_ended buffs_that_were_active].
    rewrite !occurrences_filter, He by assumption. rewrite Hnew.
    destruct deltas as [|d' rest']; [congruence|].
    repeat split. exact Hb2.
Qed.

Lemma buff_lifecycle_witness :
  exists s' us,
    handle_buffs_each_frame (Samples.store_of Samples.HEALING_OVER_TIME (Some 1000) 2)
      [0%nat; 1%nat] [400; 350; 250] = Ok (s', [], us) /\
    (fun u => occurrences 1%nat (buffs_that_started u)) <$> us = [1; 0; 0]%nat /\
    (fun u => occurrences 1%nat (buffs_that_ended u)) <$> us = [0; 0; 1]%nat.
Proof.
  destruct (buff_lifecycle (Samples.store_of Samples.HEALING_OVER_TIME (Some 1000) 2)
              [0%nat; 1%nat] 1%nat Samples.HEALING_OVER_TIME 1000 400 [350; 250])
    as (s' & active' & us & Heq & Hs & He & _).
  - exact (bool_decide_unpack (NoDup [0%nat; 1%nat]) I).
  - intros r _. discriminate.
  - right. left.
  - reflexivity.
  - repeat constructor.
  - discriminate.
  - reflexivity.
  - exists s', us. split; [|split; [exact Hs | exact He]].
    rewrite Heq. f_equal. f_equal. f_equal.
    vm_compute in Heq. now injection Heq as _ <- _.
Defined.

(** C4 as stated fails when one delta makes up the whole duration: the
    call that starts the buff never ends it, and the buff stays listed with
    nothing left of its duration. *)
Lemma single_tick_does_not_end :
  total [1000] = 1000 /\
  exists s' u,
    handle_buffs_each_frame (Samples.store_of Samples.HEALING_OVER_TIME (Some 1000) 1)
      [0%nat] [1000] = Ok (s', [0%nat], [u]) /\
    buffs_that_started u = [0%nat] /\
    buffs_that_ended u = [] /\
    _time_until_expiration (objects s' 0%nat) = Some 0.
Proof.
  split; [reflexivity|]. do 2 eexists. split; [reflexivity|]. repeat split.
Qed.
Lemma gain_buff_effect_existing {BuffType BuffEffect : Type} `{EqDecision BuffType}
    (get_buff_type : BuffEffect -> BuffType) (buff : BuffEffect) (duration : Z)
    (s : store BuffEffect) (active_buffs : list ref) :
  has_buff_of_type get_buff_type s active_buffs buff ->
  exists s',
    gain_buff_effect get_buff_type buff duration s active_buffs = (s', active_buffs) /\
    refreshed get_buff_type buff duration active_buffs s s'.
Proof.
  intros (r & Hr & Htype). unfold gain_buff_effect.
  destruct (filter _ active_buffs) as [|b0 others] eqn:Efilter.
  - exfalso. exact (filter_nil_not_elem_of _ _ r Efilter Htype Hr).
  - assert (Hb0 : b0 ∈ filter (fun b => get_buff_type (buff_effect (objects s b))
                                        = get_buff_type buff) active_buffs).
    { rewrite Efilter. left. }
    apply list_elem_of_filter in Hb0 as [Hb0type Hb0].
    eexists. split; [reflexivity|].
    exists b0. split; [exact Hb0|]. split; [exact Hb0type|]. simpl. split; [|split].
    + rewrite fn_lookup_insert. repeat split.
    + intros x Hx. now rewrite fn_lookup_insert_ne.
    + reflexivity.
Qed.

(** C5.  When the type of the buff effect is already among the active
    buffs of the owner, NPC or player, [gain_buff_effect] leaves the list
    of the owner as it is, with the same entries and so the same length,
    and changes nothing in the store but the remaining duration of one
    buff of that type in the list, which becomes the new duration. *)
Theorem reapplied_buff_is_refreshed {BuffType BuffEffect AbilityType TalentsState : Type}
    `{EqDecision BuffType} `{Countable AbilityType}
    (get_buff_type : BuffEffect -> BuffType) (buff : BuffEffect) (duration : Z)
    (s : store BuffEffect) (npc : World.NonPlayerCharacter)
    (p : Player.PlayerState AbilityType TalentsState) :
  (has_buff_of_type get_buff_type s (World.active_buffs npc) buff ->
   exists s' npc',
     World.gain_buff_effect get_buff_type buff duration s npc = (s', npc') /\
     World.active_buffs npc' = World.active_buffs npc /\
     length (World.active_buffs npc') = length (World.active_buffs npc) /\
     refreshed get_buff_type buff duration (World.active_buffs npc) s s') /\
  (has_buff_of_type get_buff_type s (Player.active_buffs p) buff ->
   exists s' p',
     Player.gain_buff_effect get_buff_type buff duration s p = (s', p') /\
     Player.active_buffs p' = Player.active_buffs p /\
     length (Player.active_buffs p') = length (Player.active_buffs p) /\
     refreshed get_buff_type buff duration (Player.active_buffs p) s s').
Proof.
  split; intros Hhas;
    destruct (gain_buff_effect_existing get_buff_type buff duration s _ Hhas)
      as (s' & Heq & Href).
  - unfold World.gain_buff_effect. rewrite Heq.
    do 2 eexists. split; [reflexivity|]. simpl. auto.
  - unfold Player.gain_buff_effect. rewrite Heq.
    do 2 eexists. split; [reflexivity|]. simpl. auto.
Qed.

Lemma reapplied_buff_is_refreshed_witness :
  let s := Samples.store_of Samples.INVISIBILITY (Some 1000) 2 in
  let p := Player.set_active_buffs [0%nat; 1%nat] Samples.warrior in
  exists s' p',
    Player.gain_buff_effect Samples.get_buff_type Samples.INVISIBILITY 5000 s p = (s', p') /\
    Player.active_buffs p' = [0%nat; 1%nat] /\
    refreshed Samples.get_buff_type Samples.INVISIBILITY 5000 [0%nat; 1%nat] s s'.
Proof.
  intros s p.
  destruct (reapplied_buff_is_refreshed Samples.get_buff_type Samples.INVISIBILITY 5000 s
              {| World.world_entity := 0%nat;
                 World.health_resource := Gauge.new 10 0;
                 World.active_buffs := [];
                 World.invulnerable := false;
                 World.stun_status := Stun.new;
                 World.npc_category := World.ENEMY;
                 World.start_position := (0, 0);
                 World.max_distance_allowed_from_start_position := None |} p)
    as [_ Hplayer].
  destruct Hplayer as (s' & p' & Heq & Hact & _ & Href).
  - exists 0%nat. split; [left | reflexivity].
  - exists s', p'. split; [exact Heq|]. split; [exact Hact | exact Href].
Defined.
End BuffProps.

(** ** Experience and levels *)

Module PlayerProps.
Import Player.

Section WithContent.
Variable fl : Q -> Q.
Context {AbilityType : Type} `{Countable AbilityType}.
Context {TalentsState : Type}.
Variable has_tier_for_level : TalentsState -> Z -> bool.
Variable unlock_tier : TalentsState -> Z -> TalentsState.
Implicit Types (p : PlayerState AbilityType TalentsState).
Implicit Types (events : list (GainExpEvent AbilityType)).

Lemma level_ups_app events events' :
  level_ups (events ++ events') = (level_ups events + level_ups events')%nat.
Proof. unfold level_ups. now rewrite filter_app, length_app. Qed.

(** One pass through the loop: a level, a stat update, and no
    [PlayerLeveledUp] event. *)
Lemma level_up_once_spec p events :
  let '(p', events') := level_up_once fl has_tier_for_level unlock_tier p events in
  exp p' = exp p - max_exp_in_this_level p /\
  level p' = level p + 1 /\
  max_exp_in_this_level p' = next_max_exp fl (max_exp_in_this_level p) /\
  stats_were_updated p' = S (stats_were_updated p) /\
  Gauge.max_value (health_resource p') =
    Gauge.max_value (health_resource p) + health (level_bonus p) /\
  level_bonus p' = level_bonus p /\
  level_ups events' = level_ups events.
Proof.
  unfold level_up_once.
  assert (Hnone : forall e : GainExpEvent AbilityType,
            is_level_up e = false -> level_ups [e] = 0%nat).
  { intros e He. unfold level_ups. rewrite filter_cons_False; [reflexivity|].
    now rewrite He. }
  destruct (new_level_abilities _ !! level _) as [new_ability|];
    destruct (has_tier_for_level _ _); simpl;
    rewrite ?level_ups_app, ?Hnone by reflexivity;
    repeat split; try reflexivity; lia.
Qed.

Lemma level_up_loop_continue (fuel : nat) p events :
  max_exp_in_this_level p <= exp p ->
  level_up_loop fl has_tier_for_level unlock_tier (S fuel) p events =
    let '(p', events') := level_up_once fl has_tier_for_level unlock_tier p events in
    level_up_loop fl has_tier_for_level unlock_tier fuel p' events'.
Proof.
  intros Hge. cbn [level_up_loop]. now rewrite bool_decide_eq_true_2 by lia.
Qed.

Lemma level_up_loop_stop (fuel : nat) p events :
  exp p < max_exp_in_this_level p ->
  level_up_loop fl has_tier_for_level unlock_tier fuel p events = Some (p, events).
Proof.
  intros Hlt. destruct fuel; cbn [level_up_loop]; now rewrite bool_decide_eq_false_2 by lia.
Qed.
End WithContent.

(** C2, as the code has it.  When the experience gained in one call of
    [gain_exp] is enough for three levels and no more, the call returns,
    the level goes up by three and [_update_stats_for_new_level] runs three
    times, once per level; but the events returned hold one
    [PlayerLeveledUp], appended before the loop, whatever the number of
    levels. *)
Theorem three_levels_one_event (fl : Q -> Q) {AbilityType TalentsState : Type}
    `{Countable AbilityType}
    (has_tier_for_level : TalentsState -> Z -> bool)
    (unlock_tier : TalentsState -> Z -> TalentsState)
    (fuel : nat) (amount : Z) (p : PlayerState AbilityType TalentsState) :
  let m0 := max_exp_in_this_level p in
  let m1 := next_max_exp fl m0 in
  let m2 := next_max_exp fl m1 in
  let m3 := next_max_exp fl m2 in
  let e := exp p + amount in
  m0 <= e -> m1 <= e - m0 -> m2 <= e - m0 - m1 -> e - m0 - m1 - m2 < m3 ->
  (3 <= fuel)%nat ->
  exists p' events,
    gain_exp fl has_tier_for_level unlock_tier fuel amount p = Some (Ok (p', events)) /\
    level_ups events = 1%nat /\
    level p' = level p + 3 /\
    stats_were_updated p' = (stats_were_updated p + 3)%nat /\
    Gauge.max_value (health_resource p') =
      Gauge.max_value (health_resource p) + 3 * health (level_bonus p) /\
    exp p' = e - m0 - m1 - m2.
Proof.
  intros m0 m1 m2 m3 e H0 H1 H2 H3 Hfuel.
  destruct fuel as [|[|[|fuel]]]; try lia. clear Hfuel.
  unfold gain_exp.
  set (p0 := set_exp_level (exp p + amount) (level p) p).
  assert (Hp0 : exp p0 = e /\ max_exp_in_this_level p0 = m0 /\ level p0 = level p /\
                stats_were_updated p0 = stats_were_updated p /\
                health_resource p0 = health_resource p /\ level_bonus p0 = level_bonus p)
    by (repeat split).
  destruct Hp0 as (He0 & Hm0 & Hl0 & Hs0 & Hh0 & Hb0).
  rewrite bool_decide_eq_true_2 by lia.
  cbn [app]. set (ev0 := [PlayerLeveledUp]).
  rewrite level_up_loop_continue by lia.
  pose proof (level_up_once_spec fl has_tier_for_level unlock_tier p0 ev0) as S1.
  destruct (level_up_once fl has_tier_for_level unlock_tier p0 ev0) as [p1 ev1].
  destruct S1 as (He1 & Hl1 & Hm1 & Hs1 & Hh1 & Hb1 & Hv1).
  assert (Hm1' : max_exp_in_this_level p1 = m1).
  { rewrite Hm1, Hm0. reflexivity. }
  rewrite level_up_loop_continue by lia.
  pose proof (level_up_once_spec fl has_tier_for_level unlock_tier p1 ev1) as S2.
  destruct (level_up_once fl has_tier_for_level unlock_tier p1 ev1) as [p2 ev2].
  destruct S2 as (He2 & Hl2 & Hm2 & Hs2 & Hh2 & Hb2 & Hv2).
  assert (Hm2' : max_exp_in_this_level p2 = m2).
  { rewrite Hm2, Hm1'. reflexivity. }
  rewrite level_up_loop_continue by lia.
  pose proof (level_up_once_spec fl has_tier_for_level unlock_tier p2 ev2) as S3.
  destruct (level_up_once fl has_tier_for_level unlock_tier p2 ev2) as [p3 ev3].
  destruct S3 as (He3 & Hl3 & Hm3 & Hs3 & Hh3 & Hb3 & Hv3).
  assert (Hm3' : max_exp_in_this_level p3 = m3).
  { rewrite Hm3, Hm2'. reflexivity. }
  rewrite level_up_loop_stop by lia.
  unfold notify_exp_observers. rewrite bool_decide_eq_false_2 by lia.
  cbn [rbind]. do 2 eexists. split; [reflexivity|]. simpl.
  split; [now rewrite Hv3, Hv2, Hv1|].
  split; [lia|]. split; [lia|]. split; [|lia].
  rewrite Hh3, Hh2, Hh1, Hb2, Hb1, Hb0, Hh0. lia.
Qed.

Lemma three_levels_one_event_witness :
  exists p' events,
    gain_exp Samples.exact Samples.has_tier_for_level Samples.unlock_tier 3 258 Samples.warrior
      = Some (Ok (p', events)) /\
    level_ups events = 1%nat /\
    level p' = 4 /\
    stats_were_updated p' = 3%nat.
Proof.
  destruct (three_levels_one_event Samples.exact Samples.has_tier_for_level
              Samples.unlock_tier 3 258 Samples.warrior)
    as (p' & events & Heq & Hev & Hlevel & Hstats & _).
  - vm_compute. discriminate.
  - vm_compute. discriminate.
  - vm_compute. discriminate.
  - vm_compute. reflexivity.
  - lia.
  - exists p', events. split; [exact Heq|]. split; [exact Hev|]. split; assumption.
Defined.

(** C2 as stated fails: the warrior who gains at once the 258 points that
    three levels take is returned one [PlayerLeveledUp], next to the events
    of the ability and of the two talent tiers met on the way, not three. *)
Lemma three_levels_not_three_events :
  exists p',
    gain_exp Samples.exact Samples.has_tier_for_level Samples.unlock_tier 3 258 Samples.warrior
      = Some (Ok (p', [PlayerLeveledUp; PlayerLearnedNewAbility Samples.CHARGE;
                       PlayerUnlockedNewTalent; PlayerUnlockedNewTalent])) /\
    level p' = 4 /\
    stats_were_updated p' = 3%nat /\
    level_ups [PlayerLeveledUp; PlayerLearnedNewAbility Samples.CHARGE;
               PlayerUnlockedNewTalent; PlayerUnlockedNewTalent] <> 3%nat.
Proof.
  eexists. split; [vm_compute; reflexivity|]. repeat split. discriminate.
Qed.
End PlayerProps.

(** ** The bucket index *)

Module BucketsProps.
Import Buckets.

(** Every query stops one column and one row short of the grid: the
    indices it visits are below [len - 1], the index of the last one. *)
Lemma visited_below_last (lo hi len i : Z) :
  i ∈ py_range (Z.max 0 lo) (Z.min (hi + 1) (len - 1)) -> 0 <= i < len - 1.
Proof.
  unfold py_range. rewrite elem_of_seqZ. lia.
Qed.


Lemma mapM_result_spec {A B} (f : A -> result B) (l : list A) :
  (forall a, a ∈ l -> exists b, f a = Ok b) ->
  exists bs, mapM_result f l = Ok bs /\
    forall b, b ∈ bs <-> exists a, a ∈ l /\ f a = Ok b.
Proof.
  induction l as [|a l IH]; intros Hok.
  - exists []. split; [reflexivity|]. intros b. split.
    + intros Hb. now apply not_elem_of_nil in Hb.
    + intros (a & Ha & _). now apply not_elem_of_nil in Ha.
  - destruct (Hok a) as [b0 Hb0]; [left|].
    destruct IH as (bs & Hbs & Hmem); [intros a' Ha'; apply Hok; now right|].
    exists (b0 :: bs). split; [cbn [mapM_result]; now rewrite Hb0, Hbs|].
    intros b. rewrite elem_of_cons, Hmem. split.
    + intros [->|(a' & Ha' & Hfa')].
      * exists a. split; [left | exact Hb0].
      * exists a'. split; [now right | exact Hfa'].
    + intros (a' & [->|Ha']%elem_of_cons & Hfa').
      * left. congruence.
      * right. now exists a'.
Qed.

Section Filling.
Context {V : Type}.

(** A dictionary filled with [v] at the keys of [range(0, n)]. *)
Lemma filled_dict (v : V) (n : nat) :
  let m := foldl (fun m k => <[k := v]> m) (∅ : gmap Z V) (py_range 0 (Z.of_nat n)) in
  size m = n /\
  forall k, m !! k = if decide (0 <= k < Z.of_nat n) then Some v else None.
Proof.
  unfold py_range. rewrite Z.sub_0_r.
  induction n as [|n [IHsize IHlook]].
  - split; [reflexivity|]. intros k. simpl. rewrite lookup_empty.
    rewrite decide_False by lia. reflexivity.
  - rewrite seqZ_S, foldl_app. simpl. split.
    + rewrite map_size_insert_None; [now rewrite IHsize|].
      rewrite IHlook. rewrite decide_False by lia. reflexivity.
    + intros k. destruct (decide (k = Z.of_nat n)) as [->|Hne].
      * rewrite lookup_insert_eq. rewrite decide_True by lia. reflexivity.
      * rewrite lookup_insert_ne by lia. rewrite IHlook.
        destruct (decide (0 <= k < Z.of_nat n)) as [Hk|Hk].
        -- rewrite decide_True by lia. reflexivity.
        -- rewrite decide_False by lia. reflexivity.
Qed.
End Filling.

Lemma elem_of_concat {A} (x : A) (ls : list (list A)) :
  x ∈ concat ls <-> exists l, l ∈ ls /\ x ∈ l.
Proof.
  induction ls as [|l ls IH]; simpl.
  - split; [intros Hx; now apply not_elem_of_nil in Hx|].
    intros (l & Hl & _). now apply not_elem_of_nil in Hl.
  - rewrite elem_of_app, IH. split.
    + intros [Hx|(l' & Hl' & Hx)]; [exists l; split; [left|exact Hx]|].
      exists l'. split; [now right | exact Hx].
    + intros (l' & [->|Hl']%elem_of_cons & Hx); [now left|].
      right. now exists l'.
Qed.

Section WithEntities.
Context {E : Type} `{EqDecision E}.
Variable get_position : E -> Z * Z.
Implicit Types (b : Buckets E) (entity : E).

Lemma bucket_at_grid b (x_bucket y_bucket : Z) :
  grid_ok b ->
  0 <= x_bucket < columns_of (entire_world_area b) ->
  0 <= y_bucket < rows_of (entire_world_area b) ->
  exists bucket, bucket_at b x_bucket y_bucket = Ok bucket.
Proof.
  intros [_ Hgrid] Hx Hy. destruct (Hgrid x_bucket Hx) as (column & Hcol & _ & Hrows).
  destruct (Hrows y_bucket Hy) as [bucket Hbucket].
  exists bucket. unfold bucket_at. now rewrite Hcol, Hbucket.
Qed.

(** The buckets that [_buckets_between_indices] yields on a grid as the
    constructor lays it out: it never raises, and it visits the columns
    and rows of the range asked for that lie below the last one. *)
Lemma buckets_between_spec b (x0 x1 y0 y1 : Z) :
  grid_ok b ->
  exists buckets,
    _buckets_between_indices b x0 x1 y0 y1 = Ok buckets /\
    forall bucket, bucket ∈ buckets <->
      exists x_bucket y_bucket,
        x_bucket ∈ py_range (Z.max 0 x0) (Z.min (x1 + 1) (columns_of (entire_world_area b) - 1)) /\
        y_bucket ∈ py_range (Z.max 0 y0) (Z.min (y1 + 1) (rows_of (entire_world_area b) - 1)) /\
        bucket_at b x_bucket y_bucket = Ok bucket.
Proof.
  intros Hgrid. pose proof Hgrid as [Hsize Hcols].
  unfold _buckets_between_indices. rewrite Hsize.
  set (xs := py_range (Z.max 0 x0) (Z.min (x1 + 1) (columns_of (entire_world_area b) - 1))).
  set (ys := py_range (Z.max 0 y0) (Z.min (y1 + 1) (rows_of (entire_world_area b) - 1))).
  assert (Hcolumn : forall x_bucket, x_bucket ∈ xs ->
            exists bs, buckets_of_column b x_bucket y0 y1 = Ok bs /\
              forall bucket, bucket ∈ bs <->
                exists y_bucket, y_bucket ∈ ys /\ bucket_at b x_bucket y_bucket = Ok bucket).
  { intros x_bucket Hx%visited_below_last.
    destruct (Hcols x_bucket) as (column & Hcol & Hrows & _); [lia|].
    unfold buckets_of_column. rewrite Hcol, Hrows. fold ys.
    apply mapM_result_spec. intros y_bucket Hy%visited_below_last.
    apply bucket_at_grid; [exact Hgrid | lia | lia]. }
  destruct (mapM_result_spec (fun x_bucket => buckets_of_column b x_bucket y0 y1) xs)
    as (columns & Heq & Hmem).
  { intros x_bucket Hx. destruct (Hcolumn x_bucket Hx) as (bs & Hbs & _). now exists bs. }
  rewrite Heq. cbn [rbind]. eexists. split; [reflexivity|].
  intros bucket. rewrite elem_of_concat. split.
  - intros (bs & (x_bucket & Hx & Hbs)%Hmem & Hbucket).
    destruct (Hcolumn x_bucket Hx) as (bs' & Hbs' & Hmem').
    rewrite Hbs in Hbs'. injection Hbs' as <-.
    apply Hmem' in Hbucket as (y_bucket & Hy & Hat).
    now exists x_bucket, y_bucket.
  - intros (x_bucket & y_bucket & Hx & Hy & Hat).
    destruct (Hcolumn x_bucket Hx) as (bs & Hbs & Hmem').
    exists bs. split.
    + apply Hmem. now exists x_bucket.
    + apply Hmem'. now exists y_bucket.
Qed.

(** The entities that a query of a rectangle returns. *)
Lemma world_area_query_spec b (world_area : Pygame.Rect) :
  grid_ok b ->
  let '(x0, y0) := _bucket_index_for_world_position b (Pygame.topleft world_area) in
  let '(x1, y1) := _bucket_index_for_world_position b (Pygame.bottomright world_area) in
  exists entities,
    get_entitites_close_to_world_area b world_area = Ok entities /\
    forall entity, entity ∈ entities <->
      exists x_bucket y_bucket bucket,
        x_bucket ∈ py_range (Z.max 0 (x0 - 1))
                     (Z.min (x1 + 1 + 1) (columns_of (entire_world_area b) - 1)) /\
        y_bucket ∈ py_range (Z.max 0 (y0 - 1))
                     (Z.min (y1 + 1 + 1) (rows_of (entire_world_area b) - 1)) /\
        bucket_at b x_bucket y_bucket = Ok bucket /\
        entity ∈ bucket.
Proof.
  intros Hgrid. unfold get_entitites_close_to_world_area.
  destruct (_bucket_index_for_world_position b (Pygame.topleft world_area)) as [x0 y0].
  destruct (_bucket_index_for_world_position b (Pygame.bottomright world_area)) as [x1 y1].
  destruct (buckets_between_spec b (x0 - 1) (x1 + 1) (y0 - 1) (y1 + 1) Hgrid)
    as (buckets & Heq & Hmem).
  rewrite Heq. cbn [rbind]. eexists. split; [reflexivity|].
  intros entity. rewrite elem_of_concat. split.
  - intros (bucket & (x_bucket & y_bucket & Hx & Hy & Hat)%Hmem & Hentity).
    now exists x_bucket, y_bucket, bucket.
  - intros (x_bucket & y_bucket & bucket & Hx & Hy & Hat & Hentity).
    exists bucket. split; [|exact Hentity]. apply Hmem. now exists x_bucket, y_bucket.
Qed.
End WithEntities.

Lemma alter_as_insert {V} (f : V -> V) (m : gmap Z V) (i : Z) (v : V) :
  m !! i = Some v -> alter f i m = <[i := f v]> m.
Proof.
  intros Hi. apply map_eq. intros j. rewrite lookup_alter, lookup_insert.
  case_decide; [now rewrite Hi | reflexivity].
Qed.

Section Construction.
Context {E : Type} `{EqDecision E}.
Variable get_position : E -> Z * Z.
Implicit Types (b : Buckets E) (entity : E).

(** [add_entity] appends the entity to the bucket of its cell and leaves
    the other buckets and the layout of the dictionary as they are. *)
Lemma add_entity_spec entity b b' :
  add_entity get_position entity b = Ok b' ->
  entire_world_area b' = entire_world_area b /\
  (exists bucket,
     bucket_at b (fst (cell_of get_position b entity)) (snd (cell_of get_position b entity))
       = Ok bucket /\
     forall x_bucket y_bucket,
       bucket_at b' x_bucket y_bucket =
         if decide ((x_bucket, y_bucket) = cell_of get_position b entity)
         then Ok (bucket ++ [entity]) else bucket_at b x_bucket y_bucket) /\
  (grid_ok b -> grid_ok b').
Proof.
  unfold add_entity, _bucket_for_world_position, store_bucket, cell_of.
  destruct (_bucket_index_for_world_position b (get_position entity)) as [cx cy].
  cbn [fst snd]. unfold bucket_at at 1.
  destruct (_buckets b !! cx) as [column|] eqn:Hcol; [|discriminate].
  destruct (column !! cy) as [bucket|] eqn:Hbucket; [|discriminate].
  cbn [rbind]. intros [= <-]. rewrite (alter_as_insert _ _ _ _ Hcol).
  unfold set_buckets. cbn [entire_world_area _buckets].
  split; [reflexivity|]. split.
  - exists bucket. split.
    + unfold bucket_at. now rewrite Hcol, Hbucket.
    + intros x_bucket y_bucket. unfold bucket_at. cbn [_buckets].
      rewrite lookup_insert. destruct (decide (cx = x_bucket)) as [<-|Hx].
      * rewrite lookup_insert, Hcol. destruct (decide (cy = y_bucket)) as [<-|Hy].
        -- now rewrite decide_True.
        -- rewrite decide_False by congruence. reflexivity.
      * rewrite decide_False by congruence. reflexivity.
  - intros [Hsize Hcols]. split; cbn [_buckets entire_world_area].
    + now rewrite map_size_insert_Some by (rewrite Hcol; eauto).
    + intros x_bucket Hx. destruct (Hcols x_bucket Hx) as (column' & Hcol' & Hrows & Hsome).
      rewrite lookup_insert. destruct (decide (cx = x_bucket)) as [<-|Hne].
      * rewrite Hcol in Hcol'. injection Hcol' as <-.
        eexists. split; [reflexivity|]. split.
        -- now rewrite map_size_insert_Some by (rewrite Hbucket; eauto).
        -- intros y_bucket Hy. rewrite lookup_insert. case_decide; [eauto|].
           now apply Hsome.
      * exists column'. auto.
Qed.

Lemma add_entities_spec (entities : list E) b b' :
  add_entities get_position entities b = Ok b' ->
  grid_ok b -> in_own_cell get_position b ->
  entire_world_area b' = entire_world_area b /\
  grid_ok b' /\ in_own_cell get_position b'.
Proof.
  revert b. induction entities as [|entity rest IH]; intros b; cbn [add_entities].
  - intros [= <-]. auto.
  - destruct (add_entity get_position entity b) as [b1|] eqn:Hadd; [|discriminate].
    cbn [rbind]. intros Hrest Hgrid Hown.
    destruct (add_entity_spec entity b b1 Hadd) as (Harea & (bucket & Hat & Hlook) & Hgrid1).
    destruct (IH b1 Hrest) as (Harea' & Hgrid' & Hown').
    + now apply Hgrid1.
    + intros x_bucket y_bucket bucket' entity' Hat' Hin.
      assert (Hsame : forall e, cell_of get_position b1 e = cell_of get_position b e).
      { intros e. unfold cell_of, _bucket_index_for_world_position. now rewrite Harea. }
      rewrite Hsame. rewrite Hlook in Hat'. case_decide as Hcell.
      * injection Hat' as <-. apply elem_of_app in Hin as [Hin|Hin].
        -- rewrite (Hown _ _ _ _ Hat Hin), <- Hcell. reflexivity.
        -- apply list_elem_of_singleton in Hin as ->. now symmetry.
      * exact (Hown _ _ _ _ Hat' Hin).
    + split; [congruence | auto].
Qed.

(** The constructor lays the grid out over a world of a size that is
    not negative, and puts every entity in the bucket of its cell. *)
Lemma new_spec (entities : list E) (area : Pygame.Rect) b :
  0 <= Pygame.w area -> 0 <= Pygame.h area ->
  new get_position entities area = Ok b ->
  entire_world_area b = area /\ grid_ok b /\ in_own_cell get_position b.
Proof.
  intros Hw Hh. unfold new.
  assert (Hnx : 0 <= Pygame.w area / _BUCKET_WIDTH + 1).
  { unfold _BUCKET_WIDTH. pose proof (Z.div_pos (Pygame.w area) 100). lia. }
  assert (Hny : 0 <= Pygame.h area / _BUCKET_HEIGHT + 1).
  { unfold _BUCKET_HEIGHT. pose proof (Z.div_pos (Pygame.h area) 100). lia. }
  rewrite <- (Z2Nat.id _ Hnx), <- (Z2Nat.id _ Hny).
  destruct (filled_dict (V:=list E) [] (Z.to_nat (Pygame.h area / _BUCKET_HEIGHT + 1)))
    as [Hcsize Hclook].
  set (column := foldl _ ∅ (py_range 0 (Z.of_nat (Z.to_nat (Pygame.h area / _BUCKET_HEIGHT + 1)))))
    in *.
  destruct (filled_dict column (Z.to_nat (Pygame.w area / _BUCKET_WIDTH + 1)))
    as [Hbsize Hblook].
  set (buckets := foldl _ ∅ (py_range 0 (Z.of_nat (Z.to_nat (Pygame.w area / _BUCKET_WIDTH + 1)))))
    in *.
  intros Hadd.
  destruct (add_entities_spec entities _ b Hadd) as (Harea & Hgrid & Hown).
  - split; cbn [_buckets entire_world_area]; unfold columns_of, rows_of.
    + rewrite Hbsize. now rewrite Z2Nat.id.
    + intros x_bucket Hx. exists column. rewrite Hblook, decide_True by lia.
      split; [reflexivity|]. split; [rewrite Hcsize; now rewrite Z2Nat.id|].
      intros y_bucket Hy. rewrite Hclook, decide_True by lia. eauto.
  - intros x_bucket y_bucket bucket entity. unfold bucket_at. cbn [_buckets].
    rewrite Hblook. case_decide; [|discriminate].
    rewrite Hclook. case_decide; [|discriminate].
    intros [= <-] Hin. now apply not_elem_of_nil in Hin.
  - auto.
Qed.

(** On the buckets that the constructor makes, no query of a rectangle
    ever returns an entity of the last column or of the last row of the
    grid, and every query returns. *)
Lemma last_column_and_row_are_never_returned (entities : list E)
    (area world_area : Pygame.Rect) b :
  0 <= Pygame.w area -> 0 <= Pygame.h area ->
  new get_position entities area = Ok b ->
  exists found,
    get_entitites_close_to_world_area b world_area = Ok found /\
    forall entity, entity ∈ found ->
      fst (cell_of get_position b entity) < columns_of area - 1 /\
      snd (cell_of get_position b entity) < rows_of area - 1.
Proof.
  intros Hw Hh Hnew.
  destruct (new_spec entities area b Hw Hh Hnew) as (Harea & Hgrid & Hown).
  pose proof (world_area_query_spec b world_area Hgrid) as Hquery.
  destruct (_bucket_index_for_world_position b (Pygame.topleft world_area)) as [x0 y0].
  destruct (_bucket_index_for_world_position b (Pygame.bottomright world_area)) as [x1 y1].
  destruct Hquery as (found & Heq & Hmem).
  exists found. split; [exact Heq|].
  intros entity (x_bucket & y_bucket & bucket & Hx & Hy & Hat & Hin)%Hmem.
  rewrite (Hown _ _ _ _ Hat Hin). cbn [fst snd].
  apply visited_below_last in Hx, Hy. rewrite Harea in Hx, Hy. lia.
Qed.
End Construction.

(** On such a grid the query of the neighbourhood of a position returns
    too: the movement resolver always gets its nearby walls. *)
Lemma position_query_returns {E : Type} (b : Buckets E) (position : Z * Z) :
  grid_ok b -> exists found, get_entities_close_to_position b position = Ok found.
Proof.
  intros Hgrid. unfold get_entities_close_to_position.
  destruct (_bucket_index_for_world_position b position) as [x_bucket y_bucket].
  destruct (buckets_between_spec b (x_bucket - 1) (x_bucket + 1) (y_bucket - 1) (y_bucket + 1)
              Hgrid) as (buckets & -> & _).
  cbn [rbind]. now eexists.
Qed.
(** C6 on the code: in a world of 250 by 250 units the grid has three
    columns and three rows; a decoration at (220, 220) is stored in the
    cell (2, 2), which lies in the grid and in the reach of a query of the
    whole world, and that query does not return it: it returns the
    decoration of the cell (1, 1) alone. *)
Theorem last_cell_is_not_returned :
  exists b : Buckets nat,
    new Samples.decoration_position [0%nat; 1%nat] Samples.small_world = Ok b /\
    bucket_at b 2 2 = Ok [0%nat] /\
    cell_in_grid Samples.small_world (2, 2) = true /\
    cell_in_reach b Samples.small_world (2, 2) = true /\
    get_entitites_close_to_world_area b Samples.small_world = Ok [1%nat] /\
    get_entities_close_to_position b (220, 220) = Ok [1%nat].
Proof.
  eexists. split; [vm_compute; reflexivity|].
  repeat split; vm_compute; reflexivity.
Qed.
End BucketsProps.

(** ** The movement resolver *)

Module WorldProps.
Import World.

Section WithPygame.
Variable fl : Q -> Q.
Variable Rect_of : Q -> Q -> Z -> Z -> Pygame.Rect.
Variable colliderect : Pygame.Rect -> Pygame.Rect -> bool.
Variable collidepoint : Pygame.Rect -> Q -> Q -> bool.
Variable translate_in_direction : Q * Q -> Direction -> Q -> Q * Q.

Lemma entities_move_same (gs : GameState) (entity : ref) (pos : Q * Q) :
  entities (move_entity Rect_of entity pos gs) entity
  = set_position Rect_of pos (entities gs entity).
Proof. unfold move_entity, set_entity. cbn [entities]. apply fn_lookup_insert. Qed.

Lemma entities_move_other (gs : GameState) (entity r : ref) (pos : Q * Q) :
  r <> entity -> entities (move_entity Rect_of entity pos gs) r = entities gs r.
Proof.
  intros Hr. unfold move_entity, set_entity. cbn [entities].
  apply fn_lookup_insert_ne. congruence.
Qed.

(** Moving an entity and moving it back leaves its position, and every
    other entity, as they were. *)
Lemma move_there_and_back (gs : GameState) (entity : ref) (there : Q * Q) :
  let back := (x (entities gs entity), y (entities gs entity)) in
  position_kept gs
    (move_entity Rect_of entity back (move_entity Rect_of entity there gs)) entity.
Proof.
  cbv zeta. unfold position_kept. rewrite !entities_move_same. repeat split.
  intros r Hr. now rewrite !entities_move_other.
Qed.

(** The collision test finds any other entity whose rectangle the
    candidate rectangle collides with, and puts the mover back. *)
Lemma would_collide_with (gs : GameState) (entity other : ref) (candidate : Q * Q)
    (walls : list ref) :
  let e := entities gs entity in
  is_position_within_game_world collidepoint gs candidate = true ->
  get_walls_close_to_position gs (py_int (fst candidate), py_int (snd candidate)) = Ok walls ->
  other ∈ other_entities_of gs walls ->
  other <> entity ->
  colliderect (Rect_of (fst candidate) (snd candidate) (w e) (h e))
              (pygame_collision_rect (entities gs other)) = true ->
  would_entity_collide_if_new_pos Rect_of colliderect collidepoint gs entity candidate =
    Ok (move_entity Rect_of entity (x e, y e) (move_entity Rect_of entity candidate gs), true).
Proof.
  intros e Hin Hwalls Hother Hne Hcollide.
  unfold would_entity_collide_if_new_pos. rewrite Hin. cbn [negb].
  unfold get_walls_close_to_position in *. unfold get_position.
  rewrite !entities_move_same.
  change (walls_buckets (move_entity Rect_of entity candidate gs)) with (walls_buckets gs).
  change (x (set_position Rect_of candidate (entities gs entity))) with (fst candidate).
  change (y (set_position Rect_of candidate (entities gs entity))) with (snd candidate).
  rewrite Hwalls. cbn [rbind].
  change (other_entities_of (move_entity Rect_of entity candidate gs) walls)
    with (other_entities_of gs walls).
  match goal with |- context [filter ?P ?l] =>
    destruct (filter P l) as [|c cs] eqn:Efilter end.
  - exfalso. refine (filter_nil_not_elem_of _ _ other Efilter _ Hother).
    split; [|congruence].
    unfold _entities_collide.
    rewrite entities_move_other by exact Hne. exact Hcollide.
  - reflexivity.
Qed.
End WithPygame.

(** X27.  When the entity is moving, its candidate position (the new
    position brought within the world) is within the world for pygame, and
    the rectangle of the entity at the candidate collides with the
    rectangle of another entity that the resolver looks at (an NPC, the
    player, a wall that the buckets return for the candidate, a portal, a
    warp point or a chest), then the movement update, of a world entity
    and of an NPC alike, returns with the position (x, y) of the mover as
    it was before the call, and with every other entity untouched.  A wall
    that the buckets do not return is not looked at. *)
Theorem colliding_move_is_rejected (fl : Q -> Q) (Rect_of : Q -> Q -> Z -> Z -> Pygame.Rect)
    (colliderect : Pygame.Rect -> Pygame.Rect -> bool)
    (collidepoint : Pygame.Rect -> Q -> Q -> bool)
    (translate_in_direction : Q * Q -> Direction -> Q -> Q * Q)
    (is_x_and_y_within_distance : Z * Z -> Q * Q -> Z -> bool)
    (gs : GameState) (entity other : ref) (time_passed : Z) (new_position : Q * Q)
    (walls : list ref) :
  let e := entities gs entity in
  let candidate := get_within_world gs new_position (w e, h e) in
  get_new_position_according_to_dir_and_speed fl translate_in_direction time_passed e
    = Some new_position ->
  is_position_within_game_world collidepoint gs candidate = true ->
  get_walls_close_to_position gs (py_int (fst candidate), py_int (snd candidate)) = Ok walls ->
  other ∈ other_entities_of gs walls ->
  other <> entity ->
  colliderect (Rect_of (fst candidate) (snd candidate) (w e) (h e))
              (pygame_collision_rect (entities gs other)) = true ->
  (exists gs',
     update_world_entity_position_within_game_world fl Rect_of colliderect collidepoint
       translate_in_direction gs entity time_passed = Ok gs' /\
     position_kept gs gs' entity) /\
  (forall npc, world_entity npc = entity ->
     exists gs',
       update_npc_position_within_game_world fl Rect_of colliderect collidepoint
         translate_in_direction is_x_and_y_within_distance gs npc time_passed = Ok gs' /\
       position_kept gs gs' entity).
Proof.
  intros e candidate Hnew Hin Hwalls Hother Hne Hcollide.
  pose proof (would_collide_with Rect_of colliderect collidepoint gs entity other candidate
                walls Hin Hwalls Hother Hne Hcollide) as Hwould.
  split.
  - unfold update_world_entity_position_within_game_world. fold e. rewrite Hnew.
    fold candidate. rewrite Hwould. cbn [rbind negb].
    eexists. split; [reflexivity|].
    apply (move_there_and_back Rect_of gs entity candidate).
  - intros npc Hnpc. unfold update_npc_position_within_game_world.
    rewrite Hnpc. fold e. rewrite Hnew. fold candidate.
    match goal with |- context [if ?c then Ok gs else _] => destruct c end.
    + exists gs. split; [reflexivity|]. repeat split.
    + rewrite Hwould. cbn [rbind negb].
      eexists. split; [reflexivity|].
      apply (move_there_and_back Rect_of gs entity candidate).
Qed.

Lemma colliding_move_is_rejected_witness :
  exists gs',
    update_world_entity_position_within_game_world Samples.exact Samples.Rect_of
      Samples.colliderect Samples.collidepoint Samples.translate_in_direction
      Samples.two_in_a_room 0%nat 5 = Ok gs' /\
    x (entities gs' 0%nat) = 10%Q /\
    y (entities gs' 0%nat) = 10%Q.
Proof.
  destruct (colliding_move_is_rejected Samples.exact Samples.Rect_of Samples.colliderect
              Samples.collidepoint Samples.translate_in_direction
              Samples.is_x_and_y_within_distance Samples.two_in_a_room
              0%nat 1%nat 5
              (Samples.translate_in_direction (10, 10)%Q RIGHT (Samples.exact (1 * inject_Z 5)))
              [])
    as [(gs' & Heq & Hx & Hy & _) _].
  - reflexivity.
  - reflexivity.
  - vm_compute. reflexivity.
  - left.
  - discriminate.
  - reflexivity.
  - exists gs'. split; [exact Heq|]. split; [exact Hx | exact Hy].
Defined.

(** C8 on the code: in the world of 250 by 250 units a wall at (210, 10)
    is stored in the cell (2, 0), a cell of the grid next to the cell
    (1, 0) of the player at (186, 10).  The candidate position (191, 10)
    of the player is within the world and its rectangle there overlaps the
    rectangle of the wall, but the buckets never return the last column,
    so that the resolver does not look at the wall and the move is
    committed.  The same player and wall 100 units to the left, the wall
    in the column 1: the move is rejected. *)
Theorem wall_of_the_last_column_does_not_stop :
  let move := update_world_entity_position_within_game_world Samples.exact Samples.Rect_of
                Samples.colliderect Samples.collidepoint Samples.translate_in_direction in
  (let gs := Samples.room_with_wall 186 210 in
   exists gs',
     move gs 0%nat 5 = Ok gs' /\
     Buckets.bucket_at (walls_buckets gs) 2 0 = Ok [1%nat] /\
     Buckets.cell_in_grid (entire_world_area gs) (2, 0) = true /\
     Buckets._bucket_index_for_world_position (walls_buckets gs) (191, 10) = (1, 0) /\
     get_walls_close_to_position gs (191, 10) = Ok [] /\
     is_position_within_game_world Samples.collidepoint gs (191 # 1, 10 # 1) = true /\
     Samples.colliderect (Samples.Rect_of (191 # 1) (10 # 1) 20 20)
       (pygame_collision_rect (entities gs 1%nat)) = true /\
     (x (entities gs 0%nat), y (entities gs 0%nat)) = (186 # 1, 10 # 1) /\
     (x (entities gs' 0%nat), y (entities gs' 0%nat)) = (191 # 1, 10 # 1) /\
     Samples.colliderect (pygame_collision_rect (entities gs' 0%nat))
       (pygame_collision_rect (entities gs' 1%nat)) = true) /\
  (let gs := Samples.room_with_wall 86 110 in
   exists gs',
     move gs 0%nat 5 = Ok gs' /\
     Buckets.bucket_at (walls_buckets gs) 1 0 = Ok [1%nat] /\
     get_walls_close_to_position gs (91, 10) = Ok [1%nat] /\
     (x (entities gs' 0%nat), y (entities gs' 0%nat)) = (86 # 1, 10 # 1)).
Proof.
  cbv zeta. split.
  - eexists. split; [vm_compute; reflexivity|].
    repeat split; vm_compute; reflexivity.
  - eexists. split; [vm_compute; reflexivity|].
    repeat split; vm_compute; reflexivity.
Qed.
End WorldProps.

(** * Further properties *)

(** ** The gauge: changes of the maximum, notifications, respawn *)

Module GaugeMore.
Import Gauge.

(** X1.  On a gauge whose value is at most its maximum, [increase_max] by
    an amount followed by [decrease_max] by the same amount gives the gauge
    back as it was, observers included.  The other way round the maximum
    comes back but the value does not: it is what [decrease_max] clamped it
    to, the least of the value before and the lowered maximum. *)
Theorem increase_then_decrease_max (amount : Z) (g : HealthOrManaResource) :
  value g <= max_value g ->
  decrease_max amount (increase_max amount g) = g /\
  max_value (increase_max amount (decrease_max amount g)) = max_value g /\
  value (increase_max amount (decrease_max amount g))
    = Z.min (value g) (max_value g - amount).
Proof.
  intros Hg. destruct g as [vf v m br rb log]. cbn in Hg.
  unfold decrease_max, increase_max, set_max_value. cbn.
  split; [|split].
  - rewrite bool_decide_eq_false_2 by lia. f_equal. lia.
  - case_bool_decide; cbn; lia.
  - case_bool_decide; cbn; [rewrite Z.div_1_r|]; lia.
Qed.

Lemma increase_then_decrease_max_witness :
  let g := fst (lose Samples.exact 3 (new 10 0)) in
  decrease_max 5 (increase_max 5 g) = g /\
  value (increase_max 5 (decrease_max 5 g)) = 5.
Proof.
  intros g. destruct (increase_then_decrease_max 5 g) as (Hback & _ & Hvalue).
  - vm_compute. discriminate.
  - split; [exact Hback | exact Hvalue].
Defined.

Lemma perform_gain_or_lose_log (fl : Q -> Q) (c : call) (g : HealthOrManaResource) :
  gains_or_loses c ->
  value_was_updated (perform fl g c)
    = value_was_updated g ++ [(value (perform fl g c), max_value (perform fl g c))].
Proof.
  destruct c; simpl; intros Hc; try contradiction; reflexivity.
Qed.

(** X2.  Over any sequence of [gain] and [lose] calls the observers are
    notified once per call, and after the last call the last notification
    is the pair (value, max) of the gauge.  A change of the maximum is
    silent: [increase_max] never notifies, and [decrease_max] does not
    when the value fits under the new maximum, so that the last
    notification then carries a maximum that is out of date. *)
Theorem observers_follow_gain_and_lose (fl : Q -> Q) (calls : list call)
    (g : HealthOrManaResource) (amount : Z) :
  (Forall gains_or_loses calls -> calls <> [] ->
   let g' := perform_all fl calls g in
   length (value_was_updated g') = (length (value_was_updated g) + length calls)%nat /\
   last (value_was_updated g') = Some (value g', max_value g')) /\
  value_was_updated (increase_max amount g) = value_was_updated g /\
  (value g <= max_value g - amount ->
   value_was_updated (decrease_max amount g) = value_was_updated g).
Proof.
  split; [|split].
  - revert g. induction calls as [|c calls IH]; intros g Hcalls Hne; [congruence|].
    apply Forall_cons in Hcalls as [Hc Hcalls]. cbn [perform_all fold_left].
    pose proof (perform_gain_or_lose_log fl c g Hc) as Hlog.
    destruct calls as [|c' calls'].
    + cbn [fold_left]. rewrite Hlog. split.
      * rewrite length_app. simpl. lia.
      * apply last_snoc.
    + destruct (IH (perform fl g c) Hcalls) as [Hlen Hlast]; [discriminate|].
      unfold perform_all in *. split; [|exact Hlast].
      rewrite Hlen, Hlog, length_app. simpl. lia.
  - reflexivity.
  - intros Hfit. unfold decrease_max. rewrite bool_decide_eq_false_2; [reflexivity|].
    cbn. lia.
Qed.

Lemma observers_follow_gain_and_lose_witness :
  let g := perform_all Samples.exact [Lose 3; Gain (1 # 2)] (new 10 0) in
  value_was_updated g = [(7, 10); (7, 10)] /\
  value_was_updated (decrease_max 2 g) = value_was_updated g /\
  max_value (decrease_max 2 g) = 8.
Proof.
  intros g.
  destruct (observers_follow_gain_and_lose Samples.exact [Lose 3; Gain (1 # 2)] (new 10 0) 0)
    as [Hcalls _].
  destruct Hcalls as [Hlen Hlast]; [repeat constructor | discriminate |].
  destruct (observers_follow_gain_and_lose Samples.exact [] g 2) as (_ & _ & Hsilent).
  split; [reflexivity|]. split; [|reflexivity].
  apply Hsilent. vm_compute. discriminate.
Defined.

(** X3.  [set_to_partial_of_max(0.5)], which the engine calls on the
    player who died, leaves a value of half the maximum rounded down when
    the product is exact: the gauge is above zero afterwards if and only
    if its maximum is at least 2. *)
Theorem half_of_max_revives (fl : Q -> Q) (g : HealthOrManaResource) :
  (fl ((1 # 2) * inject_Z (max_value g)) == (1 # 2) * inject_Z (max_value g))%Q ->
  value (set_to_partial_of_max fl (1 # 2) g) = max_value g / 2 /\
  is_at_or_below_zero (set_to_partial_of_max fl (1 # 2) g) = bool_decide (max_value g <= 1).
Proof.
  intros Hexact.
  assert (Hvalue : value (set_to_partial_of_max fl (1 # 2) g) = max_value g / 2).
  { cbn [set_to_partial_of_max _notify_observers set_value value].
    rewrite Hexact. unfold Qfloor, Qmult, inject_Z. cbn [Qnum Qden].
    f_equal. destruct (max_value g); reflexivity. }
  split; [exact Hvalue|].
  unfold is_at_or_below_zero. rewrite Hvalue.
  apply bool_decide_ext. split; intros Hle.
  - destruct (decide (max_value g <= 1)) as [?|Hgt]; [assumption|].
    assert (1 <= max_value g / 2) by (apply Z.div_le_lower_bound; lia). lia.
  - apply Z.lt_succ_r. apply Z.div_lt_upper_bound; lia.
Qed.

Lemma half_of_max_revives_witness :
  is_at_or_below_zero (set_to_partial_of_max Samples.exact (1 # 2) (new 1 0)) = true /\
  is_at_or_below_zero (set_to_partial_of_max Samples.exact (1 # 2) (new 60 0)) = false.
Proof.
  destruct (half_of_max_revives Samples.exact (new 1 0)) as [_ Hone]; [reflexivity|].
  destruct (half_of_max_revives Samples.exact (new 60 0)) as [_ Hsixty]; [reflexivity|].
  split; [exact Hone | exact Hsixty].
Defined.
End GaugeMore.

(** ** The stun counter over any sequence of calls *)

Module StunMore.
Import Stun.

Lemma perform_counts (s s' : StunStatus) (c : call) :
  0 <= _number_of_active_stuns s ->
  perform s c = Ok s' ->
  _number_of_active_stuns s' = _number_of_active_stuns s + balance [c] /\
  0 <= _number_of_active_stuns s + balance [c].
Proof.
  intros Hs. destruct c; simpl.
  - intros [= <-]. simpl. lia.
  - unfold remove_one. case_bool_decide; [discriminate|]. intros [= <-]. simpl. lia.
Qed.

Lemma perform_returns (s : StunStatus) (c : call) :
  0 <= _number_of_active_stuns s + balance [c] -> exists s', perform s c = Ok s'.
Proof.
  destruct c; simpl; intros Hc; [now eexists|].
  unfold remove_one. rewrite bool_decide_eq_false_2 by lia. now eexists.
Qed.

Lemma balance_cons (c : call) (calls : list call) :
  balance (c :: calls) = balance [c] + balance calls.
Proof. destruct c; simpl; lia. Qed.

(** X4.  Whatever the order of the [add_one] and [remove_one] calls made
    on a stun status whose counter is not negative, the sequence goes
    through without an exception if and only if the counter plus the adds
    minus the removes is never negative along the way; the counter is then
    the counter before plus the adds minus the removes, and [is_stunned]
    tells whether that is above zero. *)
Theorem any_order_of_stuns (calls : list call) (s : StunStatus) :
  0 <= _number_of_active_stuns s ->
  (is_ok (perform_all calls s) = true <->
   forall k : nat, 0 <= _number_of_active_stuns s + balance (take k calls)) /\
  (forall s', perform_all calls s = Ok s' ->
     _number_of_active_stuns s' = _number_of_active_stuns s + balance calls /\
     is_stunned s' = bool_decide (0 < _number_of_active_stuns s + balance calls)).
Proof.
  revert s. induction calls as [|c calls IH]; intros s Hs.
  - split.
    + split; [|reflexivity]. intros _ k. rewrite take_nil. simpl. lia.
    + intros s' [= <-]. simpl. split; [lia|].
      unfold is_stunned. apply bool_decide_ext. lia.
  - cbn [perform_all]. split.
    + split.
      * destruct (perform s c) as [s1|e] eqn:Hc; [|discriminate].
        cbn [rbind]. intros Hok [|k].
        -- simpl. lia.
        -- destruct (perform_counts s s1 c Hs Hc) as [Hs1 Hpos].
           destruct (IH s1) as [[Hprefix _] _]; [lia|].
           specialize (Hprefix Hok k). cbn [take]. rewrite balance_cons. lia.
      * intros Hprefix.
        destruct (perform_returns s c) as [s1 Hc].
        { specialize (Hprefix 1%nat). cbn [take] in Hprefix. exact Hprefix. }
        rewrite Hc. cbn [rbind].
        destruct (perform_counts s s1 c Hs Hc) as [Hs1 Hpos].
        apply (IH s1); [lia|]. intros k. specialize (Hprefix (S k)).
        cbn [take] in Hprefix. rewrite balance_cons in Hprefix. lia.
    + intros s'. destruct (perform s c) as [s1|e] eqn:Hc; [|discriminate].
      cbn [rbind]. intros Hrest.
      destruct (perform_counts s s1 c Hs Hc) as [Hs1 Hpos].
      destruct (IH s1) as [_ Hfinal]; [lia|].
      destruct (Hfinal s' Hrest) as [Hcount Hstunned].
      rewrite balance_cons. split; [lia|].
      rewrite Hstunned. apply bool_decide_ext. lia.
Qed.

Lemma any_order_of_stuns_witness :
  exists s',
    perform_all [AddOne; AddOne; RemoveOne; AddOne; RemoveOne] new = Ok s' /\
    is_stunned s' = true /\
    is_ok (perform_all [AddOne; RemoveOne; RemoveOne; AddOne] new) = false.
Proof.
  destruct (any_order_of_stuns [AddOne; AddOne; RemoveOne; AddOne; RemoveOne] new)
    as [_ Hfinal]; [simpl; lia|].
  destruct (any_order_of_stuns [AddOne; RemoveOne; RemoveOne; AddOne] new)
    as [[Hprefix _] _]; [simpl; lia|].
  eexists. split; [reflexivity|]. split.
  - destruct (Hfinal _ eq_refl) as [_ ->]. reflexivity.
  - destruct (is_ok (perform_all [AddOne; RemoveOne; RemoveOne; AddOne] new)) eqn:Hok;
      [|reflexivity].
    specialize (Hprefix eq_refl 3%nat). simpl in Hprefix. lia.
Defined.
End StunMore.

(** ** More on the buff lifecycle engine *)

Module BuffMore.
Import Buffs BuffProps.

Lemma filter_none {A} (P : A -> Prop) `{forall x, Decision (P x)} (l : list A) :
  (forall x, x ∈ l -> ~ P x) -> filter P l = [].
Proof.
  induction l as [|y l IH]; intros Hp; [reflexivity|].
  rewrite filter_cons_False by (apply Hp; left).
  apply IH. intros x Hx. apply Hp. now right.
Qed.

(** X5.  On a list without repetition whose buffs all have a remaining
    duration, [handle_buffs] removes from the list the buffs it returns as
    ended and no other: the list before is the list after together with
    the ended ones.  Every buff left in the list has started and has a
    remaining duration, the list is still without repetition, and no buff
    outside the list is touched. *)
Theorem ended_buffs_are_the_removed_ones {BuffEffect : Type} (time_passed : Z)
    (s : store BuffEffect) (active_buffs : list ref) :
  NoDup active_buffs ->
  (forall r, r ∈ active_buffs -> timed (objects s r)) ->
  exists s' active_buffs' u,
    handle_buffs s active_buffs time_passed = Ok (s', active_buffs', u) /\
    active_buffs ≡ₚ active_buffs' ++ buffs_that_ended u /\
    NoDup active_buffs' /\
    (forall r, r ∈ active_buffs' ->
       timed (objects s' r) /\ has_applied_start_effect (objects s' r) = true) /\
    (forall r, r ∉ active_buffs -> objects s' r = objects s r) /\
    next_ref s' = next_ref s.
Proof.
  intros Hnd Ht.
  destruct (handle_buffs_spec time_passed s active_buffs Hnd Ht) as (s' & Heq & Hobj & Hnext).
  do 3 eexists. split; [exact Heq|]. cbn [buffs_that_ended].
  split; [|split; [|split; [|split]]].
  - rewrite (Permutation_app_comm (filter _ _)). symmetry.
    apply (filter_app_complement (fun x => ends time_passed (objects s x))).
  - now apply NoDup_filter.
  - intros r [_ Hr]%list_elem_of_filter. rewrite Hobj, decide_True by exact Hr.
    split; [now apply ticked_timed, Ht | reflexivity].
  - intros r Hr. rewrite Hobj. now rewrite decide_False.
  - exact Hnext.
Qed.

Lemma ended_buffs_are_the_removed_ones_witness :
  exists s' u,
    handle_buffs_each_frame (Samples.store_of Samples.INVISIBILITY (Some 20) 2)
      [0%nat; 1%nat] [16; 16] = Ok (s', [], u) /\
    buffs_that_ended <$> u = [[]; [0%nat; 1%nat]].
Proof.
  destruct (ended_buffs_are_the_removed_ones 16
              (Samples.store_of Samples.INVISIBILITY (Some 20) 2) [0%nat; 1%nat])
    as (s1 & active1 & u1 & Heq1 & _ & Hnd1 & Hleft1 & _).
  - exact (bool_decide_unpack (NoDup [0%nat; 1%nat]) I).
  - intros r _. discriminate.
  - destruct (ended_buffs_are_the_removed_ones 16 s1 active1 Hnd1)
      as (s2 & active2 & u2 & Heq2 & _); [intros r Hr; now apply Hleft1|].
    exists s2, [u1; u2]. cbn [handle_buffs_each_frame]. rewrite Heq1. cbn [rbind].
    rewrite Heq2. cbn [rbind].
    vm_compute in Heq1. injection Heq1 as <- <- <-.
    vm_compute in Heq2. injection Heq2 as <- <- <-.
    split; reflexivity.
Defined.

(** X6.  A buff that [force_cancel] was called on is never listed as
    active by the next [handle_buffs] (with a time delta that is not
    negative), whatever its duration was, even [None].  If it had started
    it is listed as ended, once, and removed; if it had not, it is listed
    as started, once, and stays in the list: its end comes one call
    later. *)
Theorem cancelled_buff_is_not_active {BuffEffect : Type} (time_passed : Z)
    (s : store BuffEffect) (active_buffs : list ref) (b : ref) :
  NoDup active_buffs ->
  (forall r, r ∈ active_buffs -> r <> b -> timed (objects s r)) ->
  b ∈ active_buffs ->
  0 <= time_passed ->
  exists s' active_buffs' u,
    handle_buffs (update b (force_cancel (objects s b)) s) active_buffs time_passed
      = Ok (s', active_buffs', u) /\
    occurrences b (buffs_that_were_active u) = 0%nat /\
    (if has_applied_start_effect (objects s b)
     then occurrences b (buffs_that_started u) = 0%nat /\
          occurrences b (buffs_that_ended u) = 1%nat /\
          b ∉ active_buffs'
     else occurrences b (buffs_that_started u) = 1%nat /\
          occurrences b (buffs_that_ended u) = 0%nat /\
          b ∈ active_buffs').
Proof.
  intros Hnd Ht Hb Hdt.
  set (s1 := update b (force_cancel (objects s b)) s).
  assert (Hb1 : objects s1 b = force_cancel (objects s b)) by apply fn_lookup_insert.
  destruct (handle_buffs_spec time_passed s1 active_buffs Hnd) as (s' & Heq & _).
  { intros r Hr. destruct (decide (r = b)) as [->|Hne].
    - rewrite Hb1. discriminate.
    - unfold s1, update. cbn [objects]. rewrite fn_lookup_insert_ne by congruence.
      now apply Ht. }
  do 3 eexists. split; [exact Heq|].
  cbn [buffs_that_started buffs_that_ended buffs_that_were_active].
  rewrite !occurrences_filter by assumption. rewrite Hb1.
  split; [reflexivity|].
  unfold starts, ends. cbn [force_cancel has_applied_start_effect _time_until_expiration].
  destruct (has_applied_start_effect (objects s b)) eqn:Hstarted; cbn [negb andb].
  - rewrite bool_decide_eq_true_2 by lia. repeat split.
    intros [Hn _]%list_elem_of_filter. apply Hn. rewrite Hb1. unfold ends.
    cbn [force_cancel has_applied_start_effect _time_until_expiration].
    rewrite Hstarted. cbn [andb]. rewrite bool_decide_eq_true_2 by lia. exact I.
  - repeat split. apply list_elem_of_filter. split; [|exact Hb].
    rewrite Hb1. unfold ends.
    cbn [force_cancel has_applied_start_effect _time_until_expiration].
    now rewrite Hstarted.
Qed.

Lemma cancelled_buff_is_not_active_witness :
  exists s' u,
    handle_buffs
      (update 0%nat (force_cancel (new Samples.INVISIBILITY None))
         (Samples.store_of Samples.INVISIBILITY None 1))
      [0%nat] 16 = Ok (s', [0%nat], u) /\
    buffs_that_started u = [0%nat] /\
    buffs_that_were_active u = [].
Proof.
  destruct (cancelled_buff_is_not_active 16 (Samples.store_of Samples.INVISIBILITY None 1)
              [0%nat] 0%nat) as (s' & active' & u & Heq & _).
  - exact (bool_decide_unpack (NoDup [0%nat]) I).
  - intros r Hr%list_elem_of_singleton Hne. contradiction.
  - left.
  - lia.
  - exists s', u. cbn [Samples.store_of objects] in Heq. rewrite Heq.
    vm_compute in Heq. injection Heq as <- <- <-. repeat split.
Defined.

(** After [gain_buff_effect] the owner has a buff of the type. *)
Lemma gain_buff_effect_has_type {BuffType BuffEffect : Type} `{EqDecision BuffType}
    (get_buff_type : BuffEffect -> BuffType) (buff : BuffEffect) (duration : Z)
    (s : store BuffEffect) (active_buffs : list ref) :
  let '(s', active_buffs') := gain_buff_effect get_buff_type buff duration s active_buffs in
  has_buff_of_type get_buff_type s' active_buffs' buff.
Proof.
  unfold gain_buff_effect.
  destruct (filter _ active_buffs) as [|b0 others] eqn:Efilter.
  - cbn [alloc]. exists (next_ref s). split; [apply elem_of_app; right; left|].
    cbn [objects]. now rewrite fn_lookup_insert.
  - assert (Hb0 : b0 ∈ filter (fun b => get_buff_type (buff_effect (objects s b))
                                        = get_buff_type buff) active_buffs).
    { rewrite Efilter. left. }
    apply list_elem_of_filter in Hb0 as [Hb0type Hb0].
    exists b0. split; [exact Hb0|]. cbn [update objects].
    now rewrite fn_lookup_insert.
Qed.

(** X7.  When no active buff of the owner has the type of the buff effect,
    and the references of the list are ones that the store has given out,
    [gain_buff_effect] appends one entry: a reference that is not in the
    list yet, to a fresh buff of the effect that has not started, is not
    cancelled and has the duration as remaining and as total duration.
    No buff that was there is changed. *)
Theorem new_buff_is_appended {BuffType BuffEffect : Type} `{EqDecision BuffType}
    (get_buff_type : BuffEffect -> BuffType) (buff : BuffEffect) (duration : Z)
    (s : store BuffEffect) (active_buffs : list ref) :
  ~ has_buff_of_type get_buff_type s active_buffs buff ->
  (forall r, r ∈ active_buffs -> (r < next_ref s)%nat) ->
  exists s',
    gain_buff_effect get_buff_type buff duration s active_buffs
      = (s', active_buffs ++ [next_ref s]) /\
    (next_ref s ∉ active_buffs) /\
    objects s' (next_ref s) = new buff (Some duration) /\
    (forall x, x <> next_ref s -> objects s' x = objects s x) /\
    next_ref s' = S (next_ref s) /\
    forall r, r ∈ active_buffs ++ [next_ref s] -> (r < next_ref s')%nat.
Proof.
  intros Hnone Hwf. unfold gain_buff_effect.
  rewrite filter_none.
  - cbn [alloc]. eexists. split; [reflexivity|]. cbn [objects next_ref].
    split; [|split; [|split; [|split]]].
    + intros Hin. apply Hwf in Hin. lia.
    + apply fn_lookup_insert.
    + intros x Hx. now apply fn_lookup_insert_ne.
    + reflexivity.
    + intros r [Hr|Hr%list_elem_of_singleton]%elem_of_app; [apply Hwf in Hr|]; lia.
  - intros r Hr Htype. apply Hnone. now exists r.
Qed.

Lemma new_buff_is_appended_witness :
  exists s',
    gain_buff_effect Samples.get_buff_type Samples.HEALING_OVER_TIME 3000
      (Samples.store_of Samples.INVISIBILITY (Some 1000) 2) [0%nat; 1%nat]
      = (s', [0%nat; 1%nat; 2%nat]) /\
    objects s' 2%nat = new Samples.HEALING_OVER_TIME (Some 3000).
Proof.
  destruct (new_buff_is_appended Samples.get_buff_type Samples.HEALING_OVER_TIME 3000
              (Samples.store_of Samples.INVISIBILITY (Some 1000) 2) [0%nat; 1%nat])
    as (s' & Heq & _ & Hnew & _).
  - intros (r & _ & Htype). discriminate.
  - intros r Hr. repeat (apply elem_of_cons in Hr as [->|Hr]; [simpl; lia|]).
    now apply not_elem_of_nil in Hr.
  - exists s'. split; [exact Heq | exact Hnew].
Defined.

(** X8.  Gaining the same buff effect twice in a row leaves the owner
    with the list that the first call made, whatever the list and the two
    durations: the second call only sets the remaining duration of a buff
    of that type to the second duration.  So the list grows by one entry
    at most. *)
Theorem gaining_twice_adds_once {BuffType BuffEffect : Type} `{EqDecision BuffType}
    (get_buff_type : BuffEffect -> BuffType) (buff : BuffEffect) (duration1 duration2 : Z)
    (s : store BuffEffect) (active_buffs : list ref) :
  let '(s1, active_buffs1) := gain_buff_effect get_buff_type buff duration1 s active_buffs in
  let '(s2, active_buffs2) := gain_buff_effect get_buff_type buff duration2 s1 active_buffs1 in
  active_buffs2 = active_buffs1 /\
  refreshed get_buff_type buff duration2 active_buffs1 s1 s2 /\
  (length active_buffs2 <= S (length active_buffs))%nat.
Proof.
  pose proof (gain_buff_effect_has_type get_buff_type buff duration1 s active_buffs) as Hhas.
  assert (Hlen : (length (snd (gain_buff_effect get_buff_type buff duration1 s active_buffs))
                  <= S (length active_buffs))%nat).
  { unfold gain_buff_effect. destruct (filter _ active_buffs); simpl; [|lia].
    rewrite length_app. simpl. lia. }
  destruct (gain_buff_effect get_buff_type buff duration1 s active_buffs) as [s1 active1].
  destruct (gain_buff_effect_existing get_buff_type buff duration2 s1 active1 Hhas)
    as (s2 & -> & Href).
  auto.
Qed.

Lemma objects_after_cancelling {BuffEffect : Type} (l : list ref) :
  forall (s : store BuffEffect) (r : ref),
  objects (foldl (fun s' b => update b (force_cancel (objects s' b)) s') s l) r
    = (if decide (r ∈ l) then force_cancel (objects s r) else objects s r).
Proof.
  induction l as [|b l IH]; intros s r; cbn [foldl].
  - rewrite decide_False by apply not_elem_of_nil. reflexivity.
  - rewrite IH. cbn [update objects].
    destruct (decide (r = b)) as [->|Hne].
    + rewrite fn_lookup_insert. rewrite (decide_True (P := b ∈ b :: l)) by left.
      case_decide; reflexivity.
    + rewrite fn_lookup_insert_ne by congruence.
      destruct (decide (r ∈ l)) as [Hr|Hr].
      * rewrite decide_True by now right. reflexivity.
      * rewrite decide_False; [reflexivity|]. intros [?|?]%elem_of_cons; contradiction.
Qed.

(** X9.  After [force_cancel_all_buffs], the next [handle_buffs] of the
    player (with a time delta that is not negative, on a list without
    repetition) returns without an exception whatever the durations were,
    lists no buff as active, ends and removes every buff that had started
    and keeps, listed as started, the ones that had not. *)
Theorem cancel_all_then_handle {BuffType BuffEffect AbilityType TalentsState : Type}
    `{EqDecision BuffType} `{Countable AbilityType}
    (time_passed : Z) (s : store BuffEffect)
    (p : Player.PlayerState AbilityType TalentsState) :
  NoDup (Player.active_buffs p) ->
  0 <= time_passed ->
  let '(s1, p1) := Player.force_cancel_all_buffs s p in
  exists s2 p2 u,
    Player.handle_buffs s1 time_passed p1 = Ok (s2, p2, u) /\
    buffs_that_were_active u = [] /\
    buffs_that_ended u
      = filter (fun r => has_applied_start_effect (objects s r)) (Player.active_buffs p) /\
    buffs_that_started u
      = filter (fun r => negb (has_applied_start_effect (objects s r))) (Player.active_buffs p) /\
    Player.active_buffs p2 = buffs_that_started u.
Proof.
  intros Hnd Hdt. unfold Player.force_cancel_all_buffs.
  set (s1 := foldl _ s (Player.active_buffs p)).
  assert (Hs1 : forall r, r ∈ Player.active_buffs p ->
                  objects s1 r = force_cancel (objects s r)).
  { intros r Hr. unfold s1. rewrite objects_after_cancelling. now rewrite decide_True. }
  unfold Player.handle_buffs.
  change (Player.active_buffs (Player.notify_buff_observers p)) with (Player.active_buffs p).
  destruct (handle_buffs_spec time_passed s1 (Player.active_buffs p) Hnd) as (s2 & Heq & _).
  { intros r Hr. rewrite (Hs1 r Hr). discriminate. }
  rewrite Heq. cbn [rbind]. do 3 eexists. split; [reflexivity|].
  cbn [buffs_that_started buffs_that_ended buffs_that_were_active Player.active_buffs
       Player.notify_buff_observers Player.set_active_buffs].
  assert (Hends : forall r, r ∈ Player.active_buffs p ->
            ends time_passed (objects s1 r) = has_applied_start_effect (objects s r)).
  { intros r Hr. rewrite (Hs1 r Hr). unfold ends.
    cbn [force_cancel has_applied_start_effect _time_until_expiration].
    rewrite bool_decide_eq_true_2 by lia. apply andb_true_r. }
  split; [|split; [|split]].
  - apply filter_none. intros r Hr. rewrite (Hs1 r Hr). unfold is_active. simpl. tauto.
  - apply filter_ext_elem. intros r Hr. now rewrite (Hends r Hr).
  - apply filter_ext_elem. intros r Hr. rewrite (Hs1 r Hr). reflexivity.
  - apply filter_ext_elem. intros r Hr. rewrite (Hends r Hr), (Hs1 r Hr).
    unfold starts. cbn [force_cancel has_applied_start_effect].
    destruct (has_applied_start_effect (objects s r)); simpl; tauto.
Qed.

Lemma cancel_all_then_handle_witness :
  let s := update 0%nat (set_started (new Samples.INVISIBILITY None))
             (Samples.store_of Samples.INVISIBILITY None 2) in
  let p := Player.set_active_buffs [0%nat; 1%nat] Samples.warrior in
  exists s2 p2 u,
    Player.handle_buffs (fst (Player.force_cancel_all_buffs s p)) 16
      (snd (Player.force_cancel_all_buffs s p)) = Ok (s2, p2, u) /\
    buffs_that_ended u = [0%nat] /\
    Player.active_buffs p2 = [1%nat].
Proof.
  intros s p.
  pose proof (cancel_all_then_handle (BuffType := Samples.BuffType) 16 s p) as Hall.
  destruct (Player.force_cancel_all_buffs s p) as [s1 p1].
  destruct Hall as (s2 & p2 & u & Heq & _ & Hended & Hstarted & Hleft).
  - exact (bool_decide_unpack (NoDup [0%nat; 1%nat]) I).
  - lia.
  - exists s2, p2, u. split; [exact Heq|]. split; [exact Hended|].
    rewrite Hleft. exact Hstarted.
Defined.

(** X10.  After [gain_buff_effect] of the player, [has_active_buff] holds
    for the type of the buff effect gained; and when the references of the
    list are ones that the store has given out, it is for every other type
    what it was before. *)
Theorem gained_buff_is_active {BuffType BuffEffect AbilityType TalentsState : Type}
    `{EqDecision BuffType} `{Countable AbilityType}
    (get_buff_type : BuffEffect -> BuffType) (buff : BuffEffect) (duration : Z)
    (s : store BuffEffect) (p : Player.PlayerState AbilityType TalentsState) :
  let '(s', p') := Player.gain_buff_effect get_buff_type buff duration s p in
  Player.has_active_buff get_buff_type (get_buff_type buff) s' p' = true /\
  ((forall r, r ∈ Player.active_buffs p -> (r < next_ref s)%nat) ->
   forall buff_type, buff_type <> get_buff_type buff ->
     Player.has_active_buff get_buff_type buff_type s' p'
     = Player.has_active_buff get_buff_type buff_type s p).
Proof.
  unfold Player.gain_buff_effect.
  pose proof (gain_buff_effect_has_type get_buff_type buff duration s (Player.active_buffs p))
    as Hhas.
  destruct (gain_buff_effect get_buff_type buff duration s (Player.active_buffs p))
    as [s' active'] eqn:Hgain.
  unfold Player.has_active_buff.
  cbn [Player.active_buffs Player.notify_buff_observers Player.set_active_buffs]. split.
  - destruct Hhas as (r & Hr & Htype). apply bool_decide_eq_true.
    destruct (filter _ active') as [|r0 rs] eqn:Efilter; [|simpl; lia].
    exfalso. exact (filter_nil_not_elem_of _ _ r Efilter Htype Hr).
  - intros Hwf buff_type Hother. apply bool_decide_ext.
    unfold gain_buff_effect in Hgain.
    destruct (filter _ (Player.active_buffs p)) as [|b0 others] eqn:Efilter.
    + cbn [alloc] in Hgain. injection Hgain as <- <-. cbn [objects].
      rewrite filter_app, filter_cons_False, filter_nil, app_nil_r.
      * rewrite (filter_ext_elem _
                   (fun b => get_buff_type (buff_effect (objects s b)) = buff_type));
          [reflexivity|].
        intros r Hr. rewrite fn_lookup_insert_ne; [reflexivity|].
        apply Hwf in Hr. lia.
      * rewrite fn_lookup_insert. simpl. congruence.
    + injection Hgain as <- <-. cbn [update objects].
      rewrite (filter_ext_elem _
                 (fun b => get_buff_type (buff_effect (objects s b)) = buff_type));
        [reflexivity|].
      intros r Hr. destruct (decide (r = b0)) as [->|Hne].
      * rewrite fn_lookup_insert. reflexivity.
      * rewrite fn_lookup_insert_ne by congruence. reflexivity.
Qed.

Lemma gained_buff_is_active_witness :
  let s := Samples.store_of Samples.INVISIBILITY (Some 1000) 1 in
  let p := Player.set_active_buffs [0%nat] Samples.warrior in
  let '(s', p') :=
    Player.gain_buff_effect Samples.get_buff_type Samples.HEALING_OVER_TIME 3000 s p in
  Player.has_active_buff Samples.get_buff_type Samples.HEALING_OVER_TIME s' p' = true /\
  Player.has_active_buff Samples.get_buff_type Samples.INVISIBILITY s' p' = true /\
  Player.has_active_buff Samples.get_buff_type Samples.DAMAGE_OVER_TIME s' p' = false.
Proof.
  intros s p.
  pose proof (gained_buff_is_active Samples.get_buff_type Samples.HEALING_OVER_TIME 3000 s p)
    as Hgained.
  destruct (Player.gain_buff_effect Samples.get_buff_type Samples.HEALING_OVER_TIME 3000 s p)
    as [s' p'].
  destruct Hgained as [Hnew Hother]. split; [exact Hnew|].
  assert (Hwf : forall r, r ∈ Player.active_buffs p -> (r < next_ref s)%nat).
  { intros r Hr%list_elem_of_singleton. subst. simpl. lia. }
  split; rewrite (Hother Hwf) by discriminate; reflexivity.
Defined.

Lemma total_positive (deltas : list Z) :
  Forall (fun d => 0 < d) deltas -> 0 <= total deltas /\ 0 <= total (removelast deltas).
Proof.
  induction 1 as [|d rest Hd Hrest [IH1 IH2]]; [simpl; lia|].
  split; [simpl; lia|]. destruct rest; simpl in *; lia.
Qed.

Lemma running_buff_ends_in_time {BuffEffect : Type} (deltas : list Z) :
  forall (s : store BuffEffect) (active_buffs : list ref) (b : ref) (T : Z),
  NoDup active_buffs ->
  (forall r, r ∈ active_buffs -> timed (objects s r)) ->
  b ∈ active_buffs ->
  _time_until_expiration (objects s b) = Some T ->
  has_applied_start_effect (objects s b) = true ->
  has_been_force_cancelled (objects s b) = false ->
  Forall (fun d => 0 < d) deltas -> deltas <> [] ->
  (removelast deltas = [] \/ total (removelast deltas) < T) ->
  T <= total deltas ->
  exists s' active_buffs' us,
    handle_buffs_each_frame s active_buffs deltas = Ok (s', active_buffs', us) /\
    (fun u => occurrences b (buffs_that_started u)) <$> us = replicate (length deltas) 0%nat /\
    (fun u => occurrences b (buffs_that_ended u)) <$> us
      = replicate (pred (length deltas)) 0%nat ++ [1%nat] /\
    (fun u => occurrences b (buffs_that_were_active u)) <$> us
      = replicate (length deltas) 1%nat /\
    b ∉ active_buffs'.
Proof.
  induction deltas as [|d rest IH];
    intros s active_buffs b T Hnd Ht Hb HT Hs Hc Hpos Hne Hbefore Hafter; [congruence|].
  apply Forall_cons in Hpos as [Hd Hpos].
  destruct (handle_buffs_spec d s active_buffs Hnd Ht) as (s1 & Heq & Hobj & _).
  cbn [handle_buffs_each_frame]. rewrite Heq. cbn [rbind].
  assert (Hst : occurrences b (filter (fun x => starts (objects s x)) active_buffs) = 0%nat).
  { rewrite occurrences_filter by assumption. unfold starts. now rewrite Hs. }
  assert (Hac : occurrences b (filter (fun x => is_active (objects s x)) active_buffs) = 1%nat).
  { rewrite occurrences_filter by assumption. unfold is_active. now rewrite Hc. }
  destruct rest as [|d' rest'].
  - simpl in Hafter.
    assert (He : ends d (objects s b) = true).
    { unfold ends. rewrite Hs, HT. simpl. apply bool_decide_eq_true. lia. }
    cbn [handle_buffs_each_frame rbind]. do 3 eexists. split; [reflexivity|].
    cbn [fmap list_fmap length replicate pred app buffs_that_started buffs_that_ended
         buffs_that_were_active].
    rewrite Hst, Hac, occurrences_filter, He by assumption.
    repeat split. intros [Hn _]%list_elem_of_filter. apply Hn. now rewrite He.
  - destruct (total_positive (d' :: rest') Hpos) as [Hrest Hinit].
    destruct Hbefore as [Hnil|Hbefore]; [discriminate|].
    change (removelast (d :: d' :: rest')) with (d :: removelast (d' :: rest')) in Hbefore.
    change (total (d :: removelast (d' :: rest')))
      with (d + total (removelast (d' :: rest'))) in Hbefore.
    change (total (d :: d' :: rest')) with (d + total (d' :: rest')) in Hafter.
    assert (He : ends d (objects s b) = false).
    { unfold ends. rewrite Hs, HT. simpl. apply bool_decide_eq_false. lia. }
    set (active1 := filter (fun x => ~ ends d (objects s x)) active_buffs) in *.
    destruct (IH s1 active1 b (T - d)) as (s2 & active2 & us & Heq2 & Hs2 & He2 & Hw2 & Hb2).
    + now apply NoDup_filter.
    + intros r [_ Hr]%list_elem_of_filter. rewrite Hobj, decide_True by exact Hr.
      now apply ticked_timed, Ht.
    + apply list_elem_of_filter. split; [now rewrite He | exact Hb].
    + rewrite Hobj, decide_True by exact Hb. simpl. now rewrite HT.
    + rewrite Hobj, decide_True by exact Hb. reflexivity.
    + rewrite Hobj, decide_True by exact Hb. exact Hc.
    + exact Hpos.
    + discriminate.
    + right. lia.
    + lia.
    + rewrite Heq2. cbn [rbind]. do 3 eexists. split; [reflexivity|].
      rewrite !fmap_cons, Hs2, He2, Hw2.
      cbn [buffs_that_started buffs_that_ended buffs_that_were_active].
      rewrite Hst, Hac, occurrences_filter, He by assumption.
      repeat split. exact Hb2.
Qed.

(** X11.  A fresh buff of duration [D] in a list without repetition whose
    buffs all have a remaining duration, ticked by two calls of
    [handle_buffs] or more with positive deltas, the time passed reaching
    [D] with the last call and, unless that is the second call, not with
    the call before: the buff is listed as started once, by the first
    call, as ended once, by the last call, which removes it from the list,
    and as active by every call.  The time passed need not equal [D]. *)
Theorem buff_ends_when_time_is_up {BuffEffect : Type} (s : store BuffEffect)
    (active_buffs : list ref) (b : ref) (effect : BuffEffect) (D delta : Z)
    (deltas : list Z) :
  NoDup active_buffs ->
  (forall r, r ∈ active_buffs -> timed (objects s r)) ->
  b ∈ active_buffs ->
  objects s b = new effect (Some D) ->
  Forall (fun d => 0 < d) (delta :: deltas) ->
  deltas <> [] ->
  (removelast deltas = [] \/ delta + total (removelast deltas) < D) ->
  D <= delta + total deltas ->
  exists s' active_buffs' us,
    handle_buffs_each_frame s active_buffs (delta :: deltas) = Ok (s', active_buffs', us) /\
    (fun u => occurrences b (buffs_that_started u)) <$> us
      = 1%nat :: replicate (length deltas) 0%nat /\
    (fun u => occurrences b (buffs_that_ended u)) <$> us
      = replicate (length deltas) 0%nat ++ [1%nat] /\
    (fun u => occurrences b (buffs_that_were_active u)) <$> us
      = replicate (S (length deltas)) 1%nat /\
    b ∉ active_buffs'.
Proof.
  intros Hnd Ht Hb Hnew Hpos Hne Hbefore Hafter.
  apply Forall_cons in Hpos as [Hd Hpos].
  destruct (handle_buffs_spec delta s active_buffs Hnd Ht) as (s1 & Heq & Hobj & _).
  cbn [handle_buffs_each_frame]. rewrite Heq. cbn [rbind].
  set (active1 := filter (fun x => ~ ends delta (objects s x)) active_buffs) in *.
  assert (He : ends delta (objects s b) = false) by now rewrite Hnew.
  destruct (running_buff_ends_in_time deltas s1 active1 b (D - delta))
    as (s2 & active2 & us & Heq2 & Hs2 & He2 & Hw2 & Hb2).
  - now apply NoDup_filter.
  - intros r [_ Hr]%list_elem_of_filter. rewrite Hobj, decide_True by exact Hr.
    now apply ticked_timed, Ht.
  - apply list_elem_of_filter. split; [now rewrite He | exact Hb].
  - rewrite Hobj, decide_True by exact Hb. now rewrite Hnew.
  - rewrite Hobj, decide_True by exact Hb. reflexivity.
  - rewrite Hobj, decide_True by exact Hb. now rewrite Hnew.
  - exact Hpos.
  - exact Hne.
  - destruct Hbefore; [now left | right; lia].
  - lia.
  - rewrite Heq2. cbn [rbind]. do 3 eexists. split; [reflexivity|].
    rewrite !fmap_cons, Hs2, He2, Hw2.
    cbn [buffs_that_started buffs_that_ended buffs_that_were_active].
    rewrite !occurrences_filter, He by assumption. rewrite Hnew.
    destruct deltas as [|d' rest']; [congruence|].
    repeat split. exact Hb2.
Qed.

Lemma buff_ends_when_time_is_up_witness :
  exists s' us,
    handle_buffs_each_frame (Samples.store_of Samples.HEALING_OVER_TIME (Some 40) 1)
      [0%nat] [16; 17; 16] = Ok (s', [], us) /\
    (fun u => occurrences 0%nat (buffs_that_ended u)) <$> us = [0; 0; 1]%nat.
Proof.
  destruct (buff_ends_when_time_is_up (Samples.store_of Samples.HEALING_OVER_TIME (Some 40) 1)
              [0%nat] 0%nat Samples.HEALING_OVER_TIME 40 16 [17; 16])
    as (s' & active' & us & Heq & _ & He & _).
  - exact (bool_decide_unpack (NoDup [0%nat]) I).
  - intros r _. discriminate.
  - left.
  - reflexivity.
  - repeat constructor.
  - discriminate.
  - right. reflexivity.
  - vm_compute. discriminate.
  - exists s', us. split; [|exact He].
    rewrite Heq. do 3 f_equal.
    vm_compute in Heq. now injection Heq as _ <- _.
Defined.
End BuffMore.

(** ** More on experience and levels *)

Module PlayerMore.
Import Player PlayerProps.

Section WithContent.
Variable fl : Q -> Q.
Context {AbilityType : Type} `{Countable AbilityType}.
Context {TalentsState : Type}.
Variable has_tier_for_level : TalentsState -> Z -> bool.
Variable unlock_tier : TalentsState -> Z -> TalentsState.
Implicit Types (p : PlayerState AbilityType TalentsState).
Implicit Types (events : list (GainExpEvent AbilityType)).

(** The thresholds stay positive. *)
Hypothesis next_max_exp_positive : forall m, 1 <= m -> 1 <= next_max_exp fl m.

Lemma level_up_once_appends p events :
  exists more,
    snd (level_up_once fl has_tier_for_level unlock_tier p events) = events ++ more.
Proof.
  unfold level_up_once.
  destruct (new_level_abilities _ !! level _) as [new_ability|];
    destruct (has_tier_for_level _ _); cbn [snd].
  - eexists. now rewrite <- app_assoc.
  - now eexists.
  - now eexists.
  - exists []. now rewrite app_nil_r.
Qed.

Lemma level_up_loop_returns (fuel : nat) :
  forall p events,
  1 <= max_exp_in_this_level p ->
  (Z.to_nat (exp p) <= fuel)%nat ->
  exists p' events',
    level_up_loop fl has_tier_for_level unlock_tier fuel p events = Some (p', events') /\
    exp p' < max_exp_in_this_level p' /\
    1 <= max_exp_in_this_level p' /\
    level p <= level p' /\
    Z.of_nat (stats_were_updated p') = Z.of_nat (stats_were_updated p) + (level p' - level p) /\
    level_ups events' = level_ups events /\
    (exists more, events' = events ++ more) /\
    (0 <= exp p -> 0 <= exp p') /\
    (max_exp_in_this_level p <= exp p -> level p < level p').
Proof.
  induction fuel as [|fuel IH]; intros p events Hmax Hfuel.
  - assert (exp p < max_exp_in_this_level p) by lia.
    rewrite level_up_loop_stop by assumption.
    do 2 eexists. split; [reflexivity|]. repeat split; try lia.
    exists []. now rewrite app_nil_r.
  - destruct (decide (exp p < max_exp_in_this_level p)) as [Hlt|Hge].
    + rewrite level_up_loop_stop by assumption.
      do 2 eexists. split; [reflexivity|]. repeat split; try lia.
      exists []. now rewrite app_nil_r.
    + rewrite level_up_loop_continue by lia.
      pose proof (level_up_once_spec fl has_tier_for_level unlock_tier p events) as Hspec.
      destruct (level_up_once_appends p events) as [more1 Hmore1].
      destruct (level_up_once fl has_tier_for_level unlock_tier p events) as [p1 events1].
      cbn [snd] in Hmore1.
      destruct Hspec as (He1 & Hl1 & Hm1 & Hs1 & _ & _ & Hv1).
      destruct (IH p1 events1) as
        (p' & events' & Heq & Hexp & Hmax' & Hlevel & Hstats & Hups & [more Hmore] & Hpos & _).
      * rewrite Hm1. now apply next_max_exp_positive.
      * lia.
      * exists p', events'. split; [exact Heq|]. repeat split; try lia.
        exists (more1 ++ more). rewrite Hmore, Hmore1. now rewrite app_assoc.
Qed.

(** X12.  For a player whose threshold is positive, [gain_exp] returns
    (with as many passes of its loop as the experience to spend, at most)
    and leaves the experience below the threshold of the level reached,
    and not negative if the experience with the gain was not.  The stat
    update has run once per level gained.  The events returned are empty
    exactly when no level was gained, and hold one [PlayerLeveledUp]
    otherwise, however many levels that is: their truth value is what the
    engine reads as "did the player level up". *)
Theorem gain_exp_returns (fuel : nat) (amount : Z) p :
  1 <= max_exp_in_this_level p ->
  (Z.to_nat (exp p + amount) <= fuel)%nat ->
  exists p' events,
    gain_exp fl has_tier_for_level unlock_tier fuel amount p = Some (Ok (p', events)) /\
    exp p' < max_exp_in_this_level p' /\
    (0 <= exp p + amount -> 0 <= exp p') /\
    level p <= level p' /\
    Z.of_nat (stats_were_updated p') = Z.of_nat (stats_were_updated p) + (level p' - level p) /\
    (events = [] <-> level p' = level p) /\
    level_ups events = (if decide (level p' = level p) then 0 else 1)%nat.
Proof.
  intros Hmax Hfuel. unfold gain_exp.
  set (p0 := set_exp_level (exp p + amount) (level p) p).
  set (events0 := if bool_decide (exp p0 >= max_exp_in_this_level p0)
                  then [] ++ [PlayerLeveledUp] else []).
  destruct (level_up_loop_returns fuel p0 events0 Hmax Hfuel) as
    (p1 & events1 & Heq & Hexp & Hmax1 & Hlevel & Hstats & Hups & [more Hmore] & Hpos & Hup).
  rewrite Heq. unfold notify_exp_observers. rewrite bool_decide_eq_false_2 by lia.
  cbn [rbind]. do 2 eexists. split; [reflexivity|].
  cbn [exp max_exp_in_this_level level stats_were_updated].
  change (exp p0) with (exp p + amount) in *.
  change (level p0) with (level p) in *.
  change (max_exp_in_this_level p0) with (max_exp_in_this_level p) in *.
  change (stats_were_updated p0) with (stats_were_updated p) in *.
  split; [exact Hexp|]. split; [exact Hpos|]. split; [exact Hlevel|]. split; [exact Hstats|].
  unfold events0 in *. case_bool_decide as Hge.
  - assert (level p < level p1) by (apply Hup; lia).
    split.
    + split; [|lia]. rewrite Hmore. intros Hnil. discriminate.
    + rewrite Hups. rewrite decide_False by lia. reflexivity.
  - assert (Hstop : exp p + amount < max_exp_in_this_level p) by lia.
    rewrite (level_up_loop_stop fl has_tier_for_level unlock_tier fuel p0 []) in Heq
      by exact Hstop.
    injection Heq as <- <-. split; [tauto|].
    rewrite decide_True by reflexivity. reflexivity.
Qed.
End WithContent.

(** In exact arithmetic a threshold never shrinks. *)
Lemma next_max_exp_exact (m : Z) : 1 <= m -> 1 <= next_max_exp Samples.exact m.
Proof.
  intros Hm. unfold next_max_exp, Samples.exact, py_int.
  cbn [Qmult inject_Z Qnum Qden]. apply Z.quot_le_lower_bound; lia.
Qed.

Lemma gain_exp_returns_witness :
  exists p' events,
    gain_exp Samples.exact Samples.has_tier_for_level Samples.unlock_tier 1000 1000
      Samples.warrior = Some (Ok (p', events)) /\
    exp p' < max_exp_in_this_level p' /\
    level_ups events = 1%nat.
Proof.
  destruct (gain_exp_returns Samples.exact Samples.has_tier_for_level Samples.unlock_tier
              next_max_exp_exact 1000 1000 Samples.warrior)
    as (p' & events & Heq & Hexp & _ & _ & _ & Hnil & Hups).
  - simpl. lia.
  - simpl. lia.
  - exists p', events. split; [exact Heq|]. split; [exact Hexp|].
    rewrite Hups. case_decide as Hlevel; [|reflexivity].
    apply Hnil in Hlevel. subst events. vm_compute in Heq. discriminate.
Defined.

Section WorthLevels.
Variable fl : Q -> Q.
Context {AbilityType : Type} `{Countable AbilityType}.
Context {TalentsState : Type}.
Variable has_tier_for_level : TalentsState -> Z -> bool.
Variable unlock_tier : TalentsState -> Z -> TalentsState.
Implicit Types (p : PlayerState AbilityType TalentsState).
Implicit Types (events : list (GainExpEvent AbilityType)).
Hypothesis next_max_exp_positive : forall m, 1 <= m -> 1 <= next_max_exp fl m.

(** Gaining what is missing to the threshold gains one level. *)
Lemma gain_missing_exp (fuel : nat) p :
  1 <= max_exp_in_this_level p ->
  exists p' events,
    gain_exp fl has_tier_for_level unlock_tier (S fuel)
      (max_exp_in_this_level p - exp p) p = Some (Ok (p', events)) /\
    level p' = level p + 1 /\
    exp p' = 0 /\
    1 <= max_exp_in_this_level p' /\
    stats_were_updated p' = S (stats_were_updated p) /\
    level_ups events = 1%nat.
Proof.
  intros Hmax. unfold gain_exp.
  set (p0 := set_exp_level (exp p + (max_exp_in_this_level p - exp p)) (level p) p).
  assert (Hp0 : exp p0 = max_exp_in_this_level p0) by (cbn; lia).
  rewrite bool_decide_eq_true_2 by lia.
  rewrite level_up_loop_continue by lia.
  pose proof (level_up_once_spec fl has_tier_for_level unlock_tier p0
                ([] ++ [PlayerLeveledUp])) as Hspec.
  destruct (level_up_once fl has_tier_for_level unlock_tier p0 ([] ++ [PlayerLeveledUp]))
    as [p1 events1].
  destruct Hspec as (He1 & Hl1 & Hm1 & Hs1 & _ & _ & Hv1).
  assert (1 <= max_exp_in_this_level p1).
  { rewrite Hm1. now apply next_max_exp_positive. }
  rewrite level_up_loop_stop by lia.
  unfold notify_exp_observers. rewrite bool_decide_eq_false_2 by lia.
  cbn [rbind]. do 2 eexists. split; [reflexivity|].
  cbn [exp max_exp_in_this_level level stats_were_updated].
  repeat split; try assumption; lia.
Qed.

Lemma gain_exp_repeatedly_levels (fuel n : nat) :
  forall p events,
  1 <= max_exp_in_this_level p ->
  exists p' more,
    gain_exp_repeatedly fl has_tier_for_level unlock_tier (S fuel) n p events
      = Some (Ok (p', events ++ more)) /\
    level p' = level p + Z.of_nat n /\
    stats_were_updated p' = (stats_were_updated p + n)%nat /\
    level_ups more = n /\
    (n <> 0%nat -> exp p' = 0).
Proof.
  induction n as [|n IH]; intros p events Hmax.
  - exists p, []. cbn [gain_exp_repeatedly]. rewrite app_nil_r.
    repeat split; (lia || congruence).
  - cbn [gain_exp_repeatedly].
    destruct (gain_missing_exp fuel p Hmax) as (p1 & events1 & -> & Hl1 & He1 & Hm1 & Hs1 & Hv1).
    destruct (IH p1 (events ++ events1) Hm1) as (p' & more & Heq & Hl & Hs & Hv & He).
    exists p', (events1 ++ more). rewrite app_assoc. split; [exact Heq|].
    rewrite level_ups_app. repeat split; try lia.
    intros _. destruct n; [|now apply He].
    cbn [gain_exp_repeatedly] in Heq. injection Heq as <- _. exact He1.
Qed.

(** X13.  For a player whose threshold is positive,
    [gain_exp_worth_n_levels(num_levels)] returns, raises the level by
    [num_levels] exactly (by nothing for a number that is not positive)
    and, one call of [gain_exp] per level, returns as many
    [PlayerLeveledUp] events and runs the stat update as many times; it
    leaves the player with no experience in the level reached. *)
Theorem worth_n_levels_gains_n_levels (fuel : nat) (num_levels : Z) p :
  1 <= max_exp_in_this_level p ->
  exists p' events,
    gain_exp_worth_n_levels fl has_tier_for_level unlock_tier (S fuel) num_levels p
      = Some (Ok (p', events)) /\
    level p' = level p + Z.max 0 num_levels /\
    level_ups events = Z.to_nat num_levels /\
    stats_were_updated p' = (stats_were_updated p + Z.to_nat num_levels)%nat /\
    (0 < num_levels -> exp p' = 0).
Proof.
  intros Hmax. unfold gain_exp_worth_n_levels.
  destruct (gain_exp_repeatedly_levels fuel (Z.to_nat num_levels) p [] Hmax)
    as (p' & more & Heq & Hl & Hs & Hv & He).
  exists p', more. split; [exact Heq|]. repeat split; try lia.
Qed.
End WorthLevels.

Lemma worth_n_levels_gains_n_levels_witness :
  exists p' events,
    gain_exp_worth_n_levels Samples.exact Samples.has_tier_for_level Samples.unlock_tier 1 3
      Samples.warrior = Some (Ok (p', events)) /\
    level p' = 4 /\
    level_ups events = 3%nat.
Proof.
  destruct (worth_n_levels_gains_n_levels Samples.exact Samples.has_tier_for_level
              Samples.unlock_tier next_max_exp_exact 0 3 Samples.warrior)
    as (p' & events & Heq & Hlevel & Hups & _).
  - simpl. lia.
  - exists p', events. split; [exact Heq|]. split; [exact Hlevel | exact Hups].
Defined.

Section Cooldowns.
Context {AbilityType : Type} `{Countable AbilityType}.
Context {TalentsState : Type}.
Implicit Types (p : PlayerState AbilityType TalentsState).

(** X14.  [recharge_ability_cooldowns] with a time that is not negative
    keeps the abilities of the dictionary, lowers by the time every
    cooldown that is above zero, below zero if the time is larger, and
    leaves the others as they are: no cooldown rises, and no cooldown
    falls below minus the longest time passed in one call.  The cooldown
    observers are notified once if some cooldown was above zero and not at
    all otherwise. *)
Theorem recharge_lowers_running_cooldowns (time_passed longest : Z) p :
  0 <= time_passed <= longest ->
  let p' := recharge_ability_cooldowns time_passed p in
  (forall a, ability_cooldowns_remaining p' !! a = None <->
             ability_cooldowns_remaining p !! a = None) /\
  (forall a c, ability_cooldowns_remaining p !! a = Some c ->
     exists c', ability_cooldowns_remaining p' !! a = Some c' /\
       c' <= c /\
       (0 < c -> c' = c - time_passed) /\
       (c <= 0 -> c' = c) /\
       (- longest <= c -> - longest <= c')) /\
  cooldowns_were_updated p' =
    (if decide (exists a c, ability_cooldowns_remaining p !! a = Some c /\ 0 < c)
     then S (cooldowns_were_updated p) else cooldowns_were_updated p).
Proof.
  intros Hdt p'. unfold p', recharge_ability_cooldowns.
  cbn [set_cooldowns ability_cooldowns_remaining cooldowns_were_updated].
  split; [|split].
  - intros a. rewrite lookup_fmap. destruct (_ !! a); simpl; split; congruence.
  - intros a c Hc. rewrite lookup_fmap, Hc. simpl. eexists. split; [reflexivity|].
    case_bool_decide; repeat split; lia.
  - destruct (existsb _ _) eqn:Hany.
    + apply existsb_exists in Hany as ([a c] & Hin & Hpos).
      apply list_elem_of_In, elem_of_map_to_list in Hin.
      apply bool_decide_eq_true in Hpos. cbn [snd] in Hpos.
      rewrite decide_True; [lia|]. exists a, c. split; [exact Hin | lia].
    + rewrite decide_False; [lia|]. intros (a & c & Hc & Hpos).
      assert (Hex : existsb (fun entry : AbilityType * Z => bool_decide (snd entry > 0))
                      (map_to_list (ability_cooldowns_remaining p)) = true);
        [|congruence].
      apply existsb_exists. exists (a, c). split.
      * apply list_elem_of_In, elem_of_map_to_list. exact Hc.
      * apply bool_decide_eq_true. cbn [snd]. lia.
Qed.

(** X15.  [add_to_ability_cooldown] raises a [KeyError] exactly for an
    ability that has no entry in the dictionary of the cooldowns; on a new
    player these are the abilities that are not among the initial ones.
    After [gain_ability] of the ability it returns, and the cooldown is
    the amount added, whatever it was before: [gain_ability] resets it. *)
Theorem cooldown_of_known_abilities (ability_type : AbilityType) (amount : Z) p
    (health_resource0 mana_resource0 : Gauge.HealthOrManaResource)
    (abilities0 : list AbilityType) (new_level_abilities0 : gmap Z AbilityType)
    (armor0 : Q) (level_bonus0 : PlayerLevelBonus) (talents : TalentsState) :
  (add_to_ability_cooldown ability_type amount p = Raise KeyError <->
   ability_cooldowns_remaining p !! ability_type = None) /\
  (add_to_ability_cooldown ability_type amount
     (new health_resource0 mana_resource0 abilities0 new_level_abilities0 armor0 level_bonus0
        talents) = Raise KeyError <->
   ability_type ∉ abilities0) /\
  (exists p',
     add_to_ability_cooldown ability_type amount (gain_ability ability_type p) = Ok p' /\
     ability_cooldowns_remaining p' !! ability_type = Some amount /\
     forall other, other <> ability_type ->
       ability_cooldowns_remaining p' !! other = ability_cooldowns_remaining p !! other).
Proof.
  assert (Hraise : forall q : PlayerState AbilityType TalentsState,
            add_to_ability_cooldown ability_type amount q = Raise KeyError <->
            ability_cooldowns_remaining q !! ability_type = None).
  { intros q. unfold add_to_ability_cooldown.
    destruct (ability_cooldowns_remaining q !! ability_type); split; congruence. }
  split; [apply Hraise|]. split.
  - rewrite Hraise. cbn [new ability_cooldowns_remaining].
    rewrite <- not_elem_of_list_to_map. rewrite <- list_fmap_compose.
    split; intros Hnot Hin; apply Hnot.
    + apply list_elem_of_fmap. now exists ability_type.
    + apply list_elem_of_fmap in Hin as (a & -> & Hin). exact Hin.
  - unfold add_to_ability_cooldown, gain_ability. cbn [ability_cooldowns_remaining].
    rewrite lookup_insert_eq. eexists. split; [reflexivity|].
    cbn [set_cooldowns ability_cooldowns_remaining]. split.
    + rewrite lookup_insert_eq. f_equal; lia.
    + intros other Hother. now rewrite !lookup_insert_ne by congruence.
Qed.
End Cooldowns.

Lemma recharge_lowers_running_cooldowns_witness :
  exists p1,
    add_to_ability_cooldown Samples.CHARGE 20 (gain_ability Samples.CHARGE Samples.warrior)
      = Ok p1 /\
    ability_cooldowns_remaining (recharge_ability_cooldowns 16 (recharge_ability_cooldowns 16 p1))
      !! Samples.CHARGE = Some (-12) /\
    ability_cooldowns_remaining
      (recharge_ability_cooldowns 16
         (recharge_ability_cooldowns 16 (recharge_ability_cooldowns 16 p1)))
      !! Samples.CHARGE = Some (-12).
Proof.
  eexists. split; [reflexivity|].
  match goal with |- ability_cooldowns_remaining
                       (recharge_ability_cooldowns 16 (recharge_ability_cooldowns 16 ?q))
                       !! _ = _ /\ _ => set (p1 := q) end.
  assert (Hc1 : ability_cooldowns_remaining p1 !! Samples.CHARGE = Some 20) by reflexivity.
  destruct (recharge_lowers_running_cooldowns 16 16 p1) as (_ & Hstep1 & _); [lia|].
  destruct (Hstep1 _ _ Hc1) as (c2 & Hc2 & _ & Hrun2 & _).
  rewrite Hrun2 in Hc2 by lia.
  destruct (recharge_lowers_running_cooldowns 16 16 (recharge_ability_cooldowns 16 p1))
    as (_ & Hstep2 & _); [lia|].
  destruct (Hstep2 _ _ Hc2) as (c3 & Hc3 & _ & Hrun3 & _).
  rewrite Hrun3 in Hc3 by lia.
  destruct (recharge_lowers_running_cooldowns 16 16
              (recharge_ability_cooldowns 16 (recharge_ability_cooldowns 16 p1)))
    as (_ & Hstep3 & _); [lia|].
  destruct (Hstep3 _ _ Hc3) as (c4 & Hc4 & _ & _ & Hstay4 & _).
  rewrite Hstay4 in Hc4 by lia.
  split; [exact Hc3 | exact Hc4].
Defined.

Lemma cooldown_of_known_abilities_witness :
  add_to_ability_cooldown Samples.STOMP 100 Samples.warrior = Raise KeyError /\
  exists p',
    add_to_ability_cooldown Samples.STOMP 100 (gain_ability Samples.STOMP Samples.warrior)
      = Ok p' /\
    ability_cooldowns_remaining p' !! Samples.STOMP = Some 100.
Proof.
  destruct (cooldown_of_known_abilities Samples.STOMP 100 Samples.warrior
              (Gauge.new 60 0) (Gauge.new 30 2) [Samples.SWORD_SLASH]
              (<[2 := Samples.CHARGE]> (<[5 := Samples.BLOOD_LUST]> (<[7 := Samples.STOMP]> ∅)))
              3 {| health := 15; mana := 5; armor := 3 # 2 |}
              {| Samples.tier_levels := [3; 4; 5; 6; 7]; Samples.unlocked := [] |})
    as (_ & Hnew & p' & Heq & Hcooldown & _).
  split.
  - apply Hnew. intros Hin%list_elem_of_singleton. discriminate.
  - exists p'. split; [exact Heq | exact Hcooldown].
Defined.
End PlayerMore.

(** ** More on world entities and the movement resolver *)

Module WorldMore.
Import World WorldProps.

(** X16.  [rotate_left] undoes [rotate_right] and the other way round,
    two turns to the right are two turns to the left, and four turns to
    the right give the entity back; a rotation changes nothing but the
    direction. *)
Theorem rotations_undo_each_other (e : WorldEntity) :
  rotate_left (rotate_right e) = e /\
  rotate_right (rotate_left e) = e /\
  rotate_right (rotate_right e) = rotate_left (rotate_left e) /\
  rotate_right (rotate_right (rotate_right (rotate_right e))) = e /\
  direction (rotate_right e) <> direction e.
Proof.
  destruct e as [x0 y0 w0 h0 [] sp sm es mv rc pr vs vz]; repeat split; discriminate.
Qed.

Section WithPygame.
Variable fl : Q -> Q.
Variable Rect_of : Q -> Q -> Z -> Z -> Pygame.Rect.
Variable colliderect : Pygame.Rect -> Pygame.Rect -> bool.
Variable collidepoint : Pygame.Rect -> Q -> Q -> bool.
Variable translate_in_direction : Q * Q -> Direction -> Q -> Q * Q.
Variable is_x_and_y_within_distance : Z * Z -> Q * Q -> Z -> bool.

(** The collision test finds nothing when no other entity collides. *)
Lemma would_not_collide (gs : GameState) (entity : ref) (candidate : Q * Q)
    (walls : list ref) :
  let e := entities gs entity in
  is_position_within_game_world collidepoint gs candidate = true ->
  get_walls_close_to_position gs (py_int (fst candidate), py_int (snd candidate)) = Ok walls ->
  (forall other, other ∈ other_entities_of gs walls -> other <> entity ->
     colliderect (Rect_of (fst candidate) (snd candidate) (w e) (h e))
                 (pygame_collision_rect (entities gs other)) = false) ->
  would_entity_collide_if_new_pos Rect_of colliderect collidepoint gs entity candidate =
    Ok (move_entity Rect_of entity (x e, y e) (move_entity Rect_of entity candidate gs), false).
Proof.
  intros e Hin Hwalls Hfree.
  unfold would_entity_collide_if_new_pos. rewrite Hin. cbn [negb].
  unfold get_walls_close_to_position in *. unfold get_position.
  rewrite !entities_move_same.
  change (walls_buckets (move_entity Rect_of entity candidate gs)) with (walls_buckets gs).
  change (x (set_position Rect_of candidate (entities gs entity))) with (fst candidate).
  change (y (set_position Rect_of candidate (entities gs entity))) with (snd candidate).
  rewrite Hwalls. cbn [rbind].
  change (other_entities_of (move_entity Rect_of entity candidate gs) walls)
    with (other_entities_of gs walls).
  rewrite BuffMore.filter_none; [reflexivity|].
  intros other Hother [Hcollide Hne].
  unfold _entities_collide in Hcollide.
  rewrite entities_move_other in Hcollide by congruence.
  rewrite Hfree in Hcollide by (assumption || congruence). discriminate.
Qed.

(** X17.  When the entity is moving, its candidate position is within the
    world for pygame, and the rectangle of the entity at the candidate
    collides with the rectangle of no other entity that the resolver looks
    at, the movement update puts the entity at the candidate, with its
    rectangle, and touches no other entity. *)
Theorem free_move_is_committed (gs : GameState) (entity : ref) (time_passed : Z)
    (new_position : Q * Q) (walls : list ref) :
  let e := entities gs entity in
  let candidate := get_within_world gs new_position (w e, h e) in
  get_new_position_according_to_dir_and_speed fl translate_in_direction time_passed e
    = Some new_position ->
  is_position_within_game_world collidepoint gs candidate = true ->
  get_walls_close_to_position gs (py_int (fst candidate), py_int (snd candidate)) = Ok walls ->
  (forall other, other ∈ other_entities_of gs walls -> other <> entity ->
     colliderect (Rect_of (fst candidate) (snd candidate) (w e) (h e))
                 (pygame_collision_rect (entities gs other)) = false) ->
  exists gs',
    update_world_entity_position_within_game_world fl Rect_of colliderect collidepoint
      translate_in_direction gs entity time_passed = Ok gs' /\
    (x (entities gs' entity), y (entities gs' entity)) = candidate /\
    pygame_collision_rect (entities gs' entity)
      = Rect_of (fst candidate) (snd candidate) (w e) (h e) /\
    forall r, r <> entity -> entities gs' r = entities gs r.
Proof.
  intros e candidate Hnew Hin Hwalls Hfree.
  unfold update_world_entity_position_within_game_world. fold e. rewrite Hnew.
  fold candidate.
  rewrite (would_not_collide gs entity candidate walls Hin Hwalls Hfree).
  cbn [rbind negb]. eexists. split; [reflexivity|].
  rewrite !entities_move_same. split; [|split].
  - cbn [set_position x y]. now destruct candidate.
  - reflexivity.
  - intros r Hr. now rewrite !entities_move_other.
Qed.

(** X18.  Whenever the movement update returns, it has moved no entity
    but the one it was called on, and has left that one either where it
    was or at its candidate position: a move is taken whole or not at
    all. *)
Theorem move_is_whole_or_none (gs gs' : GameState) (entity : ref) (time_passed : Z) :
  update_world_entity_position_within_game_world fl Rect_of colliderect collidepoint
    translate_in_direction gs entity time_passed = Ok gs' ->
  let e := entities gs entity in
  (forall r, r <> entity -> entities gs' r = entities gs r) /\
  ((x (entities gs' entity), y (entities gs' entity)) = (x e, y e) \/
   exists new_position,
     get_new_position_according_to_dir_and_speed fl translate_in_direction time_passed e
       = Some new_position /\
     (x (entities gs' entity), y (entities gs' entity))
       = get_within_world gs new_position (w e, h e)).
Proof.
  unfold update_world_entity_position_within_game_world.
  destruct (get_new_position_according_to_dir_and_speed _ _ _ _) as [new_position|] eqn:Hnew.
  - unfold would_entity_collide_if_new_pos.
    destruct (negb _); [discriminate|].
    destruct (get_walls_close_to_position _ _) as [walls|]; [|discriminate].
    cbn [rbind].
    match goal with |- context [match ?l with [] => false | _ :: _ => true end] =>
      destruct l as [|colliding others] end; cbn [negb]; intros [= <-]; cbv zeta.
    + rewrite !entities_move_same. split.
      * intros other Hother. now rewrite !entities_move_other.
      * right. exists new_position. split; [reflexivity|].
        cbn [set_position x y]. now destruct (get_within_world _ _ _).
    + rewrite !entities_move_same. split.
      * intros other Hother. now rewrite !entities_move_other.
      * left. reflexivity.
  - intros [= <-]. split; [reflexivity | now left].
Qed.

(** X19.  An NPC with a leash (a distance from its start position that is
    neither [None] nor zero) whose new position, as direction and speed
    give it and before it is brought within the world, is not within that
    distance of its start position is not moved at all, whatever stands
    or does not stand in its way; an NPC whose leash is [None] or zero is
    moved as any world entity is. *)
Theorem leash_holds_the_npc_back (gs : GameState) (npc : NonPlayerCharacter)
    (time_passed : Z) (new_position : Q * Q) :
  get_new_position_according_to_dir_and_speed fl translate_in_direction time_passed
    (entities gs (world_entity npc)) = Some new_position ->
  (forall distance,
     max_distance_allowed_from_start_position npc = Some distance ->
     distance <> 0 ->
     is_x_and_y_within_distance (start_position npc) new_position distance = false ->
     update_npc_position_within_game_world fl Rect_of colliderect collidepoint
       translate_in_direction is_x_and_y_within_distance gs npc time_passed = Ok gs) /\
  (max_distance_allowed_from_start_position npc = None \/
   max_distance_allowed_from_start_position npc = Some 0 ->
   update_npc_position_within_game_world fl Rect_of colliderect collidepoint
     translate_in_direction is_x_and_y_within_distance gs npc time_passed
   = update_world_entity_position_within_game_world fl Rect_of colliderect collidepoint
       translate_in_direction gs (world_entity npc) time_passed).
Proof.
  intros Hnew. unfold update_npc_position_within_game_world,
    update_world_entity_position_within_game_world. rewrite Hnew. split.
  - intros distance -> Hdistance Hfar.
    rewrite bool_decide_eq_false_2 by exact Hdistance. now rewrite Hfar.
  - intros [-> | ->]; reflexivity.
Qed.
End WithPygame.

Lemma free_move_is_committed_witness :
  exists gs',
    update_world_entity_position_within_game_world Samples.exact Samples.Rect_of
      Samples.colliderect Samples.collidepoint Samples.translate_in_direction
      Samples.open_room 0%nat 5 = Ok gs' /\
    (x (entities gs' 0%nat), y (entities gs' 0%nat)) = (15 # 1, 10 # 1).
Proof.
  destruct (free_move_is_committed Samples.exact Samples.Rect_of Samples.colliderect
              Samples.collidepoint Samples.translate_in_direction Samples.open_room
              0%nat 5
              (Samples.translate_in_direction (10, 10)%Q RIGHT (Samples.exact (1 * inject_Z 5)))
              [])
    as (gs' & Heq & Hposition & _).
  - reflexivity.
  - reflexivity.
  - vm_compute. reflexivity.
  - intros other Hother Hne. cbn in Hother.
    repeat (apply elem_of_cons in Hother as [->|Hother]; [try congruence|]).
    + reflexivity.
    + now apply not_elem_of_nil in Hother.
  - exists gs'. split; [exact Heq|]. rewrite Hposition. reflexivity.
Defined.

Lemma move_is_whole_or_none_witness :
  exists gs',
    update_world_entity_position_within_game_world Samples.exact Samples.Rect_of
      Samples.colliderect Samples.collidepoint Samples.translate_in_direction
      Samples.two_in_a_room 0%nat 5 = Ok gs' /\
    forall r, r <> 0%nat -> entities gs' r = entities Samples.two_in_a_room r.
Proof.
  destruct (update_world_entity_position_within_game_world Samples.exact Samples.Rect_of
              Samples.colliderect Samples.collidepoint Samples.translate_in_direction
              Samples.two_in_a_room 0%nat 5) as [gs'|err] eqn:Heq;
    [|vm_compute in Heq; discriminate].
  exists gs'. split; [reflexivity|].
  exact (proj1 (move_is_whole_or_none Samples.exact Samples.Rect_of Samples.colliderect
                  Samples.collidepoint Samples.translate_in_direction
                  Samples.two_in_a_room gs' 0%nat 5 Heq)).
Defined.

Lemma leash_holds_the_npc_back_witness :
  update_npc_position_within_game_world Samples.exact Samples.Rect_of Samples.colliderect
    Samples.collidepoint Samples.translate_in_direction Samples.is_x_and_y_within_distance
    Samples.open_room Samples.leashed_walker 5 = Ok Samples.open_room.
Proof.
  destruct (leash_holds_the_npc_back Samples.exact Samples.Rect_of Samples.colliderect
              Samples.collidepoint Samples.translate_in_direction
              Samples.is_x_and_y_within_distance Samples.open_room Samples.leashed_walker 5
              (Samples.translate_in_direction (10, 10)%Q RIGHT (Samples.exact (1 * inject_Z 5))))
    as [Hleash _].
  - reflexivity.
  - apply (Hleash 3); [reflexivity | discriminate | reflexivity].
Defined.





(** X22.  [get_within_world] brings a position between the left (upper)
    edge of the world and the position that puts the right (lower) side
    of an entity of the size on the right (lower) edge, when the entity
    fits in the world, and leaves a position that is there already as it
    is.  An entity that does not fit is put on the left (upper) edge. *)
Theorem within_world_is_within (gs : GameState) (pos : Q * Q) (size : Z * Z) :
  let area := entire_world_area gs in
  let left := inject_Z (Pygame.x area) in
  let right := inject_Z (Pygame.x area + Pygame.w area - fst size) in
  let top := inject_Z (Pygame.y area) in
  let bottom := inject_Z (Pygame.y area + Pygame.h area - snd size) in
  let '(x', y') := get_within_world gs pos size in
  ((left <= right -> left <= x' <= right) /\
   (left <= fst pos <= right -> x' == fst pos) /\
   (right < left -> x' == left))%Q /\
  ((top <= bottom -> top <= y' <= bottom) /\
   (top <= snd pos <= bottom -> y' == snd pos) /\
   (bottom < top -> y' == top))%Q.
Proof.
  cbv zeta. unfold get_within_world.
  set (left := inject_Z (Pygame.x (entire_world_area gs))).
  set (right := inject_Z (Pygame.x (entire_world_area gs) + Pygame.w (entire_world_area gs)
                          - fst size)).
  set (top := inject_Z (Pygame.y (entire_world_area gs))).
  set (bottom := inject_Z (Pygame.y (entire_world_area gs) + Pygame.h (entire_world_area gs)
                           - snd size)).
  clearbody left right top bottom.
  split.
  - destruct (Q.min_spec right (fst pos)) as [[? Emin]|[? Emin]];
      destruct (Q.max_spec left (Qmin right (fst pos))) as [[? Emax]|[? Emax]];
      rewrite Emax; rewrite Emin in *; repeat split; intros; lra.
  - destruct (Q.min_spec bottom (snd pos)) as [[? Emin]|[? Emin]];
      destruct (Q.max_spec top (Qmin bottom (snd pos))) as [[? Emax]|[? Emax]];
      rewrite Emax; rewrite Emin in *; repeat split; intros; lra.
Qed.

Lemma within_world_is_within_witness :
  let '(x', y') := get_within_world Samples.open_room (300, -5)%Q (20, 20) in
  (0 <= x' <= 230 /\ 0 <= y' <= 230)%Q.
Proof.
  pose proof (within_world_is_within Samples.open_room (300, -5)%Q (20, 20)) as Hwithin.
  cbv zeta in Hwithin.
  destruct (get_within_world Samples.open_room (300, -5)%Q (20, 20)) as [x' y'].
  destruct Hwithin as [(Hx & _ & _) (Hy & _ & _)].
  split; [apply Hx | apply Hy]; vm_compute; discriminate.
Defined.
End WorldMore.

(** ** More on the bucket index *)

Module BucketsMore.
Import Buckets BucketsProps.

(** A dictionary of [n] entries that has the keys of [range(0, n)] has no
    other key. *)
Lemma keys_of_a_full_dict {V} (m : gmap Z V) (n : Z) :
  Z.of_nat (size m) = n ->
  (forall k, 0 <= k < n -> is_Some (m !! k)) ->
  forall k, is_Some (m !! k) <-> 0 <= k < n.
Proof.
  intros Hsize Hkeys k. split; [|apply Hkeys].
  assert (Heq : list_to_set (seqZ 0 n) = (dom m : gset Z)).
  { apply set_subseteq_size_eq.
    - intros j Hj%elem_of_list_to_set%elem_of_seqZ. apply elem_of_dom, Hkeys. lia.
    - rewrite size_dom, size_list_to_set by apply NoDup_seqZ. rewrite length_seqZ. lia. }
  intros Hk%elem_of_dom. rewrite <- Heq in Hk.
  apply elem_of_list_to_set, elem_of_seqZ in Hk. lia.
Qed.

Section WithEntities.
Context {E : Type} `{EqDecision E}.
Variable get_position : E -> Z * Z.
Implicit Types (b : Buckets E) (entity : E).

Lemma bucket_at_iff_in_grid b (x_bucket y_bucket : Z) :
  grid_ok b ->
  (exists bucket, bucket_at b x_bucket y_bucket = Ok bucket) <->
  cell_in_grid (entire_world_area b) (x_bucket, y_bucket) = true.
Proof.
  intros Hgrid. pose proof Hgrid as [Hsize Hcols].
  unfold cell_in_grid. cbn [fst snd].
  rewrite andb_true_iff, !bool_decide_eq_true. split.
  - intros [bucket Hat]. unfold bucket_at in Hat.
    destruct (_buckets b !! x_bucket) as [column|] eqn:Hcol; [|discriminate].
    destruct (column !! y_bucket) as [bucket'|] eqn:Hbucket; [|discriminate].
    assert (Hx : 0 <= x_bucket < columns_of (entire_world_area b)).
    { apply (keys_of_a_full_dict (_buckets b)); [exact Hsize| |now rewrite Hcol].
      intros k Hk. destruct (Hcols k Hk) as (c & -> & _). eauto. }
    split; [exact Hx|].
    destruct (Hcols x_bucket Hx) as (column' & Hcol' & Hrows & Hsome).
    rewrite Hcol in Hcol'. injection Hcol' as <-.
    apply (keys_of_a_full_dict column); [exact Hrows | exact Hsome | now rewrite Hbucket].
  - intros [Hx Hy]. now apply bucket_at_grid.
Qed.

(** X23.  On a grid as the constructor lays it out, [add_entity] returns
    exactly for an entity whose position falls in a cell of the grid, and
    raises a [KeyError] for any other: a position to the left of or above
    the world, or beyond its last column or row, is refused, not
    clamped. *)
Theorem add_entity_needs_a_cell entity b :
  grid_ok b ->
  (is_ok (add_entity get_position entity b) = true <->
   cell_in_grid (entire_world_area b) (cell_of get_position b entity) = true) /\
  (cell_in_grid (entire_world_area b) (cell_of get_position b entity) = false ->
   add_entity get_position entity b = Raise KeyError).
Proof.
  intros Hgrid.
  pose proof (bucket_at_iff_in_grid b (fst (cell_of get_position b entity))
                (snd (cell_of get_position b entity)) Hgrid) as Hiff.
  unfold add_entity, _bucket_for_world_position. unfold cell_of in *.
  destruct (_bucket_index_for_world_position b (get_position entity)) as [cx cy].
  cbn [fst snd] in Hiff.
  destruct (bucket_at b cx cy) as [bucket|err] eqn:Hat; cbn [rbind is_ok].
  - assert (Hin : cell_in_grid (entire_world_area b) (cx, cy) = true)
      by (apply Hiff; eauto).
    split; [tauto|]. congruence.
  - assert (Hout : cell_in_grid (entire_world_area b) (cx, cy) <> true).
    { intros Hin. apply Hiff in Hin as [bucket Hbucket]. discriminate. }
    split; [split; [discriminate | contradiction]|].
    intros _. unfold bucket_at in Hat.
    destruct (_buckets b !! cx) as [column|]; [|congruence].
    destruct (column !! cy); [discriminate | congruence].
Qed.

(** X24.  [remove_entity] undoes [add_entity]: removing an entity that was
    just added, and was not in the bucket of its cell before, gives back
    the buckets as they were.  Removing an entity that is not in the
    bucket of its cell raises a [ValueError]. *)
Theorem remove_undoes_add entity b :
  (forall b', add_entity get_position entity b = Ok b' ->
     (forall bucket, _bucket_for_world_position b (get_position entity) = Ok bucket ->
        entity ∉ bucket) ->
     remove_entity get_position entity b' = Ok b) /\
  (forall bucket, _bucket_for_world_position b (get_position entity) = Ok bucket ->
     entity ∉ bucket ->
     remove_entity get_position entity b = Raise ValueError).
Proof.
  assert (Hremove_last : forall bucket : list E, entity ∉ bucket ->
            list_remove entity (bucket ++ [entity]) = Ok bucket).
  { induction bucket as [|y l IH]; intros Hnot; simpl.
    - now rewrite decide_True.
    - apply not_elem_of_cons in Hnot as [Hne Hnot].
      rewrite decide_False by congruence. now rewrite IH. }
  assert (Hremove_none : forall bucket : list E, entity ∉ bucket ->
            list_remove entity bucket = Raise ValueError).
  { induction bucket as [|y l IH]; intros Hnot; simpl; [reflexivity|].
    apply not_elem_of_cons in Hnot as [Hne Hnot].
    rewrite decide_False by congruence. now rewrite IH. }
  split.
  - intros b'. unfold add_entity, remove_entity, _bucket_for_world_position, store_bucket.
    destruct (_bucket_index_for_world_position b (get_position entity)) as [cx cy] eqn:Hcell.
    unfold bucket_at at 1 2.
    destruct (_buckets b !! cx) as [column|] eqn:Hcol; [|discriminate].
    destruct (column !! cy) as [bucket|] eqn:Hbucket; [|discriminate].
    cbn [rbind]. intros [= <-] Hfresh.
    change (_bucket_index_for_world_position (set_buckets ?m b) ?p)
      with (_bucket_index_for_world_position b p).
    rewrite Hcell. unfold bucket_at, set_buckets. cbn [_buckets].
    rewrite lookup_alter_eq, Hcol. cbn [fmap option_fmap option_map].
    rewrite lookup_insert_eq. cbn [rbind].
    rewrite (Hremove_last bucket) by (apply Hfresh; reflexivity). cbn [rbind].
    destruct b as [m area]. cbn [_buckets entire_world_area] in *. do 2 f_equal.
    apply map_eq. intros k. rewrite !lookup_alter.
    destruct (decide (cx = k)) as [<-|Hne]; [|reflexivity].
    rewrite decide_True by reflexivity. rewrite Hcol.
    cbn [fmap option_fmap option_map].
    f_equal. rewrite insert_insert_eq. now apply insert_id.
  - intros bucket Hat Hnot. unfold remove_entity. rewrite Hat. cbn [rbind].
    now rewrite Hremove_none.
Qed.

(** X25.  On a grid as the constructor lays it out, with every entity in
    the bucket of its cell, the query of the neighbourhood of a position
    returns, and what it returns are the stored entities whose cell is at
    most one column and one row away from the cell of the position, save
    the entities of the last column and of the last row of the grid, which
    it never returns. *)
Theorem neighbourhood_of_a_position b (position : Z * Z) :
  grid_ok b -> in_own_cell get_position b ->
  exists found,
    get_entities_close_to_position b position = Ok found /\
    forall entity, entity ∈ found <->
      (exists x_bucket y_bucket bucket,
         bucket_at b x_bucket y_bucket = Ok bucket /\ entity ∈ bucket) /\
      let cell := cell_of get_position b entity in
      let here := _bucket_index_for_world_position b position in
      fst here - 1 <= fst cell <= fst here + 1 /\
      snd here - 1 <= snd cell <= snd here + 1 /\
      fst cell < columns_of (entire_world_area b) - 1 /\
      snd cell < rows_of (entire_world_area b) - 1.
Proof.
  intros Hgrid Hown. unfold get_entities_close_to_position.
  destruct (_bucket_index_for_world_position b position) as [px py]. cbn [fst snd].
  destruct (buckets_between_spec b (px - 1) (px + 1) (py - 1) (py + 1) Hgrid)
    as (buckets & Heq & Hmem).
  rewrite Heq. cbn [rbind]. eexists. split; [reflexivity|].
  intros entity. rewrite elem_of_concat. split.
  - intros (bucket & (x_bucket & y_bucket & Hx & Hy & Hat)%Hmem & Hentity).
    split; [now exists x_bucket, y_bucket, bucket|].
    rewrite (Hown _ _ _ _ Hat Hentity). cbn [fst snd].
    unfold py_range in Hx, Hy. apply elem_of_seqZ in Hx, Hy. lia.
  - intros [(x_bucket & y_bucket & bucket & Hat & Hentity) Hnear].
    rewrite (Hown _ _ _ _ Hat Hentity) in Hnear. cbn [fst snd] in Hnear.
    assert (Hcell : cell_in_grid (entire_world_area b) (x_bucket, y_bucket) = true).
    { apply bucket_at_iff_in_grid; eauto. }
    unfold cell_in_grid in Hcell. cbn [fst snd] in Hcell.
    apply andb_true_iff in Hcell as [Hx%bool_decide_eq_true Hy%bool_decide_eq_true].
    exists bucket. split; [|exact Hentity]. apply Hmem.
    exists x_bucket, y_bucket. unfold py_range. rewrite !elem_of_seqZ.
    split; [lia|]. split; [lia | exact Hat].
Qed.

(** X26.  On such a grid the query of a rectangle returns, and what it
    returns are the stored entities whose cell is within one column and
    one row of the cells that the rectangle spans, save the entities of
    the last column and of the last row of the grid, which it never
    returns. *)
Theorem neighbourhood_of_a_rectangle b (world_area : Pygame.Rect) :
  grid_ok b -> in_own_cell get_position b ->
  exists found,
    get_entitites_close_to_world_area b world_area = Ok found /\
    forall entity, entity ∈ found <->
      (exists x_bucket y_bucket bucket,
         bucket_at b x_bucket y_bucket = Ok bucket /\ entity ∈ bucket) /\
      let cell := cell_of get_position b entity in
      cell_in_reach b world_area cell = true /\
      fst cell < columns_of (entire_world_area b) - 1 /\
      snd cell < rows_of (entire_world_area b) - 1.
Proof.
  intros Hgrid Hown. pose proof (world_area_query_spec b world_area Hgrid) as Hquery.
  unfold cell_in_reach.
  destruct (_bucket_index_for_world_position b (Pygame.topleft world_area)) as [x0 y0].
  destruct (_bucket_index_for_world_position b (Pygame.bottomright world_area)) as [x1 y1].
  destruct Hquery as (found & Heq & Hmem).
  exists found. split; [exact Heq|]. intros entity. rewrite Hmem. cbv zeta.
  rewrite andb_true_iff, !bool_decide_eq_true. split.
  - intros (x_bucket & y_bucket & bucket & Hx & Hy & Hat & Hentity).
    split; [now exists x_bucket, y_bucket, bucket|].
    rewrite (Hown _ _ _ _ Hat Hentity). cbn [fst snd].
    unfold py_range in Hx, Hy. apply elem_of_seqZ in Hx, Hy. lia.
  - intros [(x_bucket & y_bucket & bucket & Hat & Hentity) Hnear].
    rewrite (Hown _ _ _ _ Hat Hentity) in Hnear. cbn [fst snd] in Hnear.
    assert (Hcell : cell_in_grid (entire_world_area b) (x_bucket, y_bucket) = true).
    { apply bucket_at_iff_in_grid; eauto. }
    unfold cell_in_grid in Hcell. cbn [fst snd] in Hcell.
    apply andb_true_iff in Hcell as [Hx%bool_decide_eq_true Hy%bool_decide_eq_true].
    exists x_bucket, y_bucket, bucket. unfold py_range. rewrite !elem_of_seqZ.
    split; [lia|]. split; [lia|]. split; [exact Hat | exact Hentity].
Qed.
End WithEntities.

Lemma decorated_grid :
  grid_ok Samples.decorated /\ in_own_cell Samples.decoration_position Samples.decorated.
Proof.
  apply (new_spec Samples.decoration_position [0%nat; 1%nat] Samples.small_world).
  - vm_compute. discriminate.
  - vm_compute. discriminate.
  - vm_compute. reflexivity.
Qed.

Lemma neighbourhood_of_a_rectangle_witness :
  exists found,
    get_entitites_close_to_world_area Samples.decorated Samples.small_world = Ok found /\
    1%nat ∈ found /\ 0%nat ∉ found.
Proof.
  pose proof decorated_grid as [Hgrid Hown].
  destruct (neighbourhood_of_a_rectangle Samples.decoration_position Samples.decorated
              Samples.small_world Hgrid Hown) as (found & Heq & Hmem).
  exists found. split; [exact Heq|]. split.
  - apply Hmem. split.
    + exists 1, 1, [1%nat]. split; [vm_compute; reflexivity|].
      now apply list_elem_of_singleton.
    + vm_compute. repeat split; discriminate.
  - intros [_ Hnear]%Hmem. vm_compute in Hnear.
    destruct Hnear as (_ & Hlast & _). discriminate.
Defined.

Lemma add_entity_needs_a_cell_witness :
  is_ok (add_entity Samples.decoration_position 0%nat Samples.decorated) = true /\
  add_entity (fun _ : nat => (-5, 10)) 0%nat Samples.decorated = Raise KeyError /\
  add_entity (fun _ : nat => (300, 10)) 0%nat Samples.decorated = Raise KeyError.
Proof.
  pose proof decorated_grid as [Hgrid _].
  split; [|split].
  - apply (add_entity_needs_a_cell Samples.decoration_position 0%nat _ Hgrid).
    vm_compute. reflexivity.
  - apply (add_entity_needs_a_cell (fun _ : nat => (-5, 10)) 0%nat _ Hgrid).
    vm_compute. reflexivity.
  - apply (add_entity_needs_a_cell (fun _ : nat => (300, 10)) 0%nat _ Hgrid).
    vm_compute. reflexivity.
Defined.

Lemma remove_undoes_add_witness :
  (exists b', add_entity Samples.decoration_position 2%nat Samples.decorated = Ok b' /\
     remove_entity Samples.decoration_position 2%nat b' = Ok Samples.decorated) /\
  remove_entity Samples.decoration_position 2%nat Samples.decorated = Raise ValueError.
Proof.
  destruct (remove_undoes_add Samples.decoration_position 2%nat Samples.decorated)
    as [Hadd Hnone].
  assert (Hfresh : 2%nat ∉ [1%nat]).
  { intros Hin. apply list_elem_of_singleton in Hin. discriminate. }
  split.
  - eexists. split; [vm_compute; reflexivity|]. apply Hadd.
    + vm_compute. reflexivity.
    + intros bucket Hbucket. vm_compute in Hbucket. injection Hbucket as <-. exact Hfresh.
  - apply (Hnone [1%nat]); [vm_compute; reflexivity | exact Hfresh].
Defined.

Lemma neighbourhood_of_a_position_witness :
  exists found,
    get_entities_close_to_position Samples.decorated (220, 220) = Ok found /\
    1%nat ∈ found /\ 0%nat ∉ found.
Proof.
  pose proof decorated_grid as [Hgrid Hown].
  destruct (neighbourhood_of_a_position Samples.decoration_position Samples.decorated
              (220, 220) Hgrid Hown) as (found & Heq & Hmem).
  exists found. split; [exact Heq|]. split.
  - apply Hmem. split.
    + exists 1, 1, [1%nat]. split; [vm_compute; reflexivity|].
      now apply list_elem_of_singleton.
    + vm_compute. repeat split; discriminate.
  - intros [_ Hnear]%Hmem. vm_compute in Hnear.
    destruct Hnear as (_ & _ & Hlast & _). discriminate.
Defined.
End BucketsMore.
